(** * bitcore: the Script subsystem (lib/script.js)

    A shallow embedding of [lib/script.js]: the byte parser and serializer,
    the text form, the template classifier, the mutator API and the builders,
    followed by the properties of the natural-language specification.

    Conventions of the embedding.
    - A Buffer is a [list byte].
    - A JavaScript number held in a chunk field is a [jsnum]: an integer, NaN
      (what [parseInt] gives on a non-numeric token) or [Undefined] (an absent
      property, or [Opcode(name).toNumber()] for an unknown name).
    - A thrown exception is [Throw e]; the methods are functions into
      [result].  Loops whose bound is not structural carry a fuel argument and
      raise the model-only error [OutOfFuel], shown unreachable below. *)

From Stdlib Require Import ZArith NArith List Bool Lia Ascii String Strings.Byte.
From Stdlib Require Import Permutation DecimalString HexadecimalString.
From Stdlib Require Import DecimalPos DecimalN.
Import ListNotations.
Local Open Scope Z_scope.
Set Warnings "-register-all".

Definition bytes := list byte.

Inductive jsnum : Type :=
| Num (z : Z)
| NaN
| Undefined.

Inductive error : Type :=
| Truncated            (* a read ran past the end of the buffer *)
| InvalidScript        (* Error('Invalid script: ...'), Error('Pushdata data must start with 0x') *)
| InvalidHex           (* new Buffer(str, 'hex') on a malformed hex string *)
| PayloadTooLarge      (* Error('You can't push that much data') *)
| InvalidArgument      (* Error('Invalid script chunk'), a failed $.checkArgument *)
| PreconditionFailed   (* a failed $.checkState *)
| NoStringRepresentation (* Opcode.prototype.toString on an unnamed opcode *)
| TypeError            (* property access on undefined *)
| OutOfFuel.           (* model only: the fuel of a loop ran out *)

Inductive result (A : Type) : Type :=
| Ok (a : A)
| Throw (e : error).
Arguments Ok {A} a.
Arguments Throw {A} e.

Definition bind {A B} (r : result A) (k : A -> result B) : result B :=
  match r with
  | Ok a => k a
  | Throw e => Throw e
  end.

Notation "x <- e ;; k" := (bind e (fun x => k))
  (at level 61, e at next level, right associativity).
Notation "' p <- e ;; k" := (bind e (fun x => let p := x in k))
  (at level 61, p pattern, e at next level, right associativity).

(** Comparisons of a number field with an integer constant: [===], [<], [>],
    [<=], [>=] are all false on NaN and on undefined. *)
Definition num_eqb (a : jsnum) (k : Z) : bool :=
  match a with Num z => z =? k | _ => false end.
Definition num_ltb (a : jsnum) (k : Z) : bool :=
  match a with Num z => z <? k | _ => false end.
Definition num_gtb (a : jsnum) (k : Z) : bool :=
  match a with Num z => k <? z | _ => false end.
Definition num_leb (a : jsnum) (k : Z) : bool :=
  match a with Num z => z <=? k | _ => false end.
Definition num_geb (a : jsnum) (k : Z) : bool :=
  match a with Num z => k <=? z | _ => false end.

(** The value of a byte, and the byte of a number (taken modulo 256). *)
Definition byte_to_Z (b : byte) : Z := Z.of_N (Byte.to_N b).
Definition byte_of_Z (z : Z) : byte :=
  match Byte.of_N (Z.to_N (z mod 256)) with
  | Some b => b
  | None => x00
  end.

Definition blen (b : bytes) : Z := Z.of_nat (List.length b).

(** ** lib/encoding/bufferreader.js *)
Module BufferReader.

(** Modelled from the spec: lib/encoding/bufferreader.js is missing; the
    reader reads sequentially, and "reads past end-of-stream fail with
    Truncated" (section 4.1).  The reader's state is the unread suffix. *)
Definition eof (br : bytes) : bool :=
  match br with [] => true | _ => false end.

Definition readUInt8 (br : bytes) : result (Z * bytes) :=
  match br with
  | b0 :: br' => Ok (byte_to_Z b0, br')
  | _ => Throw Truncated
  end.

Definition readUInt16LE (br : bytes) : result (Z * bytes) :=
  match br with
  | b0 :: b1 :: br' => Ok (byte_to_Z b0 + 256 * byte_to_Z b1, br')
  | _ => Throw Truncated
  end.

Definition readUInt32LE (br : bytes) : result (Z * bytes) :=
  match br with
  | b0 :: b1 :: b2 :: b3 :: br' =>
      Ok (byte_to_Z b0 + 256 * byte_to_Z b1 + 65536 * byte_to_Z b2
          + 16777216 * byte_to_Z b3, br')
  | _ => Throw Truncated
  end.

(** [read(len)].  The spec has every read past the end fail; a reader
    that takes [len] bytes with [Buffer.slice] gives the bytes that are
    left instead, and is at the end of the stream afterwards.  Both are
    covered: [strict] tells which one the reader is. *)
Definition read (strict : bool) (len : Z) (br : bytes)
  : result (bytes * bytes) :=
  if (blen br <? len) && strict then Throw Truncated
  else Ok (firstn (Z.to_nat len) br, skipn (Z.to_nat len) br).

End BufferReader.

(** ** lib/encoding/bufferwriter.js *)
Module BufferWriter.

(** Modelled from the spec: lib/encoding/bufferwriter.js is missing; the
    writer mirrors the reader and "writes cannot fail" (section 4.1): a
    number is written modulo the width of its field, little-endian, and a
    value that is not a number is written as 0. *)
Definition int_of (n : jsnum) : Z :=
  match n with Num z => z | _ => 0 end.

Definition writeUInt8 (n : jsnum) : bytes :=
  [byte_of_Z (int_of n)].

Definition writeUInt16LE (n : jsnum) : bytes :=
  [byte_of_Z (int_of n); byte_of_Z (int_of n / 256)].

Definition writeUInt32LE (n : jsnum) : bytes :=
  [byte_of_Z (int_of n); byte_of_Z (int_of n / 256);
   byte_of_Z (int_of n / 65536); byte_of_Z (int_of n / 16777216)].

End BufferWriter.

(** ** Chunks

    A chunk is the object literal [{buf, len, opcodenum}] or [{opcodenum}];
    an absent [buf] is [None], an absent number is [Undefined].  The chunk
    array of a script can also hold a Script object, which [_insertAtPosition]
    stores as it is; such an element has none of the three properties. *)
Record chunk : Type := mkChunk {
  buf : option bytes;
  len : jsnum;
  opcodenum : jsnum
}.

Inductive item : Type :=
| Chunk (c : chunk)
| ScriptObj (chunks : list item).

Definition Script := list item.

Definition item_buf (it : item) : option bytes :=
  match it with Chunk c => buf c | ScriptObj _ => None end.
Definition item_len (it : item) : jsnum :=
  match it with Chunk c => len c | ScriptObj _ => Undefined end.
Definition item_opcodenum (it : item) : jsnum :=
  match it with Chunk c => opcodenum c | ScriptObj _ => Undefined end.

Definition bare (op : jsnum) : item := Chunk (mkChunk None Undefined op).
Definition push (op : jsnum) (l : jsnum) (b : bytes) : item :=
  Chunk (mkChunk (Some b) l op).

(** ** lib/opcode.js *)
Module Opcode.

(** Modelled from the spec: lib/opcode.js is missing.  The numeric values
    are those of section 3 and of the scenarios E1 to E3 (0x4c, 0x4d, 0x4e;
    OP_0 = 0x00, OP_1..OP_16 = 0x51..0x60; 0x76, 0xa9, 0x88, 0xac, 0x87,
    0x6a); OP_CODESEPARATOR and OP_CHECKMULTISIG, whose values the spec does
    not print, have their Bitcoin values 0xab and 0xae. *)
Definition OP_0 : Z := 0.
Definition OP_PUSHDATA1 : Z := 76.
Definition OP_PUSHDATA2 : Z := 77.
Definition OP_PUSHDATA4 : Z := 78.
Definition OP_1 : Z := 81.
Definition OP_16 : Z := 96.
Definition OP_RETURN : Z := 106.
Definition OP_DUP : Z := 118.
Definition OP_EQUAL : Z := 135.
Definition OP_EQUALVERIFY : Z := 136.
Definition OP_HASH160 : Z := 169.
Definition OP_CODESEPARATOR : Z := 171.
Definition OP_CHECKSIG : Z := 172.
Definition OP_CHECKMULTISIG : Z := 174.

(** Modelled from the spec: the registry is a "bidirectional map between
    opcode names and numeric values" (section 2).  The table of names is not
    in the spec, so it is a parameter [t]: [map] is the lookup by name and
    [reverseMap] the lookup by value, the last entry of a value giving its
    canonical name. *)
Definition registry := list (string * Z).

Fixpoint map (t : registry) (name : string) : jsnum :=
  match t with
  | [] => Undefined
  | (k, v) :: t' => if String.eqb k name then Num v else map t' name
  end.

Fixpoint reverseMap_from (t : registry) (n : Z) (found : option string)
  : option string :=
  match t with
  | [] => found
  | (k, v) :: t' => reverseMap_from t' n (if v =? n then Some k else found)
  end.

Definition reverseMap (t : registry) (n : jsnum) : option string :=
  match n with
  | Num z => reverseMap_from t z None
  | _ => None
  end.

(** An Opcode object holds the property [num]. *)
Record t : Type := mk { num : jsnum }.

Definition ofNumber (n : jsnum) : t := mk n.
Definition ofString (r : registry) (name : string) : t := mk (map r name).
Definition toNumber (o : t) : jsnum := num o.
Definition toString (r : registry) (o : t) : result string :=
  match reverseMap r (num o) with
  | Some name => Ok name
  | None => Throw NoStringRepresentation
  end.

(** Modelled from the spec: "smallInt(n) for n in [0,16] yields the
    corresponding opcode"; outside that range the argument is refused. *)
Definition smallInt (n : Z) : result t :=
  if (0 <=? n) && (n <=? 16) then
    if n =? 0 then Ok (mk (Num OP_0)) else Ok (mk (Num (OP_1 + n - 1)))
  else Throw InvalidArgument.

(** Modelled from the spec: the small-integer opcodes are OP_0 and
    OP_1..OP_16. *)
Definition isSmallIntOp (opcode : jsnum) : bool :=
  num_eqb opcode OP_0 || (num_geb opcode OP_1 && num_leb opcode OP_16).

End Opcode.

(** ** Random.prototype.getPseudoRandomBuffer (the file part_000) *)

(** [b[i] = v] on a Buffer: the low eight bits of [v] are stored; an index
    outside the buffer stores nothing. *)
Definition Buffer_set (b : bytes) (i : nat) (v : Z) : bytes :=
  if (i <? List.length b)%nat then firstn i b ++ byte_of_Z v :: skipn (S i) b
  else b.

(** The state of the loop: the global [r], the number of calls of
    [Math.random] made so far, the buffer [b]. *)
Record prng : Type := mkPrng {
  prng_r : Z;
  prng_calls : nat;
  prng_b : bytes
}.

(** One turn of the loop, at index [i].  [random n] stands for the integer
    part of [Math.random() * 0x100000000] at the call number [n], a number in
    0..2^32-1: [&] and [>>>] read their left operand as this integer. *)
Definition getPseudoRandomBuffer_step (random : nat -> Z) (i : nat)
    (st : prng) : prng :=
  let j := (i / 4)%nat in
  let k := (i - j * 4)%nat in
  if (k =? 0)%nat then
    let r := random (prng_calls st) in
    mkPrng r (S (prng_calls st)) (Buffer_set (prng_b st) i (Z.land r 255))
  else
    let r := Z.shiftr (prng_r st) 8 in
    mkPrng r (prng_calls st) (Buffer_set (prng_b st) i (Z.land r 255)).

Fixpoint getPseudoRandomBuffer_loop (random : nat -> Z) (turns i : nat)
    (st : prng) : prng :=
  match turns with
  | O => st
  | S turns' =>
      getPseudoRandomBuffer_loop random turns' (S i)
        (getPseudoRandomBuffer_step random i st)
  end.

(** [new Buffer(size)] has [size] bytes of whatever the memory held, [fresh];
    the loop runs for [i = 0, ..., size]; [r0] is the global [r] before the
    call. *)
Definition getPseudoRandomBuffer (random : nat -> Z) (r0 : Z) (fresh : bytes)
    (size : nat) : prng :=
  getPseudoRandomBuffer_loop random (S size) 0 (mkPrng r0 0 fresh).

(** The byte at index [i] of a buffer filled from the draws [random]: the
    draw number [i / 4], shifted right by [8 * (i mod 4)] bits. *)
Definition draw_byte (random : nat -> Z) (i : nat) : byte :=
  byte_of_Z (Z.shiftr (random (i / 4)%nat) (8 * Z.of_nat (i mod 4))).


(** ** Sample inputs

    Concrete collaborators and scripts on which the properties below are
    evaluated. *)

(** Modelled from the spec: a registry holding the opcodes that section 3
    names (of OP_1..OP_16, the first three and the last). *)
Definition spec_registry : Opcode.registry :=
  [ ("OP_0", 0); ("OP_PUSHDATA1", 76); ("OP_PUSHDATA2", 77);
    ("OP_PUSHDATA4", 78); ("OP_1", 81); ("OP_2", 82); ("OP_3", 83);
    ("OP_16", 96); ("OP_RETURN", 106); ("OP_DUP", 118); ("OP_EQUAL", 135);
    ("OP_EQUALVERIFY", 136); ("OP_HASH160", 169); ("OP_CODESEPARATOR", 171);
    ("OP_CHECKSIG", 172); ("OP_CHECKMULTISIG", 174) ]%string.

(** A stand-in for [PublicKey.isValid] that accepts every payload of 33 or 65
    bytes. *)
Definition length_isValid (b : option bytes) : bool :=
  match b with
  | Some l => (List.length l =? 33)%nat || (List.length l =? 65)%nat
  | None => false
  end.

(** A 1-of-1 multisig output script of 71 bytes: OP_1, a push of 67 bytes,
    OP_1, OP_CHECKMULTISIG. *)
Definition redeem_multisig : bytes :=
  [x51; x43] ++ repeat x00 67 ++ [x51; xae].

(** OP_0 followed by a push of those 71 bytes. *)
Definition multisig_in_script : Script :=
  [bare (Num 0); push (Num 71) (Num 71) redeem_multisig].

(** A push of 71 bytes followed by a push of 33 bytes; the 33 bytes parse as
    a script whose last chunk pushes the one-byte script OP_RETURN. *)
Definition key33 : bytes :=
  [x02; x00; x00; x1b] ++ repeat x00 27 ++ [x01; x6a].
Definition pubkeyhash_in_script : Script :=
  [push (Num 71) (Num 71) (repeat x00 71); push (Num 33) (Num 33) key33].

(** Scenario E1: OP_DUP OP_HASH160 push(20 zero bytes) OP_EQUALVERIFY
    OP_CHECKSIG. *)
Definition e1_bytes : bytes :=
  [x76; xa9; x14] ++ repeat x00 20 ++ [x88; xac].
Definition e1_script : Script :=
  [bare (Num 118); bare (Num 169); push (Num 20) (Num 20) (repeat x00 20);
   bare (Num 136); bare (Num 172)].

(** A serialized transaction input: a transaction id of 32 bytes, output
    index 1, the one-byte script OP_DUP, sequence number 0xffffffff. *)
Definition wire_input : bytes :=
  repeat x11 32 ++ [x01; x00; x00; x00] ++ [x01; x76] ++ [xff; xff; xff; xff].

Section Bitcore.

(** Whether [BufferReader.read] itself fails on a short buffer (see
    [BufferReader.read]). *)
Variable strict_read : bool.

(** ** Script.fromBuffer and Script.prototype.toBuffer *)

(** The body of the [while (!br.eof())] loop: it reads one opcode byte and
    what the opcode announces, and gives the chunk it pushes and the reader
    after it. *)
Definition fromBuffer_step (br : bytes) : result (item * bytes) :=
  '(opcodenum, br) <- BufferReader.readUInt8 br ;;
  if (0 <? opcodenum) && (opcodenum <? Opcode.OP_PUSHDATA1) then
    let len := opcodenum in
    '(buf, br) <- BufferReader.read strict_read len br ;;
    Ok (push (Num opcodenum) (Num len) buf, br)
  else if opcodenum =? Opcode.OP_PUSHDATA1 then
    '(len, br) <- BufferReader.readUInt8 br ;;
    '(buf, br) <- BufferReader.read strict_read len br ;;
    Ok (push (Num opcodenum) (Num len) buf, br)
  else if opcodenum =? Opcode.OP_PUSHDATA2 then
    '(len, br) <- BufferReader.readUInt16LE br ;;
    '(buf, br) <- BufferReader.read strict_read len br ;;
    Ok (push (Num opcodenum) (Num len) buf, br)
  else if opcodenum =? Opcode.OP_PUSHDATA4 then
    '(len, br) <- BufferReader.readUInt32LE br ;;
    '(buf, br) <- BufferReader.read strict_read len br ;;
    Ok (push (Num opcodenum) (Num len) buf, br)
  else
    Ok (bare (Num opcodenum), br).

(** The loop, one turn per unit of fuel; every turn reads at least the opcode
    byte, so [length buffer] turns suffice. *)
Fixpoint fromBuffer_loop (fuel : nat) (br : bytes) (chunks : Script)
  : result Script :=
  if BufferReader.eof br then Ok chunks
  else
    match fuel with
    | O => Throw OutOfFuel
    | S fuel' =>
        '(chunk, br) <- fromBuffer_step br ;;
        fromBuffer_loop fuel' br (chunks ++ [chunk])
    end.

Definition fromBuffer (buffer : bytes) : result Script :=
  fromBuffer_loop (List.length buffer) buffer [].

Definition chunk_toBuffer (chunk : item) : bytes :=
  let opcodenum := item_opcodenum chunk in
  BufferWriter.writeUInt8 opcodenum ++
  match item_buf chunk with
  | Some b =>
      if num_ltb opcodenum Opcode.OP_PUSHDATA1 then b
      else if num_eqb opcodenum Opcode.OP_PUSHDATA1 then
        BufferWriter.writeUInt8 (item_len chunk) ++ b
      else if num_eqb opcodenum Opcode.OP_PUSHDATA2 then
        BufferWriter.writeUInt16LE (item_len chunk) ++ b
      else if num_eqb opcodenum Opcode.OP_PUSHDATA4 then
        BufferWriter.writeUInt32LE (item_len chunk) ++ b
      else []
  | None => []
  end.

Definition toBuffer (this : Script) : bytes :=
  flat_map chunk_toBuffer this.

(** ** The classifier *)

(** [Script.types]: the tags are ten distinct strings. *)
Inductive stype : Type :=
| UNKNOWN
| PUBKEY_OUT
| PUBKEY_IN
| PUBKEYHASH_OUT
| PUBKEYHASH_IN
| SCRIPTHASH_OUT
| SCRIPTHASH_IN
| MULTISIG_OUT
| MULTISIG_IN
| DATA_OUT.

Definition stype_eqb (a b : stype) : bool :=
  match a, b with
  | UNKNOWN, UNKNOWN | PUBKEY_OUT, PUBKEY_OUT | PUBKEY_IN, PUBKEY_IN
  | PUBKEYHASH_OUT, PUBKEYHASH_OUT | PUBKEYHASH_IN, PUBKEYHASH_IN
  | SCRIPTHASH_OUT, SCRIPTHASH_OUT | SCRIPTHASH_IN, SCRIPTHASH_IN
  | MULTISIG_OUT, MULTISIG_OUT | MULTISIG_IN, MULTISIG_IN
  | DATA_OUT, DATA_OUT => true
  | _, _ => false
  end.

(** [this.chunks[i].opcodenum] and [this.chunks[i].buf].  Every use is behind
    a test of [this.chunks.length] that makes the index valid, so the [None]
    case of [nth_error] is not reached. *)
Definition opcodenum_at (this : Script) (i : nat) : jsnum :=
  match nth_error this i with
  | Some c => item_opcodenum c
  | None => Undefined
  end.

Definition buf_at (this : Script) (i : nat) : option bytes :=
  match nth_error this i with
  | Some c => item_buf c
  | None => None
  end.

(** Truthiness of [x.buf], and [BufferUtil.isBuffer(x.buf)]: a Buffer object
    is truthy even when empty. *)
Definition truthy (b : option bytes) : bool :=
  match b with Some _ => true | None => false end.

(** [x.buf.length] compared with a constant, for a [buf] known to be there. *)
Definition buf_length (b : option bytes) : Z :=
  match b with Some l => blen l | None => 0 end.

(** [arr.slice(a, b)] for [0 <= a <= b <= arr.length]. *)
Definition slice {A} (a b : nat) (arr : list A) : list A :=
  firstn (b - a) (skipn a arr).

(** Strict equality [===] of two number-or-undefined values. *)
Definition jsnum_strict_eq (a b : jsnum) : bool :=
  match a, b with
  | Num x, Num y => x =? y
  | Undefined, Undefined => true
  | _, _ => false
  end.

(** [this.chunks[1].length] and [this.chunks.len] of [isDataOut]: a chunk has
    no property [length] and an array has no property [len]. *)
Definition item_length (it : item) : jsnum := Undefined.
Definition chunks_len (this : Script) : jsnum := Undefined.

Definition length_at (this : Script) (i : nat) : jsnum :=
  match nth_error this i with
  | Some c => item_length c
  | None => Undefined
  end.

(** [PublicKey.isValid], of lib/publickey.js, is an external collaborator
    (section 6.5); its argument is [x.buf], which can be undefined. *)
Variable PublicKey_isValid : option bytes -> bool.

Definition isPublicKeyHashOut (this : Script) : bool :=
  (List.length this =? 5)%nat &&
  num_eqb (opcodenum_at this 0) Opcode.OP_DUP &&
  num_eqb (opcodenum_at this 1) Opcode.OP_HASH160 &&
  truthy (buf_at this 2) &&
  num_eqb (opcodenum_at this 3) Opcode.OP_EQUALVERIFY &&
  num_eqb (opcodenum_at this 4) Opcode.OP_CHECKSIG.

Definition isPublicKeyHashIn (this : Script) : bool :=
  (List.length this =? 2)%nat &&
  truthy (buf_at this 0) &&
  (71 <=? buf_length (buf_at this 0)) &&
  (buf_length (buf_at this 0) <=? 73) &&
  PublicKey_isValid (buf_at this 1).

Definition isPublicKeyOut (this : Script) : bool :=
  (List.length this =? 2)%nat &&
  truthy (buf_at this 0) &&
  PublicKey_isValid (buf_at this 0) &&
  num_eqb (opcodenum_at this 1) Opcode.OP_CHECKSIG.

Definition isPublicKeyIn (this : Script) : bool :=
  (List.length this =? 1)%nat &&
  truthy (buf_at this 0) &&
  (buf_length (buf_at this 0) =? 71).

Definition isScriptHashOut (this : Script) : bool :=
  (List.length this =? 3)%nat &&
  num_eqb (opcodenum_at this 0) Opcode.OP_HASH160 &&
  truthy (buf_at this 1) &&
  (buf_length (buf_at this 1) =? 20) &&
  num_eqb (opcodenum_at this 2) Opcode.OP_EQUAL.

(** [isScriptHashIn], with the [classify] method it calls on the redeem
    script as a parameter; [new Script(scriptBuf)] is [Script.fromBuffer]. *)
Definition isScriptHashIn_with (classify : Script -> result stype)
    (this : Script) : result bool :=
  if (List.length this =? 0)%nat then Ok false
  else
    match nth_error this (List.length this - 1) with
    | None => Ok false
    | Some chunk =>
        match item_buf chunk with
        | None => Ok false
        | Some scriptBuf =>
            redeemScript <- fromBuffer scriptBuf ;;
            type <- classify redeemScript ;;
            Ok (negb (stype_eqb type UNKNOWN))
        end
    end.

Definition isMultisigOut (this : Script) : bool :=
  (3 <? List.length this)%nat &&
  Opcode.isSmallIntOp (opcodenum_at this 0) &&
  forallb (fun obj => truthy (item_buf obj) && truthy (item_buf obj))
          (slice 1 (List.length this - 2) this) &&
  Opcode.isSmallIntOp (opcodenum_at this (List.length this - 2)) &&
  num_eqb (opcodenum_at this (List.length this - 1)) Opcode.OP_CHECKMULTISIG.

Definition isMultisigIn (this : Script) : bool :=
  (2 <=? List.length this)%nat &&
  num_eqb (opcodenum_at this 0) 0 &&
  forallb (fun obj => truthy (item_buf obj) && truthy (item_buf obj) &&
                      (buf_length (item_buf obj) =? 71))
          (slice 1 (List.length this) this).

Definition isDataOut (this : Script) : bool :=
  (1 <=? List.length this)%nat &&
  num_eqb (opcodenum_at this 0) Opcode.OP_RETURN &&
  ((List.length this =? 1)%nat ||
   ((List.length this =? 2)%nat &&
    truthy (buf_at this 1) &&
    (buf_length (buf_at this 1) <=? 40) &&
    jsnum_strict_eq (length_at this 1) (chunks_len this))).


(** [Script.identifiers], in the order its properties are created, which is
    the order [for (var type in Script.identifiers)] visits them. *)
Definition identifiers (classify : Script -> result stype)
  : list (stype * (Script -> result bool)) :=
  [ (PUBKEY_OUT, fun this => Ok (isPublicKeyOut this));
    (PUBKEY_IN, fun this => Ok (isPublicKeyIn this));
    (PUBKEYHASH_OUT, fun this => Ok (isPublicKeyHashOut this));
    (PUBKEYHASH_IN, fun this => Ok (isPublicKeyHashIn this));
    (MULTISIG_OUT, fun this => Ok (isMultisigOut this));
    (MULTISIG_IN, fun this => Ok (isMultisigIn this));
    (SCRIPTHASH_OUT, fun this => Ok (isScriptHashOut this));
    (SCRIPTHASH_IN, isScriptHashIn_with classify);
    (DATA_OUT, fun this => Ok (isDataOut this)) ].

(** The loop of [classify] over a list of identifiers. *)
Fixpoint classify_loop (ids : list (stype * (Script -> result bool)))
    (this : Script) : result stype :=
  match ids with
  | [] => Ok UNKNOWN
  | (type, identifier) :: ids' =>
      b <- identifier this ;;
      if b then Ok type else classify_loop ids' this
  end.

(** [classify] calls [isScriptHashIn], which calls [classify] on the script
    parsed from the last payload; one unit of fuel per such nested call. *)
Fixpoint classify_at (fuel : nat) (this : Script) : result stype :=
  classify_loop
    (identifiers (match fuel with
                  | O => fun _ => Throw OutOfFuel
                  | S fuel' => classify_at fuel'
                  end))
    this.

(** The payload of the last chunk bounds the nesting: a script parsed from a
    payload has shorter payloads, and a script whose last chunk has no
    payload makes no nested call. *)
Definition nesting_bound (this : Script) : nat :=
  match nth_error this (List.length this - 1) with
  | Some chunk => match item_buf chunk with
                  | Some b => S (List.length b)
                  | None => O
                  end
  | None => O
  end.

Definition classify (this : Script) : result stype :=
  classify_at (nesting_bound this) this.

Definition isScriptHashIn (this : Script) : result bool :=
  isScriptHashIn_with classify this.

Definition isStandard (this : Script) : result bool :=
  type <- classify this ;; Ok (negb (stype_eqb type UNKNOWN)).

(** [Script.identifiers[type]] as a function of the tag. *)
Definition identifier (type : stype) (this : Script) : result bool :=
  match type with
  | UNKNOWN => Ok false
  | PUBKEY_OUT => Ok (isPublicKeyOut this)
  | PUBKEY_IN => Ok (isPublicKeyIn this)
  | PUBKEYHASH_OUT => Ok (isPublicKeyHashOut this)
  | PUBKEYHASH_IN => Ok (isPublicKeyHashIn this)
  | MULTISIG_OUT => Ok (isMultisigOut this)
  | MULTISIG_IN => Ok (isMultisigIn this)
  | SCRIPTHASH_OUT => Ok (isScriptHashOut this)
  | SCRIPTHASH_IN => isScriptHashIn this
  | DATA_OUT => Ok (isDataOut this)
  end.

(** The order the identifiers are visited in by the code. *)
Definition identifiers_order : list stype :=
  [PUBKEY_OUT; PUBKEY_IN; PUBKEYHASH_OUT; PUBKEYHASH_IN; MULTISIG_OUT;
   MULTISIG_IN; SCRIPTHASH_OUT; SCRIPTHASH_IN; DATA_OUT].

(** The order of section 4.5 of the spec, for comparison with the code's. *)
Definition spec_order : list stype :=
  [PUBKEYHASH_OUT; PUBKEYHASH_IN; PUBKEY_OUT; PUBKEY_IN; SCRIPTHASH_OUT;
   SCRIPTHASH_IN; MULTISIG_OUT; MULTISIG_IN; DATA_OUT].

(** First match over a list of tags: what [classify] would return if it
    visited the identifiers in the order [order]. *)
Fixpoint first_match (order : list stype) (this : Script) : result stype :=
  match order with
  | [] => Ok UNKNOWN
  | type :: order' =>
      b <- identifier type this ;;
      if b then Ok type else first_match order' this
  end.

(** [getPublicKeyHash]: the value returned, with the script after the call. *)
Definition getPublicKeyHash (this : Script) : result (option bytes * Script) :=
  if isPublicKeyHashOut this then Ok (buf_at this 2, this)
  else Throw PreconditionFailed.


(** ** The mutator API *)

(** The arguments [add] and [prepend] are called with: a string, a number, an
    Opcode object, a Buffer, an object literal shaped as a chunk, a Script
    object, or something else (a boolean, a function, undefined, null).  A
    function is an ordinary one, [VFunction], or one that is an instance of
    Script, [VScriptFunction]: a callable with [Script.prototype] in its
    prototype chain (the prototype of a function can be set to a Script),
    whose [constructor] is then [Script]; it is given by the array its
    property [chunks] holds. *)
Inductive jsval : Type :=
| VString (s : string)
| VNumber (z : Z)
| VOpcode (o : Opcode.t)
| VBuffer (b : bytes)
| VChunk (c : chunk)
| VScript (s : Script)
| VBoolean (b : bool)
| VFunction
| VScriptFunction (chunks : Script)
| VUndefined
| VNull.

Inductive jstype : Type :=
| TString | TNumber | TObject | TBoolean | TFunction | TUndefined.

Definition jstype_eqb (a b : jstype) : bool :=
  match a, b with
  | TString, TString | TNumber, TNumber | TObject, TObject
  | TBoolean, TBoolean | TFunction, TFunction
  | TUndefined, TUndefined => true
  | _, _ => false
  end.

(** [typeof obj]. *)
Definition typeof (obj : jsval) : jstype :=
  match obj with
  | VString _ => TString
  | VNumber _ => TNumber
  | VOpcode _ | VBuffer _ | VChunk _ | VScript _ | VNull => TObject
  | VBoolean _ => TBoolean
  | VFunction | VScriptFunction _ => TFunction
  | VUndefined => TUndefined
  end.

(** [obj.constructor && obj.constructor.name && obj.constructor.name === 'Opcode'];
    reading [constructor] of undefined or null throws. *)
Definition constructor_is_Opcode (obj : jsval) : result bool :=
  match obj with
  | VOpcode _ => Ok true
  | VUndefined | VNull => Throw TypeError
  | _ => Ok false
  end.

(** [BufferUtil.isBuffer(obj)] and [obj instanceof Script]. *)
Definition isBuffer (obj : jsval) : bool :=
  match obj with VBuffer _ => true | _ => false end.
Definition instanceof_Script (obj : jsval) : bool :=
  match obj with VScript _ | VScriptFunction _ => true | _ => false end.

(** The branches of [_addByType], in the order of the source. *)
Inductive branch : Type :=
| BrString        (* typeof obj === 'string': _addOpcode *)
| BrNumber        (* typeof obj === 'number': _addOpcode *)
| BrOpcode        (* obj.constructor.name === 'Opcode': _addOpcode *)
| BrBuffer        (* BufferUtil.isBuffer(obj): _addBuffer *)
| BrObject        (* typeof obj === 'object': _insertAtPosition *)
| BrConcat        (* obj instanceof Script: chunks.concat(obj.chunks) *)
| BrInvalid.      (* throw new Error('Invalid script chunk') *)

Definition _addByType_branch (obj : jsval) : result branch :=
  if jstype_eqb (typeof obj) TString then Ok BrString
  else if jstype_eqb (typeof obj) TNumber then Ok BrNumber
  else
    isOpcode <- constructor_is_Opcode obj ;;
    if isOpcode then Ok BrOpcode
    else if isBuffer obj then Ok BrBuffer
    else if jstype_eqb (typeof obj) TObject then Ok BrObject
    else if instanceof_Script obj then Ok BrConcat
    else Ok BrInvalid.

(** The opcode registry of lib/opcode.js, a parameter (see [Opcode.map]). *)
Variable registry : Opcode.registry.

Definition _insertAtPosition (op : item) (prepend : bool) (this : Script)
  : Script :=
  if prepend then op :: this else this ++ [op].

Definition _addOpcode (opcode : jsval) (prepend : bool) (this : Script)
  : result Script :=
  op <- match opcode with
        | VNumber z => Ok (Num z)
        | VOpcode o => Ok (Opcode.toNumber o)
        | VString name => Ok (Opcode.toNumber (Opcode.ofString registry name))
        | _ => Throw TypeError      (* Opcode(x) on another type *)
        end ;;
  Ok (_insertAtPosition (bare op) prepend this).

Definition _addBuffer (buf : bytes) (prepend : bool) (this : Script)
  : result Script :=
  let len := blen buf in
  if len =? 0 then Ok this
  else
    opcodenum <-
      (if (0 <? len) && (len <? Opcode.OP_PUSHDATA1) then Ok len
       else if len <? 2 ^ 8 then Ok Opcode.OP_PUSHDATA1
       else if len <? 2 ^ 16 then Ok Opcode.OP_PUSHDATA2
       else if len <? 2 ^ 32 then Ok Opcode.OP_PUSHDATA4
       else Throw PayloadTooLarge) ;;
    Ok (_insertAtPosition (push (Num opcodenum) (Num len) buf) prepend this).

(** What the object and buffer branches are given: in the branch
    [BrBuffer] the argument is a Buffer, in [BrObject] it is an object that is
    neither a Buffer nor an Opcode nor null, in [BrConcat] it is an instance
    of Script and [chunks_of] is its property [chunks]. *)
Definition buffer_of (obj : jsval) : bytes :=
  match obj with VBuffer b => b | _ => [] end.
Definition object_of (obj : jsval) : item :=
  match obj with
  | VChunk c => Chunk c
  | VScript s => ScriptObj s
  | _ => Chunk (mkChunk None Undefined Undefined)
  end.
Definition chunks_of (obj : jsval) : Script :=
  match obj with
  | VScript s => s
  | VScriptFunction chunks => chunks
  | _ => []
  end.

Definition _addByType (obj : jsval) (prepend : bool) (this : Script)
  : result Script :=
  br <- _addByType_branch obj ;;
  match br with
  | BrString | BrNumber | BrOpcode => _addOpcode obj prepend this
  | BrBuffer => _addBuffer (buffer_of obj) prepend this
  | BrObject => Ok (_insertAtPosition (object_of obj) prepend this)
  | BrConcat => Ok (this ++ chunks_of obj)
  | BrInvalid => Throw InvalidArgument
  end.

Definition add (obj : jsval) (this : Script) : result Script :=
  _addByType obj false this.

Definition prepend (obj : jsval) (this : Script) : result Script :=
  _addByType obj true this.

Definition removeCodeseparators (this : Script) : Script :=
  filter (fun c => negb (num_eqb (item_opcodenum c) Opcode.OP_CODESEPARATOR))
         this.

(** ** equals *)

(** The tests [equals] makes on the elements of the chunk arrays: an element
    is a chunk object or a Script object, so it is never itself a Buffer nor
    an Opcode, and it has no property [num]. *)
Definition item_as_buffer (it : item) : option bytes := None.
Definition item_instanceof_Opcode (it : item) : bool := false.
Definition item_num (it : item) : jsnum := Undefined.

Definition BufferUtil_equals (a b : option bytes) : bool :=
  match a, b with
  | Some x, Some y => if list_eq_dec Byte.byte_eq_dec x y then true else false
  | _, _ => false
  end.

Fixpoint equals_loop (this script : Script) : bool :=
  match this, script with
  | a :: this', b :: script' =>
      if truthy (item_as_buffer a) && negb (truthy (item_as_buffer b))
      then false
      else if item_instanceof_Opcode a && negb (item_instanceof_Opcode b)
      then false
      else if truthy (item_as_buffer a) &&
              negb (BufferUtil_equals (item_as_buffer a) (item_as_buffer b))
      then false
      else if negb (jsnum_strict_eq (item_num a) (item_num b))
      then false
      else equals_loop this' script'
  | _, _ => true
  end.

Definition equals (this script : Script) : bool :=
  if negb (List.length this =? List.length script)%nat then false
  else equals_loop this script.


(** ** Strings: the JavaScript string operations the text form uses *)

Definition space : ascii := " "%char.

(** The value of a character as a digit of a radix up to 16. *)
Definition digit_value (c : ascii) : option N :=
  let n := N_of_ascii c in
  if (48 <=? n)%N && (n <=? 57)%N then Some (n - 48)%N
  else if (97 <=? n)%N && (n <=? 102)%N then Some (n - 87)%N
  else if (65 <=? n)%N && (n <=? 70)%N then Some (n - 55)%N
  else None.

Definition is_digit_of (radix : N) (c : ascii) : bool :=
  match digit_value c with
  | Some d => (d <? radix)%N
  | None => false
  end.

Fixpoint parse_digits (radix : N) (s : string) (acc : N) : N :=
  match s with
  | String c s' =>
      match digit_value c with
      | Some d => if (d <? radix)%N then parse_digits radix s' (radix * acc + d)%N
                  else acc
      | None => acc
      end
  | EmptyString => acc
  end.

Definition is_whitespace (c : ascii) : bool :=
  let n := N_of_ascii c in
  (n =? 32)%N || ((9 <=? n)%N && (n <=? 13)%N).

Fixpoint skip_whitespace (s : string) : string :=
  match s with
  | String c s' => if is_whitespace c then skip_whitespace s' else s
  | EmptyString => s
  end.

(** [parseInt(s)] without a radix: leading white space, an optional sign, an
    optional [0x] prefix selecting radix 16, then the longest run of digits;
    NaN when there is no digit. *)
Definition parseInt (s : string) : jsnum :=
  let s := skip_whitespace s in
  let '(negative, s) :=
    match s with
    | String "-"%char s' => (true, s')
    | String "+"%char s' => (false, s')
    | _ => (false, s)
    end in
  let '(radix, s) :=
    match s with
    | String "0"%char (String "x"%char s') => (16%N, s')
    | String "0"%char (String "X"%char s') => (16%N, s')
    | _ => (10%N, s)
    end in
  match s with
  | String c _ =>
      if is_digit_of radix c then
        let n := Z.of_N (parse_digits radix s 0) in
        Num (if negative then - n else n)
      else NaN
  | EmptyString => NaN
  end.

(** [String(n)] and [n.toString(16)] of a number field. *)
Definition decimal (n : N) : string :=
  DecimalString.NilEmpty.string_of_uint (N.to_uint n).
Definition hexadecimal (n : N) : string :=
  HexadecimalString.NilEmpty.string_of_uint (N.to_hex_uint n).

Definition number_toString (n : jsnum) : string :=
  match n with
  | Num z => if z <? 0 then String "-"%char (decimal (Z.to_N (- z)))
             else decimal (Z.to_N z)
  | NaN => "NaN"
  | Undefined => "undefined"
  end.

Definition number_toString16 (n : jsnum) : result string :=
  match n with
  | Num z => Ok (if z <? 0 then String "-"%char (hexadecimal (Z.to_N (- z)))
                 else hexadecimal (Z.to_N z))
  | NaN => Ok "NaN"%string
  | Undefined => Throw TypeError
  end.

(** [buf.toString('hex')]: two lower-case digits per byte. *)
Definition hex_digit (n : N) : ascii :=
  if (n <? 10)%N then ascii_of_N (48 + n) else ascii_of_N (87 + n).

Fixpoint hex_of_bytes (b : bytes) : string :=
  match b with
  | [] => EmptyString
  | x :: b' =>
      String (hex_digit (Byte.to_N x / 16))
        (String (hex_digit (Byte.to_N x mod 16)) (hex_of_bytes b'))
  end.

(** [new Buffer(str, 'hex')]: the bytes of a string of hexadecimal digit
    pairs; a string of odd length or with another character is refused. *)
Fixpoint Buffer_from_hex (s : string) : result bytes :=
  match s with
  | EmptyString => Ok []
  | String _ EmptyString => Throw InvalidHex
  | String c1 (String c2 s') =>
      match digit_value c1, digit_value c2 with
      | Some h, Some l =>
          rest <- Buffer_from_hex s' ;;
          Ok (byte_of_Z (Z.of_N (16 * h + l)) :: rest)
      | _, _ => Throw InvalidHex
      end
  end.

(** Modelled from the spec: lib/util/js.js is missing; [isHexa] holds when
    "the entire input is hexadecimal" (section 4.4). *)
Fixpoint all_hex (s : string) : bool :=
  match s with
  | EmptyString => true
  | String c s' => is_digit_of 16 c && all_hex s'
  end.
Definition isHexa (s : string) : bool :=
  match s with
  | EmptyString => false
  | _ => all_hex s
  end.

(** [str.split(' ')]. *)
Fixpoint split_space (s : string) : list string :=
  match s with
  | EmptyString => [EmptyString]
  | String c s' =>
      if Ascii.eqb c space then EmptyString :: split_space s'
      else match split_space s' with
           | t :: ts => String c t :: ts
           | [] => [String c EmptyString]
           end
  end.

(** [str.substr(1)], [str.slice(2)] and [str.slice(0, 2)]. *)
Definition substr1 (s : string) : string :=
  match s with String _ s' => s' | EmptyString => EmptyString end.
Definition slice2 (s : string) : string := substr1 (substr1 s).
Definition slice02 (s : string) : string :=
  match s with
  | String a (String b _) => String a (String b EmptyString)
  | _ => s
  end.


(** ** Script.prototype.toString and Script.fromString *)

Definition is_pushdata (opcodenum : jsnum) : bool :=
  num_eqb opcodenum Opcode.OP_PUSHDATA1 ||
  num_eqb opcodenum Opcode.OP_PUSHDATA2 ||
  num_eqb opcodenum Opcode.OP_PUSHDATA4.

(** What one turn of the loop of [toString] appends to [str]. *)
Definition chunk_toString (chunk : item) : result string :=
  let opcodenum := item_opcodenum chunk in
  match item_buf chunk with
  | None =>
      match Opcode.reverseMap registry opcodenum with
      | Some _ =>
          name <- Opcode.toString registry (Opcode.ofNumber opcodenum) ;;
          Ok (String space name)
      | None =>
          h <- number_toString16 opcodenum ;;
          Ok (String space ("0x" ++ h))
      end
  | Some b =>
      str <- (if is_pushdata opcodenum then
                name <- Opcode.toString registry (Opcode.ofNumber opcodenum) ;;
                Ok (String space name)
              else Ok EmptyString) ;;
      Ok (str ++ String space (number_toString (item_len chunk))
              ++ String space ("0x" ++ hex_of_bytes b))
  end%string.

Fixpoint toString_loop (chunks : Script) (str : string) : result string :=
  match chunks with
  | [] => Ok str
  | chunk :: chunks' =>
      t <- chunk_toString chunk ;;
      toString_loop chunks' (str ++ t)%string
  end.

Definition toString (this : Script) : result string :=
  str <- toString_loop this EmptyString ;;
  Ok (substr1 str).

(** The loop of [fromString] over the tokens from index [i] on; [tokens[i + 1]]
    and [tokens[i + 2]] are the next elements, and [.slice] on a missing one
    throws. *)
Fixpoint fromString_loop (tokens : list string) (chunks : Script)
  : result Script :=
  match tokens with
  | [] => Ok chunks
  | token :: rest =>
      match Opcode.toNumber (Opcode.ofString registry token) with
      | Undefined =>
          let opcodenum := parseInt token in
          if num_gtb opcodenum 0 && num_ltb opcodenum Opcode.OP_PUSHDATA1 then
            match rest with
            | t1 :: rest' =>
                b <- Buffer_from_hex (slice2 t1) ;;
                fromString_loop rest' (chunks ++ [push opcodenum opcodenum b])
            | [] => Throw TypeError
            end
          else Throw InvalidScript
      | opcodenum =>
          if is_pushdata opcodenum then
            match rest with
            | t1 :: t2 :: rest' =>
                if negb (String.eqb (slice02 t2) "0x") then Throw InvalidScript
                else
                  b <- Buffer_from_hex (slice2 t2) ;;
                  fromString_loop rest'
                    (chunks ++ [push opcodenum (parseInt t1) b])
            | _ => Throw TypeError
            end
          else fromString_loop rest (chunks ++ [bare opcodenum])
      end
  end.

Definition fromString (str : string) : result Script :=
  if isHexa str then
    b <- Buffer_from_hex str ;; fromBuffer b
  else fromString_loop (split_space str) [].

(** ** Builders *)

(** [new Buffer(data)] of a string, its UTF-8 bytes: a parameter. *)
Variable Buffer_from_string : string -> bytes.

Definition buildDataOut (data : jsval) : result Script :=
  let data := match data with
              | VString str => VBuffer (Buffer_from_string str)
              | _ => data
              end in
  s <- add (VNumber Opcode.OP_RETURN) [] ;;
  add data s.

(** Public keys are external (lib/publickey.js): a type with [toBuffer]. *)
Variable PublicKey : Type.
Variable PublicKey_toBuffer : PublicKey -> bytes.

(** Modelled from the spec: [pubkey.toString('hex')] gives the key's
    "hex-serialized bytes" (section 4.7), the hex digits of [toBuffer()]. *)
Definition PublicKey_toString (pubkey : PublicKey) : string :=
  hex_of_bytes (PublicKey_toBuffer pubkey).

(** [a < b] on strings: lexicographic on the character codes. *)
Fixpoint string_ltb (a b : string) : bool :=
  match a, b with
  | _, EmptyString => false
  | EmptyString, String _ _ => true
  | String x a', String y b' =>
      if (N_of_ascii x <? N_of_ascii y)%N then true
      else if (N_of_ascii y <? N_of_ascii x)%N then false
      else string_ltb a' b'
  end.

(** Modelled from the spec: lodash is not part of the sources; [_.sortBy]
    sorts "ascending ... (stable, lexicographic)" by the key (section 4.7).
    Insertion from the right end keeps earlier elements before later ones of
    the same key. *)
Fixpoint sortBy_insert {A} (key : A -> string) (x : A) (l : list A) : list A :=
  match l with
  | [] => [x]
  | h :: t => if string_ltb (key h) (key x) then h :: sortBy_insert key x t
              else x :: h :: t
  end.

Definition sortBy {A} (l : list A) (key : A -> string) : list A :=
  fold_right (sortBy_insert key) [] l.

(** The [for] loop of [buildMultisigOut] adding the keys. *)
Fixpoint add_pubkeys (sorted : list PublicKey) (s : Script) : result Script :=
  match sorted with
  | [] => Ok s
  | pubkey :: sorted' =>
      s <- add (VBuffer (PublicKey_toBuffer pubkey)) s ;;
      add_pubkeys sorted' s
  end.

Definition buildMultisigOut (pubkeys : list PublicKey) (m : Z)
    (noSorting : bool) : result Script :=
  opM <- Opcode.smallInt m ;;
  s <- add (VOpcode opM) [] ;;
  let sorted := if negb noSorting then sortBy pubkeys PublicKey_toString
                else pubkeys in
  s <- add_pubkeys sorted s ;;
  opN <- Opcode.smallInt (Z.of_nat (List.length pubkeys)) ;;
  s <- add (VOpcode opN) s ;;
  add (VNumber Opcode.OP_CHECKMULTISIG) s.

(** The builders of the other templates.  An address is taken by its
    [hashBuffer]; [Hash.sha256ripemd160], of lib/crypto/hash.js, is an
    external collaborator and an argument of [buildScriptHashOut] here. *)

Definition buildPublicKeyHashOut (hashBuffer : bytes) : result Script :=
  s <- add (VNumber Opcode.OP_DUP) [] ;;
  s <- add (VNumber Opcode.OP_HASH160) s ;;
  s <- add (VBuffer hashBuffer) s ;;
  s <- add (VNumber Opcode.OP_EQUALVERIFY) s ;;
  add (VNumber Opcode.OP_CHECKSIG) s.

Definition buildPublicKeyOut (pubkey : PublicKey) : result Script :=
  s <- add (VBuffer (PublicKey_toBuffer pubkey)) [] ;;
  add (VNumber Opcode.OP_CHECKSIG) s.

Definition buildScriptHashOut (Hash_sha256ripemd160 : bytes -> bytes)
    (script : Script) : result Script :=
  s <- add (VNumber Opcode.OP_HASH160) [] ;;
  s <- add (VBuffer (Hash_sha256ripemd160 (toBuffer script))) s ;;
  add (VNumber Opcode.OP_EQUAL) s.

(** Scripts built through the public API: from the empty script, by [add]
    and [prepend] of opcodes (by number, by name, as Opcode objects) and of
    byte payloads. *)
Definition api_argument (obj : jsval) : Prop :=
  match obj with
  | VString _ | VNumber _ | VOpcode _ | VBuffer _ => True
  | _ => False
  end.

Inductive built : Script -> Prop :=
| built_empty : built []
| built_add (obj : jsval) (front : bool) (s s' : Script) :
    built s -> api_argument obj -> _addByType obj front s = Ok s' -> built s'.




(** ** The text form of a script, token by token

    The conditions under which [fromString] reads back what [toString]
    renders, and the tokens [toString] renders a chunk to. *)

Fixpoint no_space (s : string) : bool :=
  match s with
  | EmptyString => true
  | String c s' => negb (Ascii.eqb c space) && no_space s'
  end.

(** A registered name begins with the letter O (as OP_DUP does) and has no
    space. *)
Definition name_ok (name : string) : bool :=
  match name with
  | String c _ => Ascii.eqb c "O"%char && no_space name
  | EmptyString => false
  end.

Fixpoint distinct (l : list string) : bool :=
  match l with
  | [] => true
  | x :: l' => negb (existsb (String.eqb x) l') && distinct l'
  end.

Definition named (r : Opcode.registry) (n : jsnum) : bool :=
  match Opcode.reverseMap r n with Some _ => true | None => false end.

(** A well-formed registry: the names are distinct, as the keys of an object
    are, each is a name as above, and OP_PUSHDATA1, OP_PUSHDATA2 and
    OP_PUSHDATA4 have names. *)
Definition registry_wf (r : Opcode.registry) : bool :=
  forallb name_ok (List.map fst r) && distinct (List.map fst r) &&
  named r (Num Opcode.OP_PUSHDATA1) && named r (Num Opcode.OP_PUSHDATA2) &&
  named r (Num Opcode.OP_PUSHDATA4).

(** A bare opcode that [fromString] reads back: it has a canonical name and
    is none of OP_PUSHDATA1, OP_PUSHDATA2, OP_PUSHDATA4. *)
Definition bare_named (c : item) : bool :=
  match item_buf c with
  | None => named registry (item_opcodenum c) &&
            negb (is_pushdata (item_opcodenum c))
  | Some _ => true
  end.

(** The opcode [_addBuffer] gives a payload of length [L]. *)
Definition push_opcode (L : Z) : Z :=
  if L <? Opcode.OP_PUSHDATA1 then L
  else if L <? 2 ^ 8 then Opcode.OP_PUSHDATA1
  else if L <? 2 ^ 16 then Opcode.OP_PUSHDATA2
  else Opcode.OP_PUSHDATA4.

(** What [add] and [prepend] of opcodes and payloads put in a script. *)
Definition api_chunk (c : item) : Prop :=
  (exists op, c = bare op) \/
  (exists b, 0 < blen b < 2 ^ 32 /\
             c = push (Num (push_opcode (blen b))) (Num (blen b)) b).

Definition name_of (n : jsnum) : string :=
  match Opcode.reverseMap registry n with
  | Some name => name
  | None => EmptyString
  end.

Definition chunk_tokens (c : item) : list string :=
  match item_buf c with
  | None => [name_of (item_opcodenum c)]
  | Some b =>
      (if is_pushdata (item_opcodenum c) then [name_of (item_opcodenum c)]
       else []) ++
      [number_toString (item_len c); ("0x" ++ hex_of_bytes b)%string]
  end.

(** The tokens, each after a space, as [toString] accumulates them. *)
Fixpoint spaced (tokens : list string) : string :=
  match tokens with
  | [] => EmptyString
  | t :: ts => String space (t ++ spaced ts)
  end.

(** Scripts are compared chunk by chunk: same number of chunks, and chunk by
    chunk the same opcode and the same payload. *)
Definition chunkwise_equal (a b : Script) : Prop :=
  Forall2 (fun x y => item_opcodenum x = item_opcodenum y /\
                      item_buf x = item_buf y) a b.

(** ** The rest of lib/script.js: the constructor, [isPushOnly] and the
    other builders *)

(** [isPushOnly]: [_.every] over the chunks. *)
Definition isPushOnly (this : Script) : bool :=
  forallb (fun chunk => num_leb (item_opcodenum chunk) Opcode.OP_16) this.

Definition toScriptHashOut (Hash_sha256ripemd160 : bytes -> bytes)
    (this : Script) : result Script :=
  buildScriptHashOut Hash_sha256ripemd160 this.

(** [buildScriptHashOut] calls [toBuffer()] on its argument, which
    [fromAddress] makes an Address: the builder from the bytes that call
    returns. *)
Definition buildScriptHashOut_from (Hash_sha256ripemd160 : bytes -> bytes)
    (serialized : bytes) : result Script :=
  s <- add (VNumber Opcode.OP_HASH160) [] ;;
  s <- add (VBuffer (Hash_sha256ripemd160 serialized)) s ;;
  add (VNumber Opcode.OP_EQUAL) s.

(** Modelled from the spec: [Signature.SIGHASH_ALL = 0x01] (section 6.5), and
    [BufferUtil.integerAsSingleByteBuffer], of the missing lib/util/buffer.js,
    gives the "single-byte sigtype" (section 4.7). *)
Definition Signature_SIGHASH_ALL : Z := 1.
Definition integerAsSingleByteBuffer (n : Z) : bytes := [byte_of_Z n].

(** [sigtype || Signature.SIGHASH_ALL]: 0, NaN and undefined are falsy. *)
Definition sigtype_or_default (sigtype : jsnum) : Z :=
  match sigtype with
  | Num z => if z =? 0 then Signature_SIGHASH_ALL else z
  | _ => Signature_SIGHASH_ALL
  end.

Definition buildPublicKeyHashIn (publicKey : PublicKey) (signature : bytes)
    (sigtype : jsnum) : result Script :=
  s <- add (VBuffer (signature ++
                     integerAsSingleByteBuffer (sigtype_or_default sigtype)))
           [] ;;
  add (VBuffer (PublicKey_toBuffer publicKey)) s.

(** The options of [buildP2SHMultisigIn]. *)
Record multisig_opts : Type := mkOpts {
  opts_noSorting : bool;
  opts_cachedMultisig : option Script
}.

(** [_.each(signatures, function(signature) { s.add(signature); })]. *)
Fixpoint add_each (signatures : list jsval) (s : Script) : result Script :=
  match signatures with
  | [] => Ok s
  | signature :: signatures' =>
      s <- add signature s ;;
      add_each signatures' s
  end.

Definition buildP2SHMultisigIn (pubkeys : list PublicKey) (threshold : Z)
    (signatures : list jsval) (opts : multisig_opts) : result Script :=
  s <- add (VNumber Opcode.OP_0) [] ;;
  s <- add_each signatures s ;;
  redeem <- match opts_cachedMultisig opts with
            | Some cached => Ok cached
            | None => buildMultisigOut pubkeys threshold (opts_noSorting opts)
            end ;;
  add (VBuffer (toBuffer redeem)) s.

(** An Address (lib/address.js, external) by the members the code uses:
    [hashBuffer], [isPayToScriptHash()], [isPayToPublicKeyHash()] and, through
    [buildScriptHashOut], [toBuffer()]. *)
Record Address : Type := mkAddress {
  hashBuffer : bytes;
  isPayToScriptHash : bool;
  isPayToPublicKeyHash : bool;
  Address_toBuffer : bytes
}.

(** A result, or an exception, among them [errors.Script.UnrecognizedAddress]. *)
Inductive outcome (A : Type) : Type :=
| Returned (a : A)
| Thrown (e : error)
| ThrownUnrecognizedAddress.
Arguments Returned {A} a.
Arguments Thrown {A} e.
Arguments ThrownUnrecognizedAddress {A}.

Definition outcome_of {A} (r : result A) : outcome A :=
  match r with
  | Ok a => Returned a
  | Throw e => Thrown e
  end.

Definition fromAddress (Hash_sha256ripemd160 : bytes -> bytes)
    (address : Address) : outcome Script :=
  if isPayToScriptHash address then
    outcome_of (buildScriptHashOut_from Hash_sha256ripemd160
                  (Address_toBuffer address))
  else if isPayToPublicKeyHash address then
    outcome_of (buildPublicKeyHashOut (hashBuffer address))
  else ThrownUnrecognizedAddress.

(** What [new Script(from)] is called with, and the constructor; [set] takes
    [obj.chunks || this.chunks]. *)
Inductive script_from : Type :=
| FromBuffer (b : bytes)
| FromAddress (a : Address)
| FromScript (s : Script)
| FromString (str : string)
| FromUndefined
| FromObject (chunks : option Script).

Definition Script_new (Hash_sha256ripemd160 : bytes -> bytes)
    (from : script_from) : outcome Script :=
  match from with
  | FromBuffer b => outcome_of (fromBuffer b)
  | FromAddress a => fromAddress Hash_sha256ripemd160 a
  | FromScript s => outcome_of (fromBuffer (toBuffer s))
  | FromString str => outcome_of (fromString str)
  | FromUndefined => Returned []
  | FromObject chunks =>
      Returned (match chunks with Some c => c | None => [] end)
  end.

Definition Script_empty : Script := [].

(** ** What the parser makes

    The chunks [fromBuffer] pushes: a bare opcode byte outside 1..0x4e, or a
    push whose opcode fits its declared length and whose payload is no longer
    than declared. *)
Definition push_shape (op l : Z) : Prop :=
  (1 <= op <= 75 /\ l = op) \/
  (op = Opcode.OP_PUSHDATA1 /\ 0 <= l < 2 ^ 8) \/
  (op = Opcode.OP_PUSHDATA2 /\ 0 <= l < 2 ^ 16) \/
  (op = Opcode.OP_PUSHDATA4 /\ 0 <= l < 2 ^ 32).

Definition bare_shape (op : Z) : Prop :=
  0 <= op < 256 /\ ~ (1 <= op <= 78).

Definition parsed_chunk (c : item) : Prop :=
  (exists op, c = bare (Num op) /\ bare_shape op) \/
  (exists op l b, c = push (Num op) (Num l) b /\ push_shape op l /\
                  blen b <= l).

(** A chunk whose payload has exactly the declared length. *)
Definition exact_chunk (c : item) : Prop :=
  (exists op, c = bare (Num op) /\ bare_shape op) \/
  (exists op b, c = push (Num op) (Num (blen b)) b /\
                push_shape op (blen b)).

(** ** The chunks the builders make *)

(** The chunk [add] makes of a non-empty payload. *)
Definition payload_push (b : bytes) : item :=
  push (Num (push_opcode (blen b))) (Num (blen b)) b.

(** The payload sizes [_addBuffer] accepts and makes a chunk of. *)
Definition pushable (b : bytes) : Prop := 0 < blen b < 2 ^ 32.





(** The chunks of an input spending a pay-to-script-hash output: OP_0, then
    one push per payload. *)
Definition p2sh_in_chunks (payloads : list bytes) : Script :=
  bare (Num Opcode.OP_0) :: List.map payload_push payloads.


(** ** lib/transaction/input/input.js *)

(** Modelled from the spec: the remaining reads and writes of section 4.1.
    [readReverse(len)] is the "reversed N-byte read"; the variable-length
    integer is the "Bitcoin compact varint, 1/3/5/9-byte forms": a first byte
    below 0xfd is the value, 0xfd, 0xfe and 0xff announce 2, 4 and 8
    little-endian bytes.  The writer is the mirror and takes the shortest
    form. *)
Definition readReverse (len : Z) (br : bytes) : result (bytes * bytes) :=
  '(b, br) <- BufferReader.read strict_read len br ;;
  Ok (rev b, br).

Definition readVarintNum (br : bytes) : result (Z * bytes) :=
  '(first, br) <- BufferReader.readUInt8 br ;;
  if first =? 253 then BufferReader.readUInt16LE br
  else if first =? 254 then BufferReader.readUInt32LE br
  else if first =? 255 then
    '(lo, br) <- BufferReader.readUInt32LE br ;;
    '(hi, br) <- BufferReader.readUInt32LE br ;;
    Ok (lo + 2 ^ 32 * hi, br)
  else Ok (first, br).

Definition writeReverse (b : bytes) : bytes := rev b.

Definition writeVarintNum (n : Z) : bytes :=
  if n <? 253 then BufferWriter.writeUInt8 (Num n)
  else if n <? 2 ^ 16 then xfd :: BufferWriter.writeUInt16LE (Num n)
  else if n <? 2 ^ 32 then xfe :: BufferWriter.writeUInt32LE (Num n)
  else xff :: BufferWriter.writeUInt32LE (Num (n mod 2 ^ 32)) ++
              BufferWriter.writeUInt32LE (Num (n / 2 ^ 32)).

(** Script objects are shared by reference: [setScript] keeps the object it
    is given.  The heap holds the chunk array of every Script object, an
    object being its index. *)
Definition ref : Type := nat.
Definition heap : Type := list Script.

Definition chunks_at (h : heap) (r : ref) : Script := nth r h [].

(** [script.add(obj)] on the object [r]. *)
Definition add_at (r : ref) (obj : jsval) (h : heap) : result heap :=
  s <- add obj (chunks_at h r) ;;
  Ok (firstn r h ++ s :: skipn (S r) h).

(** [prevTxId] is a Buffer, a string ([_fromObject] turns only hexadecimal
    strings into Buffers) or absent. *)
Inductive txid : Type :=
| TxidBuffer (b : bytes)
| TxidString (s : string)
| TxidUndefined.

(** An Input by the properties the code reads and writes; [None] is an
    absent (or, for [_script], null) property.  The property [output], which
    only [isValidSignature] reads, is left out. *)
Record Input : Type := mkInput {
  prevTxId : txid;
  outputIndex : jsnum;
  sequenceNumber : jsnum;
  _script : option ref;
  _scriptBuffer : option bytes
}.

(** [new Input()]. *)
Definition Input_new : Input :=
  mkInput TxidUndefined Undefined Undefined None None.

(** The getter of [script]: the cached object, or a new one made of
    [_scriptBuffer] and cached. *)
Definition Input_script (h : heap) (this : Input)
  : result (ref * heap * Input) :=
  match _script this with
  | Some r => Ok (r, h, this)
  | None =>
      s <- match _scriptBuffer this with
           | Some b => fromBuffer b
           | None => Ok []
           end ;;
      let r := List.length h in
      Ok (r, h ++ [s],
          mkInput (prevTxId this) (outputIndex this) (sequenceNumber this)
                  (Some r) (_scriptBuffer this))
  end.

(** The argument of [setScript]: a Script object, a Buffer, something else. *)
Inductive setScript_arg : Type :=
| ArgScript (r : ref)
| ArgBuffer (b : bytes)
| ArgOther.

Definition setScript (script : setScript_arg) (h : heap) (this : Input)
  : result Input :=
  match script with
  | ArgScript r =>
      Ok (mkInput (prevTxId this) (outputIndex this) (sequenceNumber this)
                  (Some r) (Some (toBuffer (chunks_at h r))))
  | ArgBuffer b =>
      Ok (mkInput (prevTxId this) (outputIndex this) (sequenceNumber this)
                  None (Some b))
  | ArgOther => Throw TypeError
  end.

(** The object [toObject] returns. *)
Record InputObject : Type := mkInputObject {
  obj_prevTxId : string;
  obj_outputIndex : jsnum;
  obj_sequenceNumber : jsnum;
  obj_script : string
}.

(** [toObject] reads [this._script], not the getter: a method call on an
    absent or null property throws a TypeError.  [toString('hex')] of a
    string is the string. *)
Definition toObject (h : heap) (this : Input) : result InputObject :=
  txid <- match prevTxId this with
          | TxidBuffer b => Ok (hex_of_bytes b)
          | TxidString str => Ok str
          | TxidUndefined => Throw TypeError
          end ;;
  str <- match _script this with
         | Some r => toString (chunks_at h r)
         | None => Throw TypeError
         end ;;
  Ok (mkInputObject txid (outputIndex this) (sequenceNumber this) str).

Definition fromBufferReader (br : bytes) : result (Input * bytes) :=
  '(txid, br) <- readReverse 32 br ;;
  '(index, br) <- BufferReader.readUInt32LE br ;;
  '(scriptSize, br) <- readVarintNum br ;;
  '(scriptBuffer, br) <- (if scriptSize =? 0 then Ok ([], br)
                          else BufferReader.read strict_read scriptSize br) ;;
  '(sequence, br) <- BufferReader.readUInt32LE br ;;
  Ok (mkInput (TxidBuffer txid) (Num index) (Num sequence) None
               (Some scriptBuffer),
      br).

(** [toBufferWriter] on a new writer, by the bytes written.  What the
    writer's [writeReverse] does with a [prevTxId] that is no Buffer is not in
    the sources: it is the argument [writeReverse_other].  [script.length] of
    an absent [_scriptBuffer] throws a TypeError. *)
Definition toBufferWriter (writeReverse_other : txid -> result bytes)
    (this : Input) : result bytes :=
  reversed <- match prevTxId this with
              | TxidBuffer b => Ok (writeReverse b)
              | other => writeReverse_other other
              end ;;
  match _scriptBuffer this with
  | Some script =>
      Ok (reversed ++
          BufferWriter.writeUInt32LE (outputIndex this) ++
          writeVarintNum (blen script) ++
          script ++
          BufferWriter.writeUInt32LE (sequenceNumber this))
  | None => Throw TypeError
  end.

(** The object [new Input(params)] is given, by the properties [_fromObject]
    reads; for [script] and [scriptBuffer], [None] is a falsy value. *)
Record InputParams : Type := mkParams {
  params_prevTxId : txid;
  params_outputIndex : jsnum;
  params_sequenceNumber : jsnum;
  params_script : option setScript_arg;
  params_scriptBuffer : option setScript_arg
}.

Definition _fromObject (params : InputParams) (h : heap) (this : Input)
  : result Input :=
  prevTxId' <- match params_prevTxId params with
               | TxidString str =>
                   if isHexa str then
                     b <- Buffer_from_hex str ;; Ok (TxidBuffer b)
                   else Ok (TxidString str)
               | other => Ok other
               end ;;
  let this := mkInput prevTxId' (params_outputIndex params)
                      (params_sequenceNumber params)
                      (_script this) (_scriptBuffer this) in
  match params_script params, params_scriptBuffer params with
  | Some script, _ => setScript script h this
  | None, Some scriptBuffer => setScript scriptBuffer h this
  | None, None => Ok this
  end.

(** The object [fromJSON] works on, parsed from JSON text when it was given
    text, by the properties it reads: strings and numbers, or absent. *)
Record InputJSON : Type := mkJSON {
  json_prevTxId : option string;
  json_txidbuf : option string;
  json_outputIndex : jsnum;
  json_txoutnum : jsnum;
  json_sequenceNumber : jsnum;
  json_seqnum : jsnum;
  json_script : option string
}.

(** [a || b]: the empty string, 0, NaN and undefined are falsy. *)
Definition string_or (a b : option string) : option string :=
  match a with
  | Some (String _ _) => a
  | _ => b
  end.

Definition number_or (a b : jsnum) : jsnum :=
  match a with
  | Num z => if z =? 0 then b else a
  | _ => b
  end.

(** [fromJSON]: [new Script(json.script, 'hex')] makes a new Script object,
    from the string by [Script.fromString], and the Input is made of it. *)
Definition fromJSON (json : InputJSON) (h : heap) : result (Input * heap) :=
  s <- match json_script json with
       | Some str => fromString str
       | None => Ok []
       end ;;
  let r := List.length h in
  let h := h ++ [s] in
  let params :=
    mkParams (match string_or (json_prevTxId json) (json_txidbuf json) with
              | Some str => TxidString str
              | None => TxidUndefined
              end)
             (match json_outputIndex json with
              | Undefined => json_txoutnum json
              | other => other
              end)
             (number_or (json_sequenceNumber json) (json_seqnum json))
             None
             (Some (ArgScript r)) in
  this <- _fromObject params h Input_new ;;
  Ok (this, h).


(** The object [toObject] returns, as [fromJSON] reads it: the properties
    [txidbuf], [txoutnum] and [seqnum] are absent. *)
Definition json_of (obj : InputObject) : InputJSON :=
  mkJSON (Some (obj_prevTxId obj)) None (obj_outputIndex obj) Undefined
         (obj_sequenceNumber obj) Undefined (Some (obj_script obj)).


(** A chunk whose text [fromString] reads back as it is: a bare opcode, or a
    push whose declared length is a number from 0 on and whose opcode is
    that length, in 1..75, or one of OP_PUSHDATA1, OP_PUSHDATA2,
    OP_PUSHDATA4. *)
Definition text_chunk (c : item) : Prop :=
  (exists op, c = bare op) \/
  (exists op l b, c = push (Num op) (Num l) b /\ 0 <= l /\
     ((0 < op < Opcode.OP_PUSHDATA1 /\ l = op) \/
      is_pushdata (Num op) = true)).


(** * Properties *)

#[local] Arguments Z.mul : simpl never.
#[local] Arguments Z.add : simpl never.
#[local] Arguments Z.div : simpl never.
#[local] Arguments Z.sub : simpl never.

(** ** Bytes and the reader/writer pair *)

Lemma byte_to_Z_range (b : byte) : 0 <= byte_to_Z b < 256.
Proof.
  unfold byte_to_Z. pose proof (Byte.to_N_bounded b). lia.
Qed.

Lemma byte_of_to_Z (b : byte) : byte_of_Z (byte_to_Z b) = b.
Proof.
  unfold byte_of_Z. pose proof (byte_to_Z_range b) as Hr.
  rewrite Z.mod_small by exact Hr.
  unfold byte_to_Z. rewrite N2Z.id, Byte.of_to_N. reflexivity.
Qed.

Lemma byte_of_Z_low (b : byte) (k : Z) : byte_of_Z (byte_to_Z b + 256 * k) = b.
Proof.
  unfold byte_of_Z.
  replace ((byte_to_Z b + 256 * k) mod 256) with (byte_to_Z b mod 256).
  - apply byte_of_to_Z.
  - rewrite Z.mul_comm, Z.mod_add by lia. reflexivity.
Qed.

Lemma div256_high (b : byte) (k : Z) : (byte_to_Z b + 256 * k) / 256 = k.
Proof.
  pose proof (byte_to_Z_range b). Z.div_mod_to_equations. lia.
Qed.

Lemma read_split (strict : bool) (n : Z) (br b rest : bytes) :
  BufferReader.read strict n br = Ok (b, rest) -> b ++ rest = br.
Proof.
  unfold BufferReader.read. destruct ((blen br <? n) && strict); [discriminate|].
  intros H. injection H as <- <-. apply firstn_skipn.
Qed.

Lemma toBuffer_app (s1 s2 : Script) : toBuffer (s1 ++ s2) = toBuffer s1 ++ toBuffer s2.
Proof. unfold toBuffer. apply flat_map_app. Qed.

Lemma toBuffer_snoc (s : Script) (c : item) :
  toBuffer (s ++ [c]) = toBuffer s ++ chunk_toBuffer c.
Proof.
  rewrite toBuffer_app. unfold toBuffer at 2. simpl. rewrite app_nil_r. reflexivity.
Qed.

(** The bytes of a chunk made by the parser are the bytes it was read from,
    and its payload is shorter than what was read. *)
Lemma fromBuffer_step_sound (br : bytes) (c : item) (rest : bytes) :
  fromBuffer_step br = Ok (c, rest) ->
  chunk_toBuffer c ++ rest = br /\
  (forall b, item_buf c = Some b ->
             (List.length b < List.length (chunk_toBuffer c))%nat).
Proof.
  unfold fromBuffer_step.
  destruct br as [|b0 br]; simpl; [discriminate|].
  destruct ((0 <? byte_to_Z b0) && (byte_to_Z b0 <? Opcode.OP_PUSHDATA1)) eqn:Hd.
  { destruct (BufferReader.read strict_read (byte_to_Z b0) br) as [[b r]|] eqn:Hr;
      simpl; [|discriminate].
    intros H. injection H as <- <-.
    apply read_split in Hr. subst br.
    apply andb_prop in Hd. destruct Hd as [_ Hlt].
    unfold chunk_toBuffer, BufferWriter.writeUInt8. simpl.
    rewrite Hlt, byte_of_to_Z. split; [reflexivity|].
    intros b' Hb. injection Hb as <-. simpl. lia. }
  destruct (byte_to_Z b0 =? Opcode.OP_PUSHDATA1) eqn:H1.
  { apply Z.eqb_eq in H1.
    destruct br as [|b1 br]; simpl; [discriminate|].
    destruct (BufferReader.read strict_read (byte_to_Z b1) br) as [[b r]|] eqn:Hr;
      simpl; [|discriminate].
    intros H. injection H as <- <-.
    apply read_split in Hr. subst br.
    unfold chunk_toBuffer, BufferWriter.writeUInt8. simpl.
    rewrite !byte_of_to_Z, H1. split; [reflexivity|].
    intros b' Hb. injection Hb as <-. simpl. lia. }
  destruct (byte_to_Z b0 =? Opcode.OP_PUSHDATA2) eqn:H2.
  { apply Z.eqb_eq in H2.
    destruct br as [|b1 [|b2 br]]; simpl; try discriminate.
    destruct (BufferReader.read strict_read (byte_to_Z b1 + 256 * byte_to_Z b2) br)
      as [[b r]|] eqn:Hr; simpl; [|discriminate].
    intros H. injection H as <- <-.
    apply read_split in Hr. subst br.
    unfold chunk_toBuffer, BufferWriter.writeUInt8, BufferWriter.writeUInt16LE.
    simpl. rewrite byte_of_Z_low, div256_high, !byte_of_to_Z, H2.
    split; [reflexivity|].
    intros b' Hb. injection Hb as <-. simpl. lia. }
  destruct (byte_to_Z b0 =? Opcode.OP_PUSHDATA4) eqn:H4.
  { apply Z.eqb_eq in H4.
    destruct br as [|b1 [|b2 [|b3 [|b4 br]]]]; simpl; try discriminate.
    set (n := byte_to_Z b1 + 256 * byte_to_Z b2 + 65536 * byte_to_Z b3
              + 16777216 * byte_to_Z b4).
    destruct (BufferReader.read strict_read n br) as [[b r]|] eqn:Hr;
      simpl; [|discriminate].
    intros H. injection H as <- <-.
    apply read_split in Hr. subst br.
    assert (E0 : n = byte_to_Z b1 + 256 *
              (byte_to_Z b2 + 256 * (byte_to_Z b3 + 256 * byte_to_Z b4)))
      by (unfold n; ring).
    assert (E1 : n / 256 = byte_to_Z b2 + 256 * (byte_to_Z b3 + 256 * byte_to_Z b4))
      by (rewrite E0; apply div256_high).
    assert (E2 : n / 65536 = byte_to_Z b3 + 256 * byte_to_Z b4).
    { change 65536 with (256 * 256). rewrite <- Z.div_div by lia.
      rewrite E1. apply div256_high. }
    assert (E3 : n / 16777216 = byte_to_Z b4).
    { change 16777216 with (65536 * 256). rewrite <- Z.div_div by lia.
      rewrite E2. pose proof (byte_to_Z_range b3).
      pose proof (byte_to_Z_range b4). Z.div_mod_to_equations. lia. }
    unfold chunk_toBuffer, BufferWriter.writeUInt8, BufferWriter.writeUInt32LE.
    simpl. clearbody n. rewrite E3, E2, E1, E0.
    rewrite !byte_of_Z_low, !byte_of_to_Z, H4. split; [reflexivity|].
    intros b' Hb. injection Hb as <-. simpl. lia. }
  intros H. injection H as <- <-.
  unfold chunk_toBuffer, BufferWriter.writeUInt8. simpl.
  rewrite byte_of_to_Z. split; [reflexivity|]. discriminate.
Qed.

Lemma chunk_toBuffer_nonempty (c : item) : (0 < List.length (chunk_toBuffer c))%nat.
Proof. unfold chunk_toBuffer, BufferWriter.writeUInt8. simpl. lia. Qed.

Lemma fromBuffer_loop_sound (fuel : nat) :
  forall (br : bytes) (acc s : Script),
    fromBuffer_loop fuel br acc = Ok s ->
    exists news, s = acc ++ news /\ toBuffer news = br /\
      Forall (fun c => forall b, item_buf c = Some b ->
                (List.length b < List.length br)%nat) news.
Proof.
  induction fuel as [|fuel IH]; intros br acc s; simpl.
  - destruct br; simpl; [|discriminate].
    intros H. injection H as <-. exists []. now rewrite app_nil_r.
  - destruct br as [|b0 br].
    { simpl. intros H. injection H as <-. exists []. now rewrite app_nil_r. }
    cbn [BufferReader.eof].
    destruct (fromBuffer_step (b0 :: br)) as [[c rest]|] eqn:Hs; simpl; [|discriminate].
    intros H. apply IH in H. destruct H as (news & -> & Hb & Hall).
    apply fromBuffer_step_sound in Hs. destruct Hs as [Hc Hlen].
    pose proof (chunk_toBuffer_nonempty c) as Hne.
    assert (Hl : List.length (b0 :: br)
                 = (List.length (chunk_toBuffer c) + List.length rest)%nat)
      by (rewrite <- Hc, length_app; reflexivity).
    cbn [List.length] in Hl.
    exists (c :: news). rewrite <- app_assoc. split; [reflexivity|]. split.
    + change (toBuffer (c :: news)) with (chunk_toBuffer c ++ toBuffer news).
      now rewrite Hb.
    + constructor.
      * intros b Hbuf. specialize (Hlen b Hbuf). simpl. lia.
      * eapply Forall_impl; [|exact Hall]. simpl. intros a Ha b Hbuf.
        specialize (Ha b Hbuf). lia.
Qed.

Lemma fromBuffer_step_error (br : bytes) (e : error) :
  fromBuffer_step br = Throw e -> e = Truncated.
Proof.
  unfold fromBuffer_step, BufferReader.read.
  destruct br as [|b0 br]; simpl; [congruence|].
  destruct ((0 <? byte_to_Z b0) && (byte_to_Z b0 <? Opcode.OP_PUSHDATA1)).
  { destruct ((blen br <? _) && strict_read); simpl; congruence. }
  destruct (byte_to_Z b0 =? Opcode.OP_PUSHDATA1).
  { destruct br as [|b1 br]; simpl; [congruence|].
    destruct ((blen br <? _) && strict_read); simpl; congruence. }
  destruct (byte_to_Z b0 =? Opcode.OP_PUSHDATA2).
  { destruct br as [|b1 [|b2 br]]; simpl; try congruence.
    destruct ((blen br <? _) && strict_read); simpl; congruence. }
  destruct (byte_to_Z b0 =? Opcode.OP_PUSHDATA4).
  { destruct br as [|b1 [|b2 [|b3 [|b4 br]]]]; simpl; try congruence.
    destruct ((blen br <? _) && strict_read); simpl; congruence. }
  congruence.
Qed.

Lemma fromBuffer_loop_fuel (fuel : nat) :
  forall (br : bytes) (acc : Script),
    (List.length br <= fuel)%nat -> fromBuffer_loop fuel br acc <> Throw OutOfFuel.
Proof.
  induction fuel as [|fuel IH]; intros br acc Hle; simpl.
  - destruct br; simpl in *; [discriminate|lia].
  - destruct br as [|b0 br]; [discriminate|]. cbn [BufferReader.eof].
    destruct (fromBuffer_step (b0 :: br)) as [[c rest]|e] eqn:Hs; simpl.
    + apply IH. apply fromBuffer_step_sound in Hs. destruct Hs as [Hc _].
      pose proof (chunk_toBuffer_nonempty c).
      assert (List.length (b0 :: br)
              = (List.length (chunk_toBuffer c) + List.length rest)%nat)
        by (rewrite <- Hc, length_app; reflexivity).
      cbn [List.length] in *. lia.
    + apply fromBuffer_step_error in Hs. subst e. discriminate.
Qed.

(** The parser is total: with the fuel [fromBuffer] gives it, the loop ends
    by itself, with a script or with Truncated. *)
Lemma fromBuffer_total (b : bytes) :
  (exists s, fromBuffer b = Ok s) \/ fromBuffer b = Throw Truncated.
Proof.
  unfold fromBuffer.
  assert (G : forall fuel br acc, (List.length br <= fuel)%nat ->
            (exists s, fromBuffer_loop fuel br acc = Ok s) \/
            fromBuffer_loop fuel br acc = Throw Truncated).
  { induction fuel as [|fuel IH]; intros br acc Hle.
    - destruct br; simpl in *; [left; eauto|lia].
    - destruct br as [|b0 br]; [left; simpl; eauto|].
      cbn [fromBuffer_loop BufferReader.eof].
      destruct (fromBuffer_step (b0 :: br)) as [[c rest]|e] eqn:Hs; simpl.
      + apply IH. apply fromBuffer_step_sound in Hs. destruct Hs as [Hc _].
        pose proof (chunk_toBuffer_nonempty c).
        assert (List.length (b0 :: br)
                = (List.length (chunk_toBuffer c) + List.length rest)%nat)
          by (rewrite <- Hc, length_app; reflexivity).
        cbn [List.length] in *. lia.
      + apply fromBuffer_step_error in Hs. subst e. now right. }
  apply G. lia.
Qed.

(** ** C1: parser/serializer round trip *)

(** C1. For every byte sequence [b] that [fromBuffer] parses without error,
    [toBuffer] of the parsed chunks is exactly [b]; the declared length of a
    push, minimal or not, is written back as it was read. *)
Theorem C1_fromBuffer_toBuffer_roundtrip (b : bytes) (s : Script) :
  fromBuffer b = Ok s -> toBuffer s = b.
Proof.
  unfold fromBuffer. intros H.
  apply fromBuffer_loop_sound in H. destruct H as (news & -> & Hb & _).
  exact Hb.
Qed.



(** ** The classifier is total *)

Lemma classify_loop_identifiers (rec : Script -> result stype) (this : Script) :
  classify_loop (identifiers rec) this =
  if isPublicKeyOut this then Ok PUBKEY_OUT
  else if isPublicKeyIn this then Ok PUBKEY_IN
  else if isPublicKeyHashOut this then Ok PUBKEYHASH_OUT
  else if isPublicKeyHashIn this then Ok PUBKEYHASH_IN
  else if isMultisigOut this then Ok MULTISIG_OUT
  else if isMultisigIn this then Ok MULTISIG_IN
  else if isScriptHashOut this then Ok SCRIPTHASH_OUT
  else b <- isScriptHashIn_with rec this ;;
       if b then Ok SCRIPTHASH_IN
       else if isDataOut this then Ok DATA_OUT else Ok UNKNOWN.
Proof.
  unfold identifiers. simpl.
  destruct (isPublicKeyOut this), (isPublicKeyIn this),
    (isPublicKeyHashOut this), (isPublicKeyHashIn this),
    (isMultisigOut this), (isMultisigIn this), (isScriptHashOut this);
    reflexivity.
Qed.

Lemma nesting_bound_parsed (b : bytes) (s : Script) :
  fromBuffer b = Ok s -> (nesting_bound s <= List.length b)%nat.
Proof.
  unfold fromBuffer. intros H.
  apply fromBuffer_loop_sound in H. destruct H as (news & -> & _ & Hall).
  simpl. unfold nesting_bound.
  destruct (nth_error news (List.length news - 1)) as [c|] eqn:Hn; [|lia].
  destruct (item_buf c) as [b'|] eqn:Hb; [|lia].
  apply nth_error_In in Hn. rewrite Forall_forall in Hall.
  specialize (Hall c Hn b' Hb). lia.
Qed.

Lemma isScriptHashIn_with_stable (r1 r2 : Script -> result stype) (n : nat)
    (this : Script) :
  (forall s, (S (nesting_bound s) <= n)%nat -> r1 s = r2 s) ->
  (nesting_bound this <= n)%nat ->
  isScriptHashIn_with r1 this = isScriptHashIn_with r2 this.
Proof.
  intros Hr Hn. unfold isScriptHashIn_with. unfold nesting_bound in Hn.
  destruct (List.length this =? 0)%nat; [reflexivity|].
  destruct (nth_error this (List.length this - 1)) as [c|]; [|reflexivity].
  destruct (item_buf c) as [b|]; [|reflexivity].
  destruct (fromBuffer b) as [s|e] eqn:Hp; [|reflexivity]. simpl.
  apply nesting_bound_parsed in Hp. rewrite Hr by lia. reflexivity.
Qed.

(** Any fuel from [nesting_bound] on gives the same result. *)
Lemma classify_at_stable (n : nat) :
  forall (m : nat) (this : Script),
    (nesting_bound this <= n)%nat -> (nesting_bound this <= m)%nat ->
    classify_at n this = classify_at m this.
Proof.
  induction n as [|n IH]; intros m this Hn Hm.
  - destruct m as [|m]; [reflexivity|].
    cbn [classify_at]. rewrite !classify_loop_identifiers.
    rewrite (isScriptHashIn_with_stable _ (classify_at m) 0 this);
      [reflexivity| |exact Hn].
    intros s Hs. lia.
  - destruct m as [|m].
    + cbn [classify_at]. rewrite !classify_loop_identifiers.
      rewrite (isScriptHashIn_with_stable _ (fun _ => Throw OutOfFuel) 0 this);
        [reflexivity| |exact Hm].
      intros s Hs. lia.
    + cbn [classify_at]. rewrite !classify_loop_identifiers.
      rewrite (isScriptHashIn_with_stable _ (classify_at m)
                 (Nat.min (S n) (S m)) this); [reflexivity| |lia].
      intros s Hs. apply IH; lia.
Qed.

(** With that fuel the nested calls never run out: [classify] returns a tag
    or fails with the parser's Truncated. *)
Lemma classify_at_result (n : nat) :
  forall (this : Script), (nesting_bound this <= n)%nat ->
    (exists t, classify_at n this = Ok t) \/ classify_at n this = Throw Truncated.
Proof.
  induction n as [|n IH]; intros this Hn; cbn [classify_at];
    rewrite classify_loop_identifiers.
  all: destruct (isPublicKeyOut this); [left; eauto|].
  all: destruct (isPublicKeyIn this); [left; eauto|].
  all: destruct (isPublicKeyHashOut this); [left; eauto|].
  all: destruct (isPublicKeyHashIn this); [left; eauto|].
  all: destruct (isMultisigOut this); [left; eauto|].
  all: destruct (isMultisigIn this); [left; eauto|].
  all: destruct (isScriptHashOut this); [left; eauto|].
  all: unfold isScriptHashIn_with; unfold nesting_bound in Hn.
  all: destruct (List.length this =? 0)%nat;
    [simpl; destruct (isDataOut this); left; eauto|].
  all: destruct (nth_error this (List.length this - 1)) as [c|];
    [|simpl; destruct (isDataOut this); left; eauto].
  all: destruct (item_buf c) as [b|];
    [|simpl; destruct (isDataOut this); left; eauto].
  - lia.
  - destruct (fromBuffer_total b) as [[s Hs]| ->]; [|now right].
    rewrite Hs. simpl. apply nesting_bound_parsed in Hs.
    destruct (IH s) as [[t Ht]| Ht]; [lia| |rewrite Ht; now right].
    rewrite Ht. simpl.
    destruct (negb (stype_eqb t UNKNOWN)); [left; eauto|].
    destruct (isDataOut this); left; eauto.
Qed.

Lemma classify_total (this : Script) :
  (exists t, classify this = Ok t) \/ classify this = Throw Truncated.
Proof. apply classify_at_result. lia. Qed.

(** [classify] unfolds to the chain of tests of the source, the nested call
    being [classify] itself. *)
Lemma classify_unfold (this : Script) :
  classify this =
  if isPublicKeyOut this then Ok PUBKEY_OUT
  else if isPublicKeyIn this then Ok PUBKEY_IN
  else if isPublicKeyHashOut this then Ok PUBKEYHASH_OUT
  else if isPublicKeyHashIn this then Ok PUBKEYHASH_IN
  else if isMultisigOut this then Ok MULTISIG_OUT
  else if isMultisigIn this then Ok MULTISIG_IN
  else if isScriptHashOut this then Ok SCRIPTHASH_OUT
  else b <- isScriptHashIn this ;;
       if b then Ok SCRIPTHASH_IN
       else if isDataOut this then Ok DATA_OUT else Ok UNKNOWN.
Proof.
  unfold classify, isScriptHashIn.
  destruct (nesting_bound this) as [|n] eqn:Hn; cbn [classify_at];
    rewrite classify_loop_identifiers.
  - rewrite (isScriptHashIn_with_stable _ classify 0 this); [reflexivity| |lia].
    intros s Hs. lia.
  - rewrite (isScriptHashIn_with_stable _ classify (S n) this);
      [reflexivity| |lia].
    intros s Hs. unfold classify. apply classify_at_stable; lia.
Qed.


(** ** C3, C9: pay-to-public-key-hash outputs *)

Lemma isPublicKeyHashOut_classify (this : Script) :
  isPublicKeyHashOut this = true <-> classify this = Ok PUBKEYHASH_OUT.
Proof.
  rewrite classify_unfold. split.
  - intros H. rewrite H.
    assert (L : (List.length this =? 5)%nat = true).
    { unfold isPublicKeyHashOut in H.
      repeat (apply andb_prop in H; destruct H as [H _]). exact H. }
    apply Nat.eqb_eq in L.
    unfold isPublicKeyOut, isPublicKeyIn. rewrite L. reflexivity.
  - destruct (isPublicKeyOut this); [discriminate|].
    destruct (isPublicKeyIn this); [discriminate|].
    destruct (isPublicKeyHashOut this); [reflexivity|].
    destruct (isPublicKeyHashIn this); [discriminate|].
    destruct (isMultisigOut this); [discriminate|].
    destruct (isMultisigIn this); [discriminate|].
    destruct (isScriptHashOut this); [discriminate|].
    destruct (isScriptHashIn this) as [[|]|]; simpl; try discriminate.
    destruct (isDataOut this); discriminate.
Qed.

(** C3 (the code at the failing input).  The script [76 a9 01 00 88 ac] is
    OP_DUP, OP_HASH160, a push of the single byte 00, OP_EQUALVERIFY,
    OP_CHECKSIG: its third payload is 1 byte long, not 20, and [classify]
    returns PUBKEYHASH_OUT all the same, because [isPublicKeyHashOut] tests
    only that the third chunk has a payload. *)
Theorem C3_pubkeyhash_out_accepts_short_payload :
  fromBuffer [x76; xa9; x01; x00; x88; xac]
  = Ok [bare (Num 118); bare (Num 169); push (Num 1) (Num 1) [x00];
        bare (Num 136); bare (Num 172)] /\
  classify [bare (Num 118); bare (Num 169); push (Num 1) (Num 1) [x00];
            bare (Num 136); bare (Num 172)] = Ok PUBKEYHASH_OUT /\
  isScriptHashOut [bare (Num 169); push (Num 1) (Num 1) [x00]; bare (Num 135)]
  = false.
Proof.
  split; [reflexivity|]. split; [|reflexivity].
  apply isPublicKeyHashOut_classify. reflexivity.
Qed.

(** [getPublicKeyHash] fails, with PreconditionFailed and with nothing
    else, exactly when the script is not classified PUBKEYHASH_OUT; on a
    PUBKEYHASH_OUT it returns the payload of the third chunk, of whatever
    length, and the script is the same after the call.  For the output
    script built for a 20-byte public-key hash, that payload is the hash. *)
Lemma getPublicKeyHash_third_payload (this : Script) :
  (getPublicKeyHash this = Throw PreconditionFailed <->
   classify this <> Ok PUBKEYHASH_OUT) /\
  (forall e, getPublicKeyHash this = Throw e -> e = PreconditionFailed) /\
  (classify this = Ok PUBKEYHASH_OUT ->
   exists c0 c1 c2 c3 c4 payload,
     this = [c0; c1; c2; c3; c4] /\ item_buf c2 = Some payload /\
     getPublicKeyHash this = Ok (Some payload, this)) /\
  (forall hash, blen hash = 20 ->
     exists s, buildPublicKeyHashOut hash = Ok s /\
       classify s = Ok PUBKEYHASH_OUT /\
       getPublicKeyHash s = Ok (Some hash, s)).
Proof.
  unfold getPublicKeyHash. split; [|split; [|split]].
  - rewrite <- isPublicKeyHashOut_classify.
    destruct (isPublicKeyHashOut this); split; congruence.
  - intros e. destruct (isPublicKeyHashOut this); congruence.
  - intros H. apply isPublicKeyHashOut_classify in H. rewrite H.
    unfold isPublicKeyHashOut in H.
    repeat (apply andb_prop in H; let H' := fresh "H" in destruct H as [H H']).
    apply Nat.eqb_eq in H.
    destruct this as [|c0 [|c1 [|c2 [|c3 [|c4 [|]]]]]]; try discriminate.
    unfold buf_at in *. simpl in *.
    destruct (item_buf c2) as [payload|] eqn:Hb; [|discriminate].
    exists c0, c1, c2, c3, c4, payload. auto.
  - intros hash Hlen.
    exists [bare (Num Opcode.OP_DUP); bare (Num Opcode.OP_HASH160);
            push (Num 20) (Num 20) hash; bare (Num Opcode.OP_EQUALVERIFY);
            bare (Num Opcode.OP_CHECKSIG)].
    split; [|split; [apply isPublicKeyHashOut_classify|]; reflexivity].
    unfold buildPublicKeyHashOut, add, _addByType.
    cbn [_addByType_branch typeof jstype_eqb constructor_is_Opcode isBuffer
         bind buffer_of _addOpcode _insertAtPosition app].
    unfold _addBuffer. rewrite Hlen. reflexivity.
Qed.

(** C9 (the code at the failing input).  On the script [76 a9 01 00 88 ac],
    OP_DUP, OP_HASH160, a push of the single byte 00, OP_EQUALVERIFY,
    OP_CHECKSIG, which [classify] takes for a PUBKEYHASH_OUT,
    [getPublicKeyHash] does not fail: it returns the payload of the third
    chunk, one byte long, which is no 20-byte public-key hash.  The defect is
    that of C3: [isPublicKeyHashOut] does not test the length of the
    payload. *)
Theorem C9_getPublicKeyHash_returns_short_payload :
  fromBuffer [x76; xa9; x01; x00; x88; xac]
  = Ok [bare (Num 118); bare (Num 169); push (Num 1) (Num 1) [x00];
        bare (Num 136); bare (Num 172)] /\
  classify [bare (Num 118); bare (Num 169); push (Num 1) (Num 1) [x00];
            bare (Num 136); bare (Num 172)] = Ok PUBKEYHASH_OUT /\
  getPublicKeyHash [bare (Num 118); bare (Num 169);
                    push (Num 1) (Num 1) [x00];
                    bare (Num 136); bare (Num 172)]
  = Ok (Some [x00],
        [bare (Num 118); bare (Num 169); push (Num 1) (Num 1) [x00];
         bare (Num 136); bare (Num 172)]) /\
  blen [x00] = 1 /\ blen [x00] <> 20.
Proof.
  split; [reflexivity|]. split; [|split; [reflexivity|]].
  - apply isPublicKeyHashOut_classify. reflexivity.
  - split; [reflexivity|discriminate].
Qed.


(** ** C4: the order of the identifiers *)

Lemma first_match_prefix (order : list stype) (this : Script) (t : stype) :
  t <> UNKNOWN ->
  (first_match order this = Ok t <->
   exists pre post, order = pre ++ t :: post /\
     identifier t this = Ok true /\
     forall t', In t' pre -> identifier t' this = Ok false).
Proof.
  intros Ht. induction order as [|a order IH]; cbn [first_match].
  - split.
    + intros H. congruence.
    + intros (pre & post & E & _). destruct pre; discriminate.
  - split.
    + destruct (identifier a this) as [[|]|] eqn:Ha; simpl; intros H.
      * injection H as ->. exists [], order. simpl. intuition.
      * apply IH in H. destruct H as (pre & post & -> & Hm & Hpre).
        exists (a :: pre), post. simpl. intuition. now subst.
      * discriminate.
    + intros (pre & post & E & Hm & Hpre). destruct pre as [|a' pre].
      * simpl in E. injection E as -> ->. rewrite Hm. reflexivity.
      * simpl in E. injection E as Ea Eo. subst a' order.
        rewrite (Hpre a) by (now left). simpl.
        apply IH. exists pre, post. split; [reflexivity|]. split; [exact Hm|].
        intros t' Ht'. apply Hpre. now right.
Qed.

Lemma classify_first_match (this : Script) :
  classify this = first_match identifiers_order this.
Proof.
  rewrite classify_unfold. unfold identifiers_order, first_match, identifier.
  simpl.
  destruct (isPublicKeyOut this), (isPublicKeyIn this),
    (isPublicKeyHashOut this), (isPublicKeyHashIn this),
    (isMultisigOut this), (isMultisigIn this), (isScriptHashOut this);
    reflexivity.
Qed.

(** C4 (amended).  [classify] visits the identifiers in the order
    PUBKEY_OUT, PUBKEY_IN, PUBKEYHASH_OUT, PUBKEYHASH_IN, MULTISIG_OUT,
    MULTISIG_IN, SCRIPTHASH_OUT, SCRIPTHASH_IN, DATA_OUT and returns the tag
    of the first one that matches: it returns a tag [t] exactly when [t]
    matches and every tag before [t] in that order was evaluated and did not
    match.  When [PublicKey.isValid] accepts only payloads of 33 or 65 bytes,
    a script matching both PUBKEYHASH_IN and SCRIPTHASH_IN is classified
    PUBKEYHASH_IN. *)
Theorem C4_classify_first_match_in_code_order (this : Script) :
  classify this = first_match identifiers_order this /\
  (forall t, t <> UNKNOWN ->
     (classify this = Ok t <->
      exists pre post, identifiers_order = pre ++ t :: post /\
        identifier t this = Ok true /\
        forall t', In t' pre -> identifier t' this = Ok false)) /\
  ((forall b, PublicKey_isValid b = true ->
              buf_length b = 33 \/ buf_length b = 65) ->
   identifier PUBKEYHASH_IN this = Ok true ->
   identifier SCRIPTHASH_IN this = Ok true ->
   classify this = Ok PUBKEYHASH_IN).
Proof.
  split; [apply classify_first_match|]. split.
  - intros t Ht. rewrite classify_first_match. now apply first_match_prefix.
  - intros Hvalid Hin _. rewrite classify_unfold.
    simpl in Hin. injection Hin as Hin. rewrite Hin.
    unfold isPublicKeyHashIn in Hin.
    repeat (apply andb_prop in Hin; let H' := fresh "H" in destruct Hin as [Hin H']).
    apply Nat.eqb_eq in Hin.
    assert (E1 : isPublicKeyOut this = false).
    { unfold isPublicKeyOut.
      destruct (PublicKey_isValid (buf_at this 0)) eqn:Hv.
      - apply Hvalid in Hv. lia.
      - now rewrite andb_false_r. }
    assert (E2 : isPublicKeyIn this = false)
      by (unfold isPublicKeyIn; rewrite Hin; reflexivity).
    assert (E3 : isPublicKeyHashOut this = false)
      by (unfold isPublicKeyHashOut; rewrite Hin; reflexivity).
    rewrite E1, E2, E3. reflexivity.
Qed.


(** ** C5: the push opcode chosen by [_addBuffer] *)

(** C5. Appending or prepending a byte payload of length L: nothing changes
    when L = 0; otherwise one push chunk is inserted (at the end by [add], at
    the front by [prepend]) whose payload is the input, whose declared length
    is L and whose opcode is L when 0 < L < 0x4c, OP_PUSHDATA1 when
    L < 2^8, OP_PUSHDATA2 when L < 2^16, OP_PUSHDATA4 when L < 2^32; from
    2^32 on the call fails with PayloadTooLarge. *)
Theorem C5_add_payload_push_opcode (b : bytes) (this : Script) :
  let L := blen b in
  (L = 0 -> add (VBuffer b) this = Ok this /\
            prepend (VBuffer b) this = Ok this) /\
  (0 < L < 76 ->
     add (VBuffer b) this = Ok (this ++ [push (Num L) (Num L) b]) /\
     prepend (VBuffer b) this = Ok (push (Num L) (Num L) b :: this)) /\
  (76 <= L < 2 ^ 8 ->
     add (VBuffer b) this
     = Ok (this ++ [push (Num Opcode.OP_PUSHDATA1) (Num L) b]) /\
     prepend (VBuffer b) this
     = Ok (push (Num Opcode.OP_PUSHDATA1) (Num L) b :: this)) /\
  (2 ^ 8 <= L < 2 ^ 16 ->
     add (VBuffer b) this
     = Ok (this ++ [push (Num Opcode.OP_PUSHDATA2) (Num L) b]) /\
     prepend (VBuffer b) this
     = Ok (push (Num Opcode.OP_PUSHDATA2) (Num L) b :: this)) /\
  (2 ^ 16 <= L < 2 ^ 32 ->
     add (VBuffer b) this
     = Ok (this ++ [push (Num Opcode.OP_PUSHDATA4) (Num L) b]) /\
     prepend (VBuffer b) this
     = Ok (push (Num Opcode.OP_PUSHDATA4) (Num L) b :: this)) /\
  (2 ^ 32 <= L ->
     add (VBuffer b) this = Throw PayloadTooLarge /\
     prepend (VBuffer b) this = Throw PayloadTooLarge).
Proof.
  intros L. unfold add, prepend, _addByType. cbn [_addByType_branch typeof
    jstype_eqb constructor_is_Opcode isBuffer bind buffer_of].
  unfold _addBuffer. fold L. unfold Opcode.OP_PUSHDATA1.
  change (2 ^ 8) with 256. change (2 ^ 16) with 65536.
  change (2 ^ 32) with 4294967296.
  repeat match goal with |- _ /\ _ => split end.
  all: intros H.
  all: destruct (L =? 0) eqn:E0;
    [apply Z.eqb_eq in E0; try lia; try (split; reflexivity)|apply Z.eqb_neq in E0; try lia].
  all: destruct (0 <? L) eqn:E1; [|apply Z.ltb_ge in E1; unfold L, blen in *; lia].
  all: destruct (L <? 76) eqn:E2;
    [apply Z.ltb_lt in E2; try lia; try (split; reflexivity)|apply Z.ltb_ge in E2; try lia].
  all: cbn [andb].
  all: destruct (L <? 256) eqn:E3;
    [apply Z.ltb_lt in E3; try lia; try (split; reflexivity)|apply Z.ltb_ge in E3; try lia].
  all: destruct (L <? 65536) eqn:E4;
    [apply Z.ltb_lt in E4; try lia; try (split; reflexivity)|apply Z.ltb_ge in E4; try lia].
  all: destruct (L <? 4294967296) eqn:E5;
    [apply Z.ltb_lt in E5; try lia; try (split; reflexivity)|apply Z.ltb_ge in E5; try lia].
  all: split; reflexivity.
Qed.

(** ** C10: a Script object given to [add] or [prepend] *)





(** ** C6: data-carrier outputs *)

Lemma isDataOut_shape (this : Script) :
  isDataOut this = true <->
  num_eqb (opcodenum_at this 0) Opcode.OP_RETURN = true /\
  (List.length this = 1%nat \/
   (List.length this = 2%nat /\
    exists b, buf_at this 1 = Some b /\ blen b <= 40)).
Proof.
  unfold isDataOut, length_at, chunks_len, buf_at, opcodenum_at.
  destruct this as [|c0 [|c1 [|c2 this]]]; simpl.
  - split; [discriminate|]. intros [_ [H|[H _]]]; discriminate.
  - rewrite andb_true_r. split; [intros H; auto|tauto].
  - rewrite andb_true_r.
    destruct (num_eqb (item_opcodenum c0) Opcode.OP_RETURN); simpl;
      [|split; [discriminate|intros [H _]; discriminate]].
    destruct (item_buf c1) as [b|]; simpl.
    + rewrite Z.leb_le. split.
      * intros H. split; [reflexivity|]. right. split; [reflexivity|]. eauto.
      * intros [_ [H|[_ (b' & Hb & Hl)]]]; [discriminate|]. congruence.
    + split; [discriminate|].
      intros [_ [H|[_ (b' & Hb & _)]]]; discriminate.
  - rewrite andb_false_r. split; [discriminate|].
    intros [_ [H|[H _]]]; discriminate.
Qed.

Lemma buildDataOut_payload (d : bytes) :
  (exists s, buildDataOut (VBuffer d) = Ok s /\ isDataOut s = true) <->
  blen d <= 40.
Proof.
  unfold buildDataOut, add, _addByType.
  cbn [_addByType_branch typeof jstype_eqb constructor_is_Opcode isBuffer bind
       buffer_of _addOpcode _insertAtPosition app].
  unfold _addBuffer. unfold Opcode.OP_PUSHDATA1.
  change (2 ^ 8) with 256. change (2 ^ 16) with 65536.
  change (2 ^ 32) with 4294967296.
  assert (Hpos : 0 <= blen d) by (unfold blen; lia).
  destruct (blen d =? 0) eqn:E0.
  { apply Z.eqb_eq in E0. split; [lia|]. intros _. eexists. split; reflexivity. }
  apply Z.eqb_neq in E0.
  assert (Hshape : forall op,
            isDataOut [bare (Num Opcode.OP_RETURN); push (Num op) (Num (blen d)) d]
            = (blen d <=? 40)).
  { intros op. unfold isDataOut. simpl. now rewrite andb_true_r. }
  destruct (0 <? blen d) eqn:E1; [|apply Z.ltb_ge in E1; lia].
  destruct (blen d <? 76) eqn:E2; cbn [andb bind _insertAtPosition].
  { rewrite <- Z.leb_le, <- (Hshape (blen d)). split.
    - intros (s & Hs & Hd). injection Hs as <-. exact Hd.
    - intros Hd. eexists. split; [reflexivity|exact Hd]. }
  apply Z.ltb_ge in E2.
  split; [|lia]. intros (s & Hs & Hd). exfalso.
  destruct (blen d <? 256); [|destruct (blen d <? 65536);
    [|destruct (blen d <? 4294967296); [|discriminate]]].
  all: cbn [bind _insertAtPosition] in Hs; injection Hs as <-.
  all: rewrite (Hshape _) in Hd; apply Z.leb_le in Hd; lia.
Qed.

(** C6. [isDataOut] holds exactly when the first chunk is OP_RETURN and the
    script has one chunk, or two chunks the second of which is a push of at
    most 40 bytes; and [buildDataOut(data).isDataOut()] is true exactly when
    the payload (the bytes of [data], or the bytes of the string [data]) has
    at most 40 bytes. *)
Theorem C6_data_out_bound :
  (forall this : Script,
     isDataOut this = true <->
     num_eqb (opcodenum_at this 0) Opcode.OP_RETURN = true /\
     (List.length this = 1%nat \/
      (List.length this = 2%nat /\
       exists b, buf_at this 1 = Some b /\ blen b <= 40))) /\
  (forall d : bytes,
     (exists s, buildDataOut (VBuffer d) = Ok s /\ isDataOut s = true) <->
     blen d <= 40) /\
  (forall str : string,
     (exists s, buildDataOut (VString str) = Ok s /\ isDataOut s = true) <->
     blen (Buffer_from_string str) <= 40).
Proof.
  split; [exact isDataOut_shape|]. split; [exact buildDataOut_payload|].
  intros str. apply (buildDataOut_payload (Buffer_from_string str)).
Qed.

(** ** C2: equals *)

Lemma equals_loop_true (this script : Script) : equals_loop this script = true.
Proof.
  revert script. induction this as [|a this IH]; intros [|b script];
    try reflexivity.
  simpl. apply IH.
Qed.

(** C2 (the code at the failing input).  [equals] compares the elements of
    the chunk arrays as Buffers, as Opcode objects and by a property [num];
    chunk objects are none of these, so [equals] is true as soon as the two
    scripts have the same number of chunks.  The scripts OP_DUP and
    OP_HASH160, whose opcodes and serialized bytes differ, are equal for it. *)
Theorem C2_equals_compares_lengths_only :
  (forall this script : Script,
     equals this script = (List.length this =? List.length script)%nat) /\
  equals [bare (Num Opcode.OP_DUP)] [bare (Num Opcode.OP_HASH160)] = true /\
  fromBuffer [x76] = Ok [bare (Num Opcode.OP_DUP)] /\
  fromBuffer [xa9] = Ok [bare (Num Opcode.OP_HASH160)] /\
  toBuffer [bare (Num Opcode.OP_DUP)] <> toBuffer [bare (Num Opcode.OP_HASH160)].
Proof.
  split; [|repeat split; try reflexivity; discriminate].
  intros this script. unfold equals. rewrite equals_loop_true.
  destruct (List.length this =? List.length script)%nat; reflexivity.
Qed.


(** ** Hexadecimal digits *)

Lemma hex_pair_roundtrip (x : byte) :
  digit_value (hex_digit (Byte.to_N x / 16)) = Some (Byte.to_N x / 16)%N /\
  digit_value (hex_digit (Byte.to_N x mod 16)) = Some (Byte.to_N x mod 16)%N.
Proof. destruct x; split; reflexivity. Qed.

Lemma Buffer_from_hex_of_bytes (b : bytes) :
  Buffer_from_hex (hex_of_bytes b) = Ok b.
Proof.
  induction b as [|x b IH]; [reflexivity|].
  cbn [hex_of_bytes Buffer_from_hex].
  destruct (hex_pair_roundtrip x) as [-> ->]. rewrite IH. cbn [bind].
  do 2 f_equal.
  rewrite <- N.div_mod by discriminate. apply byte_of_to_Z.
Qed.

Lemma hex_of_bytes_inj (b1 b2 : bytes) :
  hex_of_bytes b1 = hex_of_bytes b2 -> b1 = b2.
Proof.
  intros H. apply (f_equal Buffer_from_hex) in H.
  rewrite !Buffer_from_hex_of_bytes in H. now injection H.
Qed.

(** ** The order on strings *)

Lemma N_of_ascii_inj (x y : ascii) : N_of_ascii x = N_of_ascii y -> x = y.
Proof.
  intros H. rewrite <- (ascii_N_embedding x), <- (ascii_N_embedding y).
  now rewrite H.
Qed.

Lemma string_ltb_asym (a : string) :
  forall b, string_ltb a b = true -> string_ltb b a = false.
Proof.
  induction a as [|x a IH]; intros [|y b]; simpl; try congruence.
  destruct (N_of_ascii x <? N_of_ascii y)%N eqn:E1;
    destruct (N_of_ascii y <? N_of_ascii x)%N eqn:E2; try congruence.
  - apply N.ltb_lt in E1, E2. lia.
  - apply IH.
Qed.

Lemma string_ltb_trichotomy (a : string) :
  forall b, string_ltb a b = false -> string_ltb b a = false -> a = b.
Proof.
  induction a as [|x a IH]; intros [|y b]; simpl; try congruence.
  destruct (N_of_ascii x <? N_of_ascii y)%N eqn:E1;
    destruct (N_of_ascii y <? N_of_ascii x)%N eqn:E2; try congruence.
  intros H1 H2. apply N.ltb_ge in E1, E2.
  f_equal; [apply N_of_ascii_inj; lia|now apply IH].
Qed.

Lemma string_ltb_trans (a : string) :
  forall b c, string_ltb a b = true -> string_ltb b c = true ->
              string_ltb a c = true.
Proof.
  induction a as [|x a IH]; intros [|y b] [|z c]; simpl; try congruence.
  destruct (N_of_ascii x <? N_of_ascii y)%N eqn:E1;
    destruct (N_of_ascii y <? N_of_ascii x)%N eqn:E2;
    destruct (N_of_ascii y <? N_of_ascii z)%N eqn:E3;
    destruct (N_of_ascii z <? N_of_ascii y)%N eqn:E4;
    destruct (N_of_ascii x <? N_of_ascii z)%N eqn:E5;
    destruct (N_of_ascii z <? N_of_ascii x)%N eqn:E6;
    try congruence;
    try (apply N.ltb_lt in E1); try (apply N.ltb_ge in E1);
    try (apply N.ltb_lt in E2); try (apply N.ltb_ge in E2);
    try (apply N.ltb_lt in E3); try (apply N.ltb_ge in E3);
    try (apply N.ltb_lt in E4); try (apply N.ltb_ge in E4);
    try (apply N.ltb_lt in E5); try (apply N.ltb_ge in E5);
    try (apply N.ltb_lt in E6); try (apply N.ltb_ge in E6);
    try lia.
  apply IH.
Qed.

Lemma string_ltb_le_lt (h x y : string) :
  string_ltb h y = false -> string_ltb h x = true -> string_ltb y x = true.
Proof.
  intros Hy Hx. destruct (string_ltb y h) eqn:E.
  - eapply string_ltb_trans; eauto.
  - rewrite (string_ltb_trichotomy y h E Hy). exact Hx.
Qed.


(** ** C7: deterministic multisig outputs *)

Lemma sortBy_insert_ext (x : PublicKey) (l1 : list PublicKey) :
  forall l2, List.map PublicKey_toBuffer l1 = List.map PublicKey_toBuffer l2 ->
    List.map PublicKey_toBuffer (sortBy_insert PublicKey_toString x l1)
    = List.map PublicKey_toBuffer (sortBy_insert PublicKey_toString x l2).
Proof.
  induction l1 as [|h1 l1 IH]; intros [|h2 l2] H; try discriminate;
    [reflexivity|].
  simpl in H. injection H as Hh Hl. cbn [sortBy_insert].
  assert (Hk : PublicKey_toString h1 = PublicKey_toString h2)
    by (unfold PublicKey_toString; now rewrite Hh).
  rewrite Hk.
  destruct (string_ltb _ _); cbn [List.map]; rewrite Hh.
  - now rewrite (IH l2 Hl).
  - now rewrite Hl.
Qed.

Lemma toString_eq_toBuffer (x y : PublicKey) :
  string_ltb (PublicKey_toString x) (PublicKey_toString y) = false ->
  string_ltb (PublicKey_toString y) (PublicKey_toString x) = false ->
  PublicKey_toBuffer x = PublicKey_toBuffer y.
Proof.
  intros H1 H2. apply hex_of_bytes_inj.
  exact (string_ltb_trichotomy _ _ H1 H2).
Qed.

Lemma sortBy_insert_swap (x y : PublicKey) (l : list PublicKey) :
  List.map PublicKey_toBuffer
    (sortBy_insert PublicKey_toString y (sortBy_insert PublicKey_toString x l))
  = List.map PublicKey_toBuffer
      (sortBy_insert PublicKey_toString x (sortBy_insert PublicKey_toString y l)).
Proof.
  set (key := PublicKey_toString).
  induction l as [|h t IH]; cbn [sortBy_insert].
  - destruct (string_ltb (key x) (key y)) eqn:Exy;
      destruct (string_ltb (key y) (key x)) eqn:Eyx; try reflexivity.
    + apply string_ltb_asym in Exy. congruence.
    + cbn [List.map]. now rewrite (toString_eq_toBuffer x y Exy Eyx).
  - destruct (string_ltb (key h) (key x)) eqn:Ehx;
      destruct (string_ltb (key h) (key y)) eqn:Ehy; cbn [sortBy_insert];
      rewrite ?Ehx, ?Ehy.
    + cbn [List.map]. now rewrite IH.
    + rewrite (string_ltb_le_lt _ _ _ Ehy Ehx). cbn [sortBy_insert].
      rewrite ?Ehx. reflexivity.
    + rewrite (string_ltb_le_lt _ _ _ Ehx Ehy). cbn [sortBy_insert].
      rewrite ?Ehy. reflexivity.
    + destruct (string_ltb (key x) (key y)) eqn:Exy;
        destruct (string_ltb (key y) (key x)) eqn:Eyx;
        cbn [sortBy_insert]; rewrite ?Ehx, ?Ehy; try reflexivity.
      * apply string_ltb_asym in Exy. congruence.
      * cbn [List.map]. now rewrite (toString_eq_toBuffer x y Exy Eyx).
Qed.

Lemma sortBy_permutation (l1 l2 : list PublicKey) :
  Permutation l1 l2 ->
  List.map PublicKey_toBuffer (sortBy l1 PublicKey_toString)
  = List.map PublicKey_toBuffer (sortBy l2 PublicKey_toString).
Proof.
  induction 1 as [|x l1 l2 _ IH|x y l|l1 l2 l3 _ IH1 _ IH2]; cbn [sortBy fold_right].
  - reflexivity.
  - now apply sortBy_insert_ext.
  - apply sortBy_insert_swap.
  - congruence.
Qed.

Lemma add_pubkeys_ext (l1 : list PublicKey) :
  forall l2 s, List.map PublicKey_toBuffer l1 = List.map PublicKey_toBuffer l2 ->
    add_pubkeys l1 s = add_pubkeys l2 s.
Proof.
  induction l1 as [|h1 l1 IH]; intros [|h2 l2] s H; try discriminate;
    [reflexivity|].
  simpl in H. injection H as Hh Hl. cbn [add_pubkeys]. rewrite Hh.
  destruct (add _ s) as [s'|]; cbn [bind]; [now apply IH|reflexivity].
Qed.

(** C7. For two lists of public keys that are permutations of each other,
    [buildMultisigOut] without [noSorting] behaves the same on both: it gives
    the same script, hence the same serialized bytes (or the same failure,
    when M or the number of keys is no small integer or a key is too large). *)
Theorem C7_buildMultisigOut_permutation (p1 p2 : list PublicKey) (m : Z) :
  Permutation p1 p2 ->
  buildMultisigOut p1 m false = buildMultisigOut p2 m false /\
  (forall s1 s2, buildMultisigOut p1 m false = Ok s1 ->
                 buildMultisigOut p2 m false = Ok s2 ->
                 toBuffer s1 = toBuffer s2).
Proof.
  intros P.
  assert (E : buildMultisigOut p1 m false = buildMultisigOut p2 m false).
  { unfold buildMultisigOut. cbn [negb].
    rewrite (Permutation_length P).
    destruct (Opcode.smallInt m) as [opM|]; cbn [bind]; [|reflexivity].
    destruct (add (VOpcode opM) []) as [s|]; cbn [bind]; [|reflexivity].
    rewrite (add_pubkeys_ext _ _ s (sortBy_permutation p1 p2 P)).
    reflexivity. }
  split; [exact E|].
  intros s1 s2 H1 H2. rewrite E in H1. congruence.
Qed.


(** ** Numbers as text *)

Lemma parse_digits_pos (d : Decimal.uint) :
  forall p, parse_digits 10 (DecimalString.NilEmpty.string_of_uint d) (N.pos p)
            = N.pos (Pos.of_uint_acc d p).
Proof.
  induction d; intros p; cbn [DecimalString.NilEmpty.string_of_uint
    parse_digits Pos.of_uint_acc]; try reflexivity.
  all: match goal with
       | |- context [digit_value ?c] =>
           let v := eval vm_compute in (digit_value c) in
           change (digit_value c) with v
       end; cbv iota beta.
  all: match goal with
       | |- context [(?a <? 10)%N] => change (a <? 10)%N with true
       end; cbv iota.
  all: rewrite <- IHd; f_equal; lia.
Qed.

Lemma parse_digits_uint (d : Decimal.uint) :
  parse_digits 10 (DecimalString.NilEmpty.string_of_uint d) 0 = N.of_uint d.
Proof.
  unfold N.of_uint.
  induction d; cbn [DecimalString.NilEmpty.string_of_uint parse_digits
    Pos.of_uint]; try reflexivity.
  all: match goal with
       | |- context [digit_value ?c] =>
           let v := eval vm_compute in (digit_value c) in
           change (digit_value c) with v
       end; cbv iota beta.
  all: match goal with
       | |- context [(?a <? 10)%N] => change (a <? 10)%N with true
       end; cbv iota.
  1: exact IHd.
  all: rewrite <- parse_digits_pos; f_equal.
Qed.

Lemma parseInt_uint (d : Decimal.uint) :
  d <> Decimal.Nil ->
  parseInt (DecimalString.NilEmpty.string_of_uint d)
  = Num (Z.of_N (parse_digits 10 (DecimalString.NilEmpty.string_of_uint d) 0)).
Proof.
  intros Hd. destruct d; try congruence; try reflexivity.
  destruct d; reflexivity.
Qed.

Lemma parseInt_decimal (n : N) : parseInt (decimal n) = Num (Z.of_N n).
Proof.
  unfold decimal. rewrite parseInt_uint, parse_digits_uint.
  - now rewrite DecimalN.Unsigned.of_to.
  - destruct n; [discriminate|]. apply DecimalPos.Unsigned.to_uint_nonnil.
Qed.

Lemma no_space_uint (d : Decimal.uint) :
  no_space (DecimalString.NilEmpty.string_of_uint d) = true.
Proof. induction d; simpl; auto. Qed.

Lemma name_ok_uint (d : Decimal.uint) :
  name_ok (DecimalString.NilEmpty.string_of_uint d) = false.
Proof. destruct d; reflexivity. Qed.

Lemma hex_pair_no_space (x : byte) :
  Ascii.eqb (hex_digit (Byte.to_N x / 16)) space = false /\
  Ascii.eqb (hex_digit (Byte.to_N x mod 16)) space = false.
Proof. destruct x; split; reflexivity. Qed.

Lemma no_space_hex_of_bytes (b : bytes) : no_space (hex_of_bytes b) = true.
Proof.
  induction b as [|x b IH]; [reflexivity|]. cbn [hex_of_bytes no_space].
  destruct (hex_pair_no_space x) as [-> ->]. exact IH.
Qed.


(** ** The registry *)

Lemma reverseMap_from_In (r : Opcode.registry) (n : Z) :
  forall found name,
    Opcode.reverseMap_from r n found = Some name ->
    found = Some name \/ In (name, n) r.
Proof.
  induction r as [|[k v] r IH]; intros found name H; simpl in H; [now left|].
  apply IH in H. destruct H as [H|H]; [|right; now right].
  destruct (v =? n) eqn:E; [|now left].
  apply Z.eqb_eq in E. injection H as ->. subst v. right. now left.
Qed.

Lemma map_In (r : Opcode.registry) (name : string) (n : Z) :
  distinct (List.map fst r) = true -> In (name, n) r ->
  Opcode.map r name = Num n.
Proof.
  induction r as [|[k v] r IH]; intros Hd Hin; [contradiction|].
  simpl in Hd. apply andb_prop in Hd. destruct Hd as [Hk Hd].
  cbn [Opcode.map]. destruct Hin as [E|Hin].
  - injection E as -> ->. now rewrite String.eqb_refl.
  - destruct (String.eqb k name) eqn:E; [|now apply IH].
    apply String.eqb_eq in E. subst k. exfalso.
    apply negb_true_iff in Hk.
    assert (Hex : existsb (String.eqb name) (List.map fst r) = true).
    { apply existsb_exists. exists name. split; [|apply String.eqb_refl].
      apply in_map_iff. exists (name, n). auto. }
    congruence.
Qed.

Lemma map_not_name (r : Opcode.registry) (token : string) :
  forallb name_ok (List.map fst r) = true -> name_ok token = false ->
  Opcode.map r token = Undefined.
Proof.
  induction r as [|[k v] r IH]; intros Hn Ht; [reflexivity|].
  simpl in Hn. apply andb_prop in Hn. destruct Hn as [Hk Hn].
  cbn [Opcode.map]. destruct (String.eqb k token) eqn:E; [|now apply IH].
  apply String.eqb_eq in E. subst k. congruence.
Qed.

Lemma In_name_ok (r : Opcode.registry) (name : string) (n : Z) :
  forallb name_ok (List.map fst r) = true -> In (name, n) r ->
  name_ok name = true.
Proof.
  intros Hn Hin. rewrite forallb_forall in Hn. apply Hn.
  apply in_map_iff. exists (name, n). auto.
Qed.

(** ** Strings *)

Lemma append_nil_r (s : string) : (s ++ EmptyString)%string = s.
Proof. induction s as [|c s IH]; simpl; [reflexivity|now rewrite IH]. Qed.

Lemma append_assoc (a b c : string) :
  ((a ++ b) ++ c)%string = (a ++ (b ++ c))%string.
Proof. induction a as [|x a IH]; simpl; [reflexivity|now rewrite IH]. Qed.

Lemma spaced_app (l1 l2 : list string) :
  spaced (l1 ++ l2) = (spaced l1 ++ spaced l2)%string.
Proof.
  induction l1 as [|t l1 IH]; simpl; [reflexivity|].
  now rewrite IH, append_assoc.
Qed.

Lemma no_space_app (a b : string) :
  no_space (a ++ b) = no_space a && no_space b.
Proof.
  induction a as [|c a IH]; simpl; [reflexivity|].
  now rewrite IH, andb_assoc.
Qed.

Lemma split_space_spaced (ts : list string) :
  forall t, no_space t = true -> Forall (fun x => no_space x = true) ts ->
    split_space (t ++ spaced ts) = t :: ts.
Proof.
  induction ts as [|t' ts IH]; intros t.
  - intros Ht _. simpl. rewrite append_nil_r.
    induction t as [|c t IHt]; [reflexivity|].
    simpl in Ht. apply andb_prop in Ht. destruct Ht as [Hc Ht].
    apply negb_true_iff in Hc. cbn [split_space]. rewrite Hc, (IHt Ht).
    reflexivity.
  - intros Ht Hall. inversion Hall as [|? ? Ht' Hts]; subst.
    induction t as [|c t IHt].
    + simpl. rewrite (IH t' Ht' Hts). reflexivity.
    + simpl in Ht. apply andb_prop in Ht. destruct Ht as [Hc Ht].
      apply negb_true_iff in Hc.
      change ((String c t ++ spaced (t' :: ts))%string)
        with (String c (t ++ spaced (t' :: ts))).
      cbn [split_space]. rewrite Hc, (IHt Ht). reflexivity.
Qed.

Lemma all_hex_space (a b : string) : all_hex (a ++ String space b) = false.
Proof.
  induction a as [|c a IH]; simpl; [reflexivity|].
  rewrite IH. apply andb_false_r.
Qed.

Lemma isHexa_name (name rest : string) :
  name_ok name = true -> isHexa (name ++ rest) = false.
Proof.
  destruct name as [|c name]; [discriminate|]. simpl.
  intros H. apply andb_prop in H. destruct H as [H _].
  apply Ascii.eqb_eq in H. subst c. reflexivity.
Qed.

Lemma isHexa_space (a b : string) : isHexa (a ++ String space b) = false.
Proof.
  destruct a as [|c a]; [reflexivity|].
  change (isHexa (String c a ++ String space b))
    with (all_hex (String c a ++ String space b)).
  apply all_hex_space.
Qed.


(** ** C8: the text form read back *)

Section TextRoundTrip.

Hypothesis registry_is_wf : registry_wf registry = true.

Lemma wf_parts :
  forallb name_ok (List.map fst registry) = true /\
  distinct (List.map fst registry) = true /\
  named registry (Num Opcode.OP_PUSHDATA1) = true /\
  named registry (Num Opcode.OP_PUSHDATA2) = true /\
  named registry (Num Opcode.OP_PUSHDATA4) = true.
Proof.
  pose proof registry_is_wf as H. unfold registry_wf in H.
  repeat (apply andb_prop in H; let H' := fresh "H" in destruct H as [H H']).
  auto.
Qed.

Lemma named_spec (op : jsnum) :
  named registry op = true ->
  exists z name, op = Num z /\ Opcode.reverseMap registry op = Some name /\
                 Opcode.map registry name = Num z /\ name_ok name = true.
Proof.
  destruct wf_parts as (Hn & Hd & _).
  unfold named. destruct (Opcode.reverseMap registry op) as [name|] eqn:E;
    [|discriminate].
  intros _. destruct op as [z| |]; try discriminate.
  exists z, name. split; [reflexivity|]. split; [reflexivity|].
  simpl in E. apply reverseMap_from_In in E. destruct E as [E|E]; [discriminate|].
  split; [now apply map_In|now apply (In_name_ok registry name z)].
Qed.

Lemma pushdata_named (op : jsnum) :
  is_pushdata op = true -> named registry op = true.
Proof.
  destruct wf_parts as (_ & _ & H1 & H2 & H4).
  unfold is_pushdata. destruct op as [z| |]; try discriminate. simpl.
  intros H. apply orb_prop in H. destruct H as [H|H];
    [apply orb_prop in H; destruct H as [H|H]|];
    apply Z.eqb_eq in H; subst z; assumption.
Qed.

Lemma push_opcode_cases (L : Z) :
  0 < L ->
  (L < 76 /\ push_opcode L = L /\ is_pushdata (Num (push_opcode L)) = false) \/
  (76 <= L /\ is_pushdata (Num (push_opcode L)) = true).
Proof.
  intros HL. unfold push_opcode, Opcode.OP_PUSHDATA1.
  destruct (L <? 76) eqn:E.
  - apply Z.ltb_lt in E. left. split; [lia|]. split; [reflexivity|].
    unfold is_pushdata, num_eqb, Opcode.OP_PUSHDATA1, Opcode.OP_PUSHDATA2,
      Opcode.OP_PUSHDATA4.
    rewrite !orb_false_iff, !Z.eqb_neq. lia.
  - apply Z.ltb_ge in E. right. split; [lia|].
    destruct (L <? 2 ^ 8); [reflexivity|].
    destruct (L <? 2 ^ 16); reflexivity.
Qed.

Lemma number_toString_nonneg (L : Z) :
  0 <= L -> number_toString (Num L) = decimal (Z.to_N L).
Proof.
  intros HL. unfold number_toString.
  destruct (L <? 0) eqn:E; [apply Z.ltb_lt in E; lia|reflexivity].
Qed.

(** The tokens of a chunk: what [toString] renders, free of spaces, and
    beginning with a name unless the chunk is a direct push. *)
Lemma chunk_tokens_spec (c : item) :
  api_chunk c -> bare_named c = true ->
  chunk_toString c = Ok (spaced (chunk_tokens c)) /\
  Forall (fun t => no_space t = true) (chunk_tokens c) /\
  exists t ts, chunk_tokens c = t :: ts /\ (name_ok t = true \/ ts <> []).
Proof.
  intros [[op ->]|(b & Hb & ->)] Hbare.
  - unfold bare_named in Hbare. simpl in Hbare.
    apply andb_prop in Hbare. destruct Hbare as [Hn _].
    destruct (named_spec op Hn) as (z & name & -> & Hr & Hm & Hok).
    unfold chunk_toString, chunk_tokens, name_of, Opcode.toString. simpl.
    simpl in Hr. rewrite Hr. simpl. rewrite append_nil_r.
    split; [reflexivity|]. split.
    + constructor; [|constructor]. unfold name_ok in Hok.
      destruct name; [discriminate|]. now apply andb_prop in Hok.
    + exists name, []. auto.
  - clear Hbare. set (L := blen b) in *.
    assert (HL : number_toString (Num L) = decimal (Z.to_N L))
      by (apply number_toString_nonneg; lia).
    unfold chunk_toString, chunk_tokens. cbn [push item_buf item_opcodenum
      item_len buf opcodenum len]. rewrite HL.
    assert (Hhex : no_space ("0x" ++ hex_of_bytes b) = true)
      by (simpl; apply no_space_hex_of_bytes).
    destruct (push_opcode_cases L) as [(Hlt & Hop & Hpd)|(Hge & Hpd)]; [lia| |];
      rewrite Hpd.
    + cbn [bind app spaced]. rewrite append_nil_r. simpl.
      split; [reflexivity|]. split.
      * repeat constructor; [apply no_space_uint|apply no_space_hex_of_bytes].
      * eexists _, _. split; [reflexivity|]. right. discriminate.
    + destruct (named_spec _ (pushdata_named _ Hpd))
        as (z & name & Hz & Hr & Hm & Hok).
      unfold name_of, Opcode.toString, Opcode.ofNumber. cbn [Opcode.num].
      rewrite Hr. cbn [bind app spaced]. rewrite append_nil_r.
      split; [reflexivity|]. split.
      * repeat constructor;
          [|apply no_space_uint|apply no_space_hex_of_bytes].
        unfold name_ok in Hok. destruct name; [discriminate|].
        now apply andb_prop in Hok.
      * eexists _, _. split; [reflexivity|]. now left.
Qed.



(** [fromString] reads the tokens of a chunk back as that chunk. *)
Lemma fromString_loop_chunk (c : item) (rest : list string) (acc : Script) :
  api_chunk c -> bare_named c = true ->
  fromString_loop (chunk_tokens c ++ rest) acc
  = fromString_loop rest (acc ++ [c]).
Proof.
  destruct wf_parts as (Hnames & _).
  intros [[op ->]|(b & Hb & ->)] Hbare.
  - unfold bare_named in Hbare. simpl in Hbare.
    apply andb_prop in Hbare. destruct Hbare as [Hn Hp].
    apply negb_true_iff in Hp.
    destruct (named_spec op Hn) as (z & name & -> & Hr & Hm & Hok).
    unfold chunk_tokens, name_of. cbn [bare item_buf item_opcodenum buf
      opcodenum]. rewrite Hr. cbn [app fromString_loop].
    unfold Opcode.toNumber, Opcode.ofString. cbn [Opcode.num].
    rewrite Hm, Hp. reflexivity.
  - clear Hbare. set (L := blen b) in *.
    assert (HL : number_toString (Num L) = decimal (Z.to_N L))
      by (apply number_toString_nonneg; lia).
    assert (Hparse : parseInt (decimal (Z.to_N L)) = Num L)
      by (rewrite parseInt_decimal, Z2N.id by lia; reflexivity).
    assert (Hdec : Opcode.map registry (decimal (Z.to_N L)) = Undefined)
      by (apply map_not_name; [exact Hnames|apply name_ok_uint]).
    unfold chunk_tokens. cbn [push item_buf item_opcodenum item_len buf
      opcodenum len]. rewrite HL.
    destruct (push_opcode_cases L) as [(Hlt & Hop & Hpd)|(Hge & Hpd)]; [lia| |];
      rewrite Hpd.
    + cbn [app fromString_loop].
      unfold Opcode.toNumber, Opcode.ofString. cbn [Opcode.num].
      rewrite Hdec, Hparse, Hop.
      assert (Hrange : num_gtb (Num L) 0 && num_ltb (Num L) Opcode.OP_PUSHDATA1
                       = true).
      { unfold num_gtb, num_ltb, Opcode.OP_PUSHDATA1.
        apply andb_true_intro. split; apply Z.ltb_lt; lia. }
      rewrite Hrange.
      change (slice2 ("0x" ++ hex_of_bytes b)) with (hex_of_bytes b).
      rewrite Buffer_from_hex_of_bytes. reflexivity.
    + destruct (named_spec _ (pushdata_named _ Hpd))
        as (z & name & Hz & Hr & Hm & Hok).
      unfold name_of. rewrite Hr. cbn [app fromString_loop].
      unfold Opcode.toNumber, Opcode.ofString. cbn [Opcode.num].
      rewrite Hm, <- Hz, Hpd.
      change (slice02 ("0x" ++ hex_of_bytes b)) with "0x"%string.
      change (slice2 ("0x" ++ hex_of_bytes b)) with (hex_of_bytes b).
      rewrite Buffer_from_hex_of_bytes, Hparse. reflexivity.
Qed.

Lemma toString_loop_tokens (s : Script) :
  forall str,
    Forall api_chunk s -> forallb bare_named s = true ->
    toString_loop s str = Ok (str ++ spaced (flat_map chunk_tokens s))%string.
Proof.
  induction s as [|c s IH]; intros str Hall Hb.
  - simpl. now rewrite append_nil_r.
  - inversion Hall as [|? ? Hc Hs]; subst.
    simpl in Hb. apply andb_prop in Hb. destruct Hb as [Hbc Hbs].
    cbn [toString_loop flat_map].
    destruct (chunk_tokens_spec c Hc Hbc) as (-> & _). cbn [bind].
    rewrite (IH _ Hs Hbs), spaced_app, append_assoc. reflexivity.
Qed.

Lemma fromString_loop_tokens (s : Script) :
  forall acc,
    Forall api_chunk s -> forallb bare_named s = true ->
    fromString_loop (flat_map chunk_tokens s) acc = Ok (acc ++ s).
Proof.
  induction s as [|c s IH]; intros acc Hall Hb.
  - simpl. now rewrite app_nil_r.
  - inversion Hall as [|? ? Hc Hs]; subst.
    simpl in Hb. apply andb_prop in Hb. destruct Hb as [Hbc Hbs].
    cbn [flat_map]. rewrite (fromString_loop_chunk c _ acc Hc Hbc).
    rewrite (IH _ Hs Hbs), <- app_assoc. reflexivity.
Qed.

Lemma tokens_no_space (s : Script) :
  Forall api_chunk s -> forallb bare_named s = true ->
  Forall (fun t => no_space t = true) (flat_map chunk_tokens s).
Proof.
  induction s as [|c s IH]; intros Hall Hb; [constructor|].
  inversion Hall as [|? ? Hc Hs]; subst.
  simpl in Hb. apply andb_prop in Hb. destruct Hb as [Hbc Hbs].
  cbn [flat_map]. apply Forall_app. split; [|now apply IH].
  now destruct (chunk_tokens_spec c Hc Hbc) as (_ & H & _).
Qed.

End TextRoundTrip.


Lemma insert_api (c : item) (front : bool) (s : Script) :
  api_chunk c -> Forall api_chunk s ->
  Forall api_chunk (_insertAtPosition c front s).
Proof.
  intros Hc Hs. unfold _insertAtPosition. destruct front.
  - now constructor.
  - apply Forall_app. split; [exact Hs|]. now constructor.
Qed.

Lemma built_api (s : Script) : built s -> Forall api_chunk s.
Proof.
  induction 1 as [|obj front s s' _ IH Harg Hadd]; [constructor|].
  destruct obj; try contradiction; unfold _addByType in Hadd;
    cbn [_addByType_branch typeof jstype_eqb constructor_is_Opcode isBuffer
         bind buffer_of _addOpcode] in Hadd.
  1-3: injection Hadd as <-; apply insert_api; [left; eauto|exact IH].
  unfold _addBuffer in Hadd.
  destruct (blen b =? 0) eqn:E0; [injection Hadd as <-; exact IH|].
  apply Z.eqb_neq in E0.
  assert (Hpos : 0 < blen b) by (unfold blen in *; lia).
  assert (Hop : forall op, op = push_opcode (blen b) -> blen b < 2 ^ 32 ->
            Forall api_chunk
              (_insertAtPosition (push (Num op) (Num (blen b)) b) front s)).
  { intros op -> Hlt. apply insert_api; [|exact IH]. right. exists b. auto. }
  unfold push_opcode in Hop. unfold Opcode.OP_PUSHDATA1 in *.
  destruct (0 <? blen b) eqn:E1; [|apply Z.ltb_ge in E1; lia].
  destruct (blen b <? 76) eqn:E2; cbn [andb bind] in Hadd.
  { injection Hadd as <-. apply Z.ltb_lt in E2. apply Hop; [reflexivity|lia]. }
  destruct (blen b <? 2 ^ 8) eqn:E3; cbn [bind] in Hadd.
  { injection Hadd as <-. apply Z.ltb_lt in E3. apply Hop; [reflexivity|lia]. }
  destruct (blen b <? 2 ^ 16) eqn:E4; cbn [bind] in Hadd.
  { injection Hadd as <-. apply Z.ltb_lt in E4. apply Hop; [reflexivity|lia]. }
  destruct (blen b <? 2 ^ 32) eqn:E5; cbn [bind] in Hadd; [|discriminate].
  injection Hadd as <-. apply Z.ltb_lt in E5. apply Hop; [reflexivity|lia].
Qed.

(** C8 (amended).  With a registry whose names are distinct, begin with the
    letter O, have no space and include the three OP_PUSHDATA opcodes: for
    every non-empty script built through [add] and [prepend] of opcodes and
    payloads in which every bare opcode has a canonical name and is none of
    OP_PUSHDATA1, OP_PUSHDATA2, OP_PUSHDATA4, [toString] succeeds and
    [fromString] of the text gives the script back, chunk by chunk. *)
Theorem C8_text_roundtrip_named_opcodes (s : Script) :
  registry_wf registry = true ->
  built s -> s <> [] -> forallb bare_named s = true ->
  exists str s', toString s = Ok str /\ fromString str = Ok s' /\
                 s' = s /\ chunkwise_equal s' s.
Proof.
  intros Hwf Hbuilt Hne Hbare.
  pose proof (built_api s Hbuilt) as Hapi.
  pose proof (tokens_no_space Hwf s Hapi Hbare) as Hns.
  assert (Htok : exists t ts, flat_map chunk_tokens s = t :: ts /\
                   (name_ok t = true \/ ts <> [])).
  { destruct s as [|c s]; [congruence|].
    inversion Hapi as [|? ? Hc Hs]; subst.
    simpl in Hbare. apply andb_prop in Hbare. destruct Hbare as [Hbc _].
    destruct (chunk_tokens_spec Hwf c Hc Hbc) as (_ & _ & t & ts & E & Hfirst).
    cbn [flat_map]. rewrite E. exists t, (ts ++ flat_map chunk_tokens s).
    split; [reflexivity|]. destruct Hfirst as [H|H]; [now left|right].
    destruct ts; [congruence|discriminate]. }
  destruct Htok as (t & ts & Etok & Hfirst).
  exists (t ++ spaced ts)%string, s.
  assert (Hstr : toString s = Ok (t ++ spaced ts)%string).
  { unfold toString. rewrite (toString_loop_tokens Hwf s _ Hapi Hbare), Etok.
    reflexivity. }
  split; [exact Hstr|]. split; [|split; [reflexivity|]].
  - unfold fromString.
    assert (Hhex : isHexa (t ++ spaced ts) = false).
    { destruct Hfirst as [H|H]; [now apply isHexa_name|].
      destruct ts as [|t' ts]; [congruence|]. apply isHexa_space. }
    rewrite Hhex. rewrite Etok in Hns. inversion Hns as [|? ? Ht Hts]; subst.
    rewrite (split_space_spaced ts t Ht Hts), <- Etok.
    apply (fromString_loop_tokens Hwf s [] Hapi Hbare).
  - clear. induction s as [|c s IH]; constructor; auto.
Qed.


(** The builders construct their scripts with [add] only, so what they
    return is a script built through the public API. *)
Lemma add_built (obj : jsval) (s s' : Script) :
  built s -> api_argument obj -> add obj s = Ok s' -> built s'.
Proof. intros Hs Ha Hadd. exact (built_add obj false s s' Hs Ha Hadd). Qed.

Lemma add_pubkeys_built (l : list PublicKey) :
  forall s s', built s -> add_pubkeys l s = Ok s' -> built s'.
Proof.
  induction l as [|k l IH]; intros s s' Hs H; cbn [add_pubkeys] in H.
  - now injection H as <-.
  - destruct (add (VBuffer (PublicKey_toBuffer k)) s) as [s1|] eqn:E;
      cbn [bind] in H; [|discriminate].
    apply (IH s1 s'); [|exact H].
    refine (add_built _ _ _ _ _ E); [assumption|exact I].
Qed.

Ltac add_step H :=
  match type of H with
  | bind (add ?o ?s) _ = Ok _ =>
      let s1 := fresh "s" in
      let E := fresh "E" in
      destruct (add o s) as [s1|] eqn:E; cbn [bind] in H; [|discriminate];
      apply (add_built o s s1) in E; [|assumption|exact I]
  end.

Lemma builders_built :
  (forall data s, api_argument data -> buildDataOut data = Ok s -> built s) /\
  (forall pubkeys m noSorting s,
     buildMultisigOut pubkeys m noSorting = Ok s -> built s) /\
  (forall hash s, buildPublicKeyHashOut hash = Ok s -> built s) /\
  (forall pubkey s, buildPublicKeyOut pubkey = Ok s -> built s) /\
  (forall hashfn script s, buildScriptHashOut hashfn script = Ok s -> built s).
Proof.
  pose proof built_empty as B0.
  repeat match goal with |- _ /\ _ => split end.
  - intros data s Ha H. unfold buildDataOut in H. add_step H.
    refine (add_built _ _ _ _ _ H); [assumption|]. now destruct data.
  - intros pubkeys m noSorting s H. unfold buildMultisigOut in H.
    destruct (Opcode.smallInt m) as [opM|]; cbn [bind] in H; [|discriminate].
    add_step H.
    destruct (add_pubkeys _ s0) as [s1|] eqn:E1; cbn [bind] in H; [|discriminate].
    apply add_pubkeys_built in E1; [|assumption].
    destruct (Opcode.smallInt _) as [opN|]; cbn [bind] in H; [|discriminate].
    add_step H. refine (add_built _ _ _ _ _ H); [assumption|exact I].
  - intros hash s H. unfold buildPublicKeyHashOut in H.
    do 4 add_step H. refine (add_built _ _ _ _ _ H); [assumption|exact I].
  - intros pubkey s H. unfold buildPublicKeyOut in H. add_step H.
    refine (add_built _ _ _ _ _ H); [assumption|exact I].
  - intros hashfn script s H. unfold buildScriptHashOut in H.
    do 2 add_step H. refine (add_built _ _ _ _ _ H); [assumption|exact I].
Qed.

(** * Further properties of lib/script.js *)

(** ** What the parser makes, and parsing what the serializer wrote *)

Lemma read_spec (strict : bool) (l : Z) (br b rest : bytes) :
  0 <= l -> BufferReader.read strict l br = Ok (b, rest) ->
  blen b <= l /\ (blen b = l \/ (strict = false /\ rest = [])).
Proof.
  unfold BufferReader.read, blen. intros Hl.
  destruct (Z.of_nat (List.length br) <? l) eqn:E; destruct strict; simpl;
    try discriminate; intros H; injection H as <- <-.
  - apply Z.ltb_lt in E. rewrite firstn_all2, skipn_all2 by lia.
    split; [lia|]. right. auto.
  - apply Z.ltb_ge in E. rewrite length_firstn. split; [lia|left; lia].
  - apply Z.ltb_ge in E. rewrite length_firstn. split; [lia|left; lia].
Qed.

Lemma fromBuffer_step_shape (br : bytes) (c : item) (rest : bytes) :
  fromBuffer_step br = Ok (c, rest) ->
  parsed_chunk c /\ (exact_chunk c \/ (strict_read = false /\ rest = [])).
Proof.
  assert (Push : forall op l src b r, push_shape op l -> 0 <= l ->
            BufferReader.read strict_read l src = Ok (b, r) ->
            parsed_chunk (push (Num op) (Num l) b) /\
            (exact_chunk (push (Num op) (Num l) b) \/
             (strict_read = false /\ r = []))).
  { intros op l src b r Hs Hl Hr.
    destruct (read_spec _ _ _ _ _ Hl Hr) as [Hle [He|He]].
    - split; [right; exists op, l, b; auto|]. left. right.
      exists op, b. rewrite He. auto.
    - split; [right; exists op, l, b; auto|]. now right. }
  unfold fromBuffer_step.
  destruct br as [|b0 br]; simpl; [discriminate|].
  pose proof (byte_to_Z_range b0) as R0.
  destruct ((0 <? byte_to_Z b0) && (byte_to_Z b0 <? Opcode.OP_PUSHDATA1)) eqn:Hd.
  { apply andb_prop in Hd. destruct Hd as [H1 H2].
    apply Z.ltb_lt in H1, H2. unfold Opcode.OP_PUSHDATA1 in H2.
    destruct (BufferReader.read strict_read (byte_to_Z b0) br) as [[b r]|] eqn:Hr;
      simpl; [|discriminate].
    intros H. injection H as <- <-.
    apply (Push _ _ br); [left; lia|lia|exact Hr]. }
  destruct (byte_to_Z b0 =? Opcode.OP_PUSHDATA1) eqn:E1.
  { apply Z.eqb_eq in E1. destruct br as [|b1 br]; simpl; [discriminate|].
    pose proof (byte_to_Z_range b1) as R1.
    destruct (BufferReader.read strict_read (byte_to_Z b1) br) as [[b r]|] eqn:Hr;
      simpl; [|discriminate].
    intros H. injection H as <- <-.
    apply (Push _ _ br); [right; left; split; [exact E1|]|lia|exact Hr].
    change (2 ^ 8) with 256. lia. }
  destruct (byte_to_Z b0 =? Opcode.OP_PUSHDATA2) eqn:E2.
  { apply Z.eqb_eq in E2. destruct br as [|b1 [|b2 br]]; simpl; try discriminate.
    pose proof (byte_to_Z_range b1) as R1. pose proof (byte_to_Z_range b2) as R2.
    destruct (BufferReader.read strict_read _ br) as [[b r]|] eqn:Hr;
      simpl; [|discriminate].
    intros H. injection H as <- <-.
    apply (Push _ _ br); [right; right; left; split; [exact E2|]|lia|exact Hr].
    change (2 ^ 16) with 65536. lia. }
  destruct (byte_to_Z b0 =? Opcode.OP_PUSHDATA4) eqn:E4.
  { apply Z.eqb_eq in E4.
    destruct br as [|b1 [|b2 [|b3 [|b4 br]]]]; simpl; try discriminate.
    pose proof (byte_to_Z_range b1) as R1. pose proof (byte_to_Z_range b2) as R2.
    pose proof (byte_to_Z_range b3) as R3. pose proof (byte_to_Z_range b4) as R4.
    destruct (BufferReader.read strict_read _ br) as [[b r]|] eqn:Hr;
      simpl; [|discriminate].
    intros H. injection H as <- <-.
    apply (Push _ _ br); [right; right; right; split; [exact E4|]|lia|exact Hr].
    change (2 ^ 32) with 4294967296. lia. }
  intros H. injection H as <- <-.
  assert (Hb : bare_shape (byte_to_Z b0)).
  { unfold bare_shape. split; [lia|].
    apply andb_false_iff in Hd. apply Z.eqb_neq in E1, E2, E4.
    unfold Opcode.OP_PUSHDATA1, Opcode.OP_PUSHDATA2, Opcode.OP_PUSHDATA4 in *.
    destruct Hd as [Hd|Hd]; apply Z.ltb_ge in Hd; lia. }
  split; [left; eauto|]. left. left. eauto.
Qed.

Lemma fromBuffer_loop_shape (fuel : nat) :
  forall (br : bytes) (acc s : Script),
    fromBuffer_loop fuel br acc = Ok s ->
    exists news, s = acc ++ news /\ Forall parsed_chunk news /\
      (strict_read = true -> Forall exact_chunk news) /\
      (forall pre c post, news = pre ++ c :: post -> post <> [] ->
                          exact_chunk c).
Proof.
  induction fuel as [|fuel IH]; intros br acc s; simpl.
  - destruct br; simpl; [|discriminate]. intros H. injection H as <-.
    exists []. rewrite app_nil_r. repeat split; auto.
    intros pre c post E. destruct pre; discriminate.
  - destruct br as [|b0 br].
    { simpl. intros H. injection H as <-. exists []. rewrite app_nil_r.
      repeat split; auto. intros pre c post E. destruct pre; discriminate. }
    cbn [BufferReader.eof].
    destruct (fromBuffer_step (b0 :: br)) as [[c rest]|] eqn:Hs; simpl;
      [|discriminate].
    intros H. pose proof H as Hloop.
    apply IH in H. destruct H as (news & -> & Hall & Hstrict & Hlast).
    apply fromBuffer_step_shape in Hs. destruct Hs as [Hc Hex].
    exists (c :: news). rewrite <- app_assoc. split; [reflexivity|].
    split; [now constructor|]. split.
    + intros Hst. constructor; [|now apply Hstrict].
      destruct Hex as [Hex|[Hf _]]; [exact Hex|congruence].
    + intros pre c' post E Hpost. destruct pre as [|p pre].
      * simpl in E. injection E as <- <-.
        destruct Hex as [Hex|[_ Hrest]]; [exact Hex|]. subst rest.
        exfalso.
        assert (Hl : acc ++ [c] = (acc ++ [c]) ++ news)
          by (destruct fuel; simpl in Hloop; now injection Hloop).
        rewrite <- (app_nil_r (acc ++ [c])) in Hl at 1.
        apply app_inv_head in Hl. congruence.
      * simpl in E. injection E as _ E. eapply Hlast; eauto.
Qed.

(** X1. Every chunk [fromBuffer] makes is a bare opcode byte outside
    1..0x4e, or a push whose opcode fits its declared length (the opcode
    itself for 1..0x4b, below 2^8, 2^16, 2^32 for OP_PUSHDATA1, 2, 4) and
    whose payload is no longer than declared.  A payload shorter than
    declared can only be the last chunk's, and only when [read] does not fail
    on a short buffer. *)
Theorem X1_parser_chunk_invariants (b : bytes) (s : Script) :
  fromBuffer b = Ok s ->
  Forall parsed_chunk s /\
  (strict_read = true -> Forall exact_chunk s) /\
  (forall pre c post, s = pre ++ c :: post -> post <> [] -> exact_chunk c).
Proof.
  unfold fromBuffer. intros H. apply fromBuffer_loop_shape in H.
  destruct H as (news & -> & H). exact H.
Qed.

Lemma byte_to_of_Z (z : Z) : byte_to_Z (byte_of_Z z) = z mod 256.
Proof.
  unfold byte_of_Z, byte_to_Z.
  pose proof (Z.mod_pos_bound z 256 ltac:(lia)) as Hm.
  destruct (Byte.of_N (Z.to_N (z mod 256))) as [x|] eqn:E.
  - apply Byte.to_of_N in E. rewrite E. lia.
  - apply Byte.of_N_None_iff in E. lia.
Qed.

Lemma read_exact (strict : bool) (b rest : bytes) :
  BufferReader.read strict (blen b) (b ++ rest) = Ok (b, rest).
Proof.
  unfold BufferReader.read, blen.
  replace (Z.of_nat (List.length (b ++ rest)) <? Z.of_nat (List.length b))
    with false by (symmetry; apply Z.ltb_ge; rewrite length_app; lia).
  cbn [andb]. rewrite Nat2Z.id, firstn_app, skipn_app, firstn_all, skipn_all.
  rewrite Nat.sub_diag. simpl. now rewrite app_nil_r.
Qed.

Lemma push_opcode_shape (L : Z) :
  0 < L < 2 ^ 32 -> push_shape (push_opcode L) L.
Proof.
  intros HL. unfold push_shape, push_opcode, Opcode.OP_PUSHDATA1,
    Opcode.OP_PUSHDATA2, Opcode.OP_PUSHDATA4.
  destruct (L <? 76) eqn:E1; [apply Z.ltb_lt in E1; left; lia|].
  apply Z.ltb_ge in E1.
  destruct (L <? 2 ^ 8) eqn:E2; [apply Z.ltb_lt in E2; right; left; lia|].
  apply Z.ltb_ge in E2.
  destruct (L <? 2 ^ 16) eqn:E3; [apply Z.ltb_lt in E3; right; right; left; lia|].
  apply Z.ltb_ge in E3. right. right. right. lia.
Qed.

(** The parser reads the bytes of an exact chunk back as that chunk. *)
Lemma fromBuffer_step_exact (c : item) (rest : bytes) :
  exact_chunk c -> fromBuffer_step (chunk_toBuffer c ++ rest) = Ok (c, rest).
Proof.
  unfold fromBuffer_step.
  intros [(op & -> & Hb)|(op & b & -> & Hs)].
  - destruct Hb as [Hr Hn].
    unfold chunk_toBuffer, BufferWriter.writeUInt8. simpl.
    rewrite byte_to_of_Z, Z.mod_small by lia.
    unfold Opcode.OP_PUSHDATA1, Opcode.OP_PUSHDATA2, Opcode.OP_PUSHDATA4.
    replace ((0 <? op) && (op <? 76)) with false
      by (symmetry; apply andb_false_iff; rewrite !Z.ltb_ge; lia).
    replace (op =? 76) with false by (symmetry; apply Z.eqb_neq; lia).
    replace (op =? 77) with false by (symmetry; apply Z.eqb_neq; lia).
    replace (op =? 78) with false by (symmetry; apply Z.eqb_neq; lia).
    reflexivity.
  - set (l := blen b) in *.
    assert (Hl : 0 <= l) by (unfold l, blen; lia).
    unfold chunk_toBuffer, BufferWriter.writeUInt8, BufferWriter.writeUInt16LE,
      BufferWriter.writeUInt32LE, push_shape, Opcode.OP_PUSHDATA1,
      Opcode.OP_PUSHDATA2, Opcode.OP_PUSHDATA4 in *.
    cbn [push item_buf item_opcodenum item_len buf opcodenum len
         BufferWriter.int_of num_ltb num_eqb].
    change (2 ^ 8) with 256 in Hs. change (2 ^ 16) with 65536 in Hs.
    change (2 ^ 32) with 4294967296 in Hs.
    destruct Hs as [[H1 H2]|[[-> H2]|[[-> H2]|[-> H2]]]].
    + replace (op <? 76) with true by (symmetry; apply Z.ltb_lt; lia).
      simpl. rewrite byte_to_of_Z, Z.mod_small by lia.
      replace ((0 <? op) && (op <? 76)) with true
        by (symmetry; apply andb_true_intro; rewrite !Z.ltb_lt; lia).
      rewrite <- H2. unfold l. rewrite read_exact. reflexivity.
    + simpl. rewrite byte_to_of_Z, Z.mod_small by lia.
      unfold l. rewrite read_exact. reflexivity.
    + simpl. rewrite !byte_to_of_Z.
      replace (l mod 256 + 256 * ((l / 256) mod 256)) with l
        by (Z.div_mod_to_equations; lia).
      unfold l. rewrite read_exact. reflexivity.
    + simpl. rewrite !byte_to_of_Z.
      replace (l mod 256 + 256 * ((l / 256) mod 256)
               + 65536 * ((l / 65536) mod 256)
               + 16777216 * ((l / 16777216) mod 256)) with l
        by (Z.div_mod_to_equations; lia).
      unfold l. rewrite read_exact. reflexivity.
Qed.

Lemma fromBuffer_loop_exact (s : Script) :
  forall fuel acc, Forall exact_chunk s ->
    (List.length (toBuffer s) <= fuel)%nat ->
    fromBuffer_loop fuel (toBuffer s) acc = Ok (acc ++ s).
Proof.
  induction s as [|c s IH]; intros fuel acc Hall Hfuel.
  - destruct fuel; simpl; now rewrite app_nil_r.
  - inversion Hall as [|? ? Hc Hs]; subst.
    change (toBuffer (c :: s)) with (chunk_toBuffer c ++ toBuffer s) in *.
    pose proof (chunk_toBuffer_nonempty c) as Hne.
    rewrite length_app in Hfuel.
    destruct fuel as [|fuel]; [lia|].
    destruct (chunk_toBuffer c ++ toBuffer s) as [|x l] eqn:E.
    { apply (f_equal (@List.length byte)) in E. rewrite length_app in E.
      simpl in E. lia. }
    cbn [fromBuffer_loop BufferReader.eof]. rewrite <- E.
    rewrite (fromBuffer_step_exact c _ Hc). cbn [bind].
    rewrite IH by (auto; lia). now rewrite <- app_assoc.
Qed.

Lemma fromBuffer_toBuffer_exact (s : Script) :
  Forall exact_chunk s -> fromBuffer (toBuffer s) = Ok s.
Proof.
  intros H. unfold fromBuffer. now rewrite fromBuffer_loop_exact.
Qed.

Lemma fromBuffer_toBuffer_parsed (b : bytes) (s : Script) :
  fromBuffer b = Ok s -> fromBuffer (toBuffer s) = Ok s.
Proof.
  intros H. pose proof H as H'. unfold fromBuffer in H'.
  apply fromBuffer_loop_sound in H'. destruct H' as (news & -> & Hb & _).
  simpl. now rewrite Hb.
Qed.

(** X2. Parsing what the serializer wrote gives the script back, when every
    chunk is a bare opcode byte outside 1..0x4e or a push whose opcode fits
    its length and whose payload has exactly the declared length, and also
    when the script came from the parser.  So [new Script(s)], which parses
    [s.toBuffer()], is then a copy equal to [s]. *)
Theorem X2_parse_of_serialized (s : Script) :
  Forall exact_chunk s \/ (exists b, fromBuffer b = Ok s) ->
  fromBuffer (toBuffer s) = Ok s /\
  forall hash, Script_new hash (FromScript s) = Returned s.
Proof.
  intros H.
  assert (E : fromBuffer (toBuffer s) = Ok s).
  { destruct H as [H|[b H]];
      [now apply fromBuffer_toBuffer_exact
      |now apply (fromBuffer_toBuffer_parsed b)]. }
  split; [exact E|]. intros hash. simpl. now rewrite E.
Qed.

(** ** The hexadecimal shortcut of [fromString] *)

Lemma hex_pair_is_hex (x : byte) :
  is_digit_of 16 (hex_digit (Byte.to_N x / 16)) = true /\
  is_digit_of 16 (hex_digit (Byte.to_N x mod 16)) = true.
Proof. destruct x; split; reflexivity. Qed.

Lemma all_hex_of_bytes (b : bytes) : all_hex (hex_of_bytes b) = true.
Proof.
  induction b as [|x b IH]; [reflexivity|]. cbn [hex_of_bytes all_hex].
  destruct (hex_pair_is_hex x) as [-> ->]. exact IH.
Qed.

(** X3. The text made of the hexadecimal digits of a non-empty byte sequence
    is parsed by [fromString] as those bytes are by [fromBuffer]: same
    script, or same failure. *)
Theorem X3_fromString_of_hex (b : bytes) :
  b <> [] -> fromString (hex_of_bytes b) = fromBuffer b.
Proof.
  intros Hb. unfold fromString.
  assert (Hx : isHexa (hex_of_bytes b) = true).
  { destruct b as [|x b]; [congruence|].
    change (isHexa (hex_of_bytes (x :: b)))
      with (all_hex (hex_of_bytes (x :: b))).
    apply all_hex_of_bytes. }
  rewrite Hx, Buffer_from_hex_of_bytes. reflexivity.
Qed.

(** ** [removeCodeseparators] *)

Lemma removeCodeseparators_app (a b : Script) :
  removeCodeseparators (a ++ b)
  = removeCodeseparators a ++ removeCodeseparators b.
Proof. unfold removeCodeseparators. apply filter_app. Qed.

(** X4. [removeCodeseparators] leaves no chunk whose opcode is
    OP_CODESEPARATOR and keeps every other chunk in the order they had; a
    second call changes nothing; of a script made by the parser it keeps
    every push chunk, so a byte 0xab inside a payload stays; and a script
    that parses back from its own bytes still does so afterwards. *)
Theorem X4_removeCodeseparators (this : Script) :
  Forall (fun c => num_eqb (item_opcodenum c) Opcode.OP_CODESEPARATOR = false)
         (removeCodeseparators this) /\
  (forall pre c post, this = pre ++ c :: post ->
     removeCodeseparators this
     = removeCodeseparators pre ++
       (if num_eqb (item_opcodenum c) Opcode.OP_CODESEPARATOR then []
        else [c]) ++ removeCodeseparators post) /\
  removeCodeseparators (removeCodeseparators this) = removeCodeseparators this /\
  (Forall parsed_chunk this ->
   forall c, In c this -> item_buf c <> None ->
             In c (removeCodeseparators this)) /\
  (Forall exact_chunk this ->
   fromBuffer (toBuffer (removeCodeseparators this))
   = Ok (removeCodeseparators this)).
Proof.
  split; [|split; [|split; [|split]]].
  - apply Forall_forall. intros c Hc. unfold removeCodeseparators in Hc.
    apply filter_In in Hc. destruct Hc as [_ Hc]. now apply negb_true_iff.
  - intros pre c post ->. rewrite removeCodeseparators_app.
    f_equal. change (c :: post) with ([c] ++ post).
    rewrite removeCodeseparators_app. f_equal.
    unfold removeCodeseparators. simpl.
    now destruct (num_eqb (item_opcodenum c) Opcode.OP_CODESEPARATOR).
  - unfold removeCodeseparators. induction this as [|c s IH]; [reflexivity|].
    simpl. destruct (negb _) eqn:E; [|exact IH]. simpl. rewrite E. now f_equal.
  - intros Hall c Hc Hbuf. unfold removeCodeseparators.
    apply filter_In. split; [exact Hc|].
    rewrite Forall_forall in Hall.
    destruct (Hall c Hc) as [(op & -> & _)|(op & l & b & -> & Hs & _)];
      [now contradiction Hbuf|].
    cbn [push item_opcodenum opcodenum num_eqb]. apply negb_true_iff.
    apply Z.eqb_neq.
    unfold push_shape, Opcode.OP_PUSHDATA1, Opcode.OP_PUSHDATA2,
      Opcode.OP_PUSHDATA4, Opcode.OP_CODESEPARATOR in *. lia.
  - intros Hall. apply fromBuffer_toBuffer_exact.
    apply Forall_forall. intros c Hc. unfold removeCodeseparators in Hc.
    apply filter_In in Hc. rewrite Forall_forall in Hall. now apply Hall.
Qed.

(** ** [isPushOnly] *)

Lemma isPushOnly_insert (c : item) (front : bool) (s : Script) :
  isPushOnly (_insertAtPosition c front s)
  = num_leb (item_opcodenum c) Opcode.OP_16 && isPushOnly s.
Proof.
  unfold _insertAtPosition, isPushOnly. destruct front; [reflexivity|].
  rewrite forallb_app. simpl. rewrite andb_true_r. apply andb_comm.
Qed.

Lemma push_opcode_le_78 (L : Z) : 0 < L -> L < 76 \/ 76 <= push_opcode L <= 78.
Proof.
  intros HL. unfold push_opcode, Opcode.OP_PUSHDATA1, Opcode.OP_PUSHDATA2,
    Opcode.OP_PUSHDATA4.
  destruct (L <? 76) eqn:E; [apply Z.ltb_lt in E; now left|right].
  destruct (L <? 2 ^ 8); [lia|]. destruct (L <? 2 ^ 16); lia.
Qed.

Lemma add_buffer_result (b : bytes) (front : bool) (s s' : Script) :
  _addByType (VBuffer b) front s = Ok s' ->
  (blen b = 0 /\ s' = s) \/
  (0 < blen b < 2 ^ 32 /\
   s' = _insertAtPosition
          (push (Num (push_opcode (blen b))) (Num (blen b)) b) front s).
Proof.
  unfold _addByType.
  cbn [_addByType_branch typeof jstype_eqb constructor_is_Opcode isBuffer
       bind buffer_of].
  unfold _addBuffer, push_opcode, Opcode.OP_PUSHDATA1.
  assert (Hpos : 0 <= blen b) by (unfold blen; lia).
  destruct (blen b =? 0) eqn:E0.
  { apply Z.eqb_eq in E0. intros H. injection H as <-. now left. }
  apply Z.eqb_neq in E0.
  destruct (0 <? blen b) eqn:E1; [|apply Z.ltb_ge in E1; lia].
  destruct (blen b <? 76) eqn:E2; cbn [andb bind].
  { apply Z.ltb_lt in E2. intros H. injection H as <-. right.
    split; [change (2 ^ 32) with 4294967296; lia|reflexivity]. }
  destruct (blen b <? 2 ^ 8) eqn:E3; cbn [bind].
  { apply Z.ltb_lt in E3. intros H. injection H as <-. right.
    split; [change (2 ^ 8) with 256 in E3;
            change (2 ^ 32) with 4294967296; lia|reflexivity]. }
  destruct (blen b <? 2 ^ 16) eqn:E4; cbn [bind].
  { apply Z.ltb_lt in E4. intros H. injection H as <-. right.
    split; [change (2 ^ 16) with 65536 in E4;
            change (2 ^ 32) with 4294967296; lia|reflexivity]. }
  destruct (blen b <? 2 ^ 32) eqn:E5; cbn [bind]; [|discriminate].
  apply Z.ltb_lt in E5. intros H. injection H as <-. right.
  split; [lia|reflexivity].
Qed.

(** X5. Adding or prepending a byte payload keeps a script push-only, since
    the opcode chosen for it is at most OP_PUSHDATA4; adding or prepending an
    opcode by number keeps it push-only exactly when the number is at most
    OP_16 (so OP_1NEGATE and OP_RESERVED count as pushes). *)
Theorem X5_isPushOnly_add (this : Script) (front : bool) :
  (forall b s', _addByType (VBuffer b) front this = Ok s' ->
                isPushOnly s' = isPushOnly this) /\
  (forall z, exists s', _addByType (VNumber z) front this = Ok s' /\
                isPushOnly s' = (z <=? Opcode.OP_16) && isPushOnly this).
Proof.
  split.
  - intros b s' H. apply add_buffer_result in H.
    destruct H as [[_ ->]|[HL ->]]; [reflexivity|].
    rewrite isPushOnly_insert.
    replace (num_leb _ _) with true; [reflexivity|]. symmetry.
    cbn [push item_opcodenum opcodenum num_leb]. apply Z.leb_le.
    unfold Opcode.OP_16.
    destruct (push_opcode_le_78 (blen b)) as [H|H]; [lia| |lia].
    unfold push_opcode, Opcode.OP_PUSHDATA1.
    replace (blen b <? 76) with true by (symmetry; apply Z.ltb_lt; lia). lia.
  - intros z. eexists. split; [reflexivity|]. apply isPushOnly_insert.
Qed.

(** ** The builders and the classifier *)

Lemma add_payload_ok (b : bytes) (front : bool) (s : Script) :
  pushable b ->
  _addByType (VBuffer b) front s
  = Ok (_insertAtPosition (payload_push b) front s).
Proof.
  intros HL. unfold pushable in HL.
  destruct (_addByType (VBuffer b) front s) as [s'|e] eqn:E.
  - apply add_buffer_result in E. destruct E as [[E _]|[_ ->]]; [lia|].
    reflexivity.
  - exfalso. revert E. unfold _addByType.
    cbn [_addByType_branch typeof jstype_eqb constructor_is_Opcode isBuffer
         bind buffer_of].
    unfold _addBuffer.
    replace (blen b =? 0) with false by (symmetry; apply Z.eqb_neq; lia).
    destruct ((0 <? blen b) && (blen b <? Opcode.OP_PUSHDATA1));
      [discriminate|].
    destruct (blen b <? 2 ^ 8); [discriminate|].
    destruct (blen b <? 2 ^ 16); [discriminate|].
    replace (blen b <? 2 ^ 32) with true by (symmetry; apply Z.ltb_lt; lia).
    discriminate.
Qed.

Lemma payload_push_exact (b : bytes) : pushable b -> exact_chunk (payload_push b).
Proof.
  intros HL. right. exists (push_opcode (blen b)), b.
  split; [reflexivity|]. now apply push_opcode_shape.
Qed.

Lemma payload_push_opcode (b : bytes) :
  pushable b -> 1 <= push_opcode (blen b) <= 78.
Proof.
  intros HL. unfold pushable in HL.
  destruct (push_opcode_le_78 (blen b)) as [H|H]; [lia| |lia].
  unfold push_opcode, Opcode.OP_PUSHDATA1.
  replace (blen b <? 76) with true by (symmetry; apply Z.ltb_lt; lia). lia.
Qed.

Lemma payload_push_20 (h : bytes) :
  blen h = 20 -> payload_push h = push (Num 20) (Num 20) h.
Proof. intros H. unfold payload_push. rewrite H. reflexivity. Qed.

Lemma buildScriptHashOut_from_result (hash : bytes -> bytes) (ser : bytes) :
  blen (hash ser) = 20 ->
  buildScriptHashOut_from hash ser
  = Ok [bare (Num Opcode.OP_HASH160); push (Num 20) (Num 20) (hash ser);
        bare (Num Opcode.OP_EQUAL)].
Proof.
  intros H. unfold buildScriptHashOut_from, add.
  change (_addByType (VNumber Opcode.OP_HASH160) false [])
    with (Ok [bare (Num Opcode.OP_HASH160)]).
  cbn [bind]. rewrite add_payload_ok by (unfold pushable; rewrite H; lia).
  rewrite (payload_push_20 _ H). reflexivity.
Qed.

Lemma classify_scripthash_out (h : bytes) :
  blen h = 20 ->
  classify [bare (Num Opcode.OP_HASH160); push (Num 20) (Num 20) h;
            bare (Num Opcode.OP_EQUAL)] = Ok SCRIPTHASH_OUT.
Proof.
  intros H. rewrite classify_unfold.
  unfold isPublicKeyOut, isPublicKeyIn, isPublicKeyHashOut, isPublicKeyHashIn,
    isMultisigOut, isMultisigIn, isScriptHashOut.
  cbn. rewrite H. reflexivity.
Qed.

(** X6. [buildScriptHashOut] (and [toScriptHashOut], which calls it) gives,
    for a hash function with 20-byte digests, the three chunks OP_HASH160,
    a push of the digest of the redeem script's serialization, OP_EQUAL;
    the result is classified as a script-hash output, is standard, is
    serialized as a9 14 digest 87, and parses back from these bytes. *)
Theorem X6_buildScriptHashOut (hash : bytes -> bytes) (script : Script) :
  blen (hash (toBuffer script)) = 20 ->
  exists s,
    buildScriptHashOut hash script = Ok s /\
    toScriptHashOut hash script = Ok s /\
    s = [bare (Num Opcode.OP_HASH160);
         push (Num 20) (Num 20) (hash (toBuffer script));
         bare (Num Opcode.OP_EQUAL)] /\
    classify s = Ok SCRIPTHASH_OUT /\
    isStandard s = Ok true /\
    toBuffer s = [xa9; x14] ++ hash (toBuffer script) ++ [x87] /\
    fromBuffer (toBuffer s) = Ok s.
Proof.
  intros H. eexists.
  split; [exact (buildScriptHashOut_from_result hash _ H)|].
  split; [exact (buildScriptHashOut_from_result hash _ H)|].
  split; [reflexivity|].
  split; [now apply classify_scripthash_out|].
  split; [unfold isStandard; now rewrite classify_scripthash_out|].
  split; [unfold toBuffer; cbn; reflexivity|].
  apply fromBuffer_toBuffer_exact.
  apply Forall_cons; [|apply Forall_cons; [|apply Forall_cons; [|constructor]]].
  - left. exists Opcode.OP_HASH160. split; [reflexivity|].
    unfold bare_shape, Opcode.OP_HASH160. lia.
  - rewrite <- (payload_push_20 _ H). apply payload_push_exact.
    unfold pushable. rewrite H. lia.
  - left. exists Opcode.OP_EQUAL. split; [reflexivity|].
    unfold bare_shape, Opcode.OP_EQUAL. lia.
Qed.







(** A script of the form: one chunk, some chunks [mid], two chunks. *)
Lemma framed_length (x a b : item) (mid : Script) :
  List.length (x :: mid ++ [a; b]) = (3 + List.length mid)%nat.
Proof. cbn [List.length]. rewrite length_app. cbn [List.length]. lia. Qed.

Lemma framed_slice (x a b : item) (mid : Script) :
  slice 1 (3 + List.length mid - 2) (x :: mid ++ [a; b]) = mid.
Proof.
  unfold slice. cbn [skipn].
  replace (3 + List.length mid - 2 - 1)%nat with (List.length mid + 0)%nat
    by lia.
  rewrite firstn_app_2. cbn [firstn]. apply app_nil_r.
Qed.

Lemma framed_nth (x a b : item) (mid : Script) :
  nth_error (x :: mid ++ [a; b]) (3 + List.length mid - 2) = Some a /\
  nth_error (x :: mid ++ [a; b]) (3 + List.length mid - 1) = Some b.
Proof.
  replace (3 + List.length mid - 2)%nat with (S (List.length mid + 0)) by lia.
  replace (3 + List.length mid - 1)%nat with (S (List.length mid + 1)) by lia.
  cbn [nth_error]. rewrite !nth_error_app2 by lia.
  replace (List.length mid + 0 - List.length mid)%nat with 0%nat by lia.
  replace (List.length mid + 1 - List.length mid)%nat with 1%nat by lia.
  split; reflexivity.
Qed.

(** The test [isMultisigOut] on such a script with a non-empty middle. *)
Lemma isMultisigOut_framed (x a b : item) (mid : Script) :
  mid <> [] ->
  isMultisigOut (x :: mid ++ [a; b])
  = Opcode.isSmallIntOp (item_opcodenum x) &&
    forallb (fun c => truthy (item_buf c)) mid &&
    Opcode.isSmallIntOp (item_opcodenum a) &&
    num_eqb (item_opcodenum b) Opcode.OP_CHECKMULTISIG.
Proof.
  intros Hmid. unfold isMultisigOut, opcodenum_at.
  rewrite framed_length, framed_slice.
  destruct (framed_nth x a b mid) as [-> ->].
  cbn [nth_error].
  replace (3 <? 3 + List.length mid)%nat with true
    by (symmetry; apply Nat.ltb_lt; destruct mid; [congruence|cbn; lia]).
  cbn [andb]. do 3 f_equal.
  clear Hmid. induction mid as [|c t IH]; cbn [forallb]; [reflexivity|].
  rewrite IH. now destruct (truthy (item_buf c)).
Qed.














(** A tag other than UNKNOWN is returned only when its test holds. *)
Lemma classify_tag (this : Script) (t : stype) :
  classify this = Ok t -> t = UNKNOWN \/ identifier t this = Ok true.
Proof.
  rewrite classify_unfold.
  destruct (isPublicKeyOut this) eqn:E1.
  { intros H. injection H as <-. right. cbn [identifier]. now rewrite E1. }
  destruct (isPublicKeyIn this) eqn:E2.
  { intros H. injection H as <-. right. cbn [identifier]. now rewrite E2. }
  destruct (isPublicKeyHashOut this) eqn:E3.
  { intros H. injection H as <-. right. cbn [identifier]. now rewrite E3. }
  destruct (isPublicKeyHashIn this) eqn:E4.
  { intros H. injection H as <-. right. cbn [identifier]. now rewrite E4. }
  destruct (isMultisigOut this) eqn:E5.
  { intros H. injection H as <-. right. cbn [identifier]. now rewrite E5. }
  destruct (isMultisigIn this) eqn:E6.
  { intros H. injection H as <-. right. cbn [identifier]. now rewrite E6. }
  destruct (isScriptHashOut this) eqn:E7.
  { intros H. injection H as <-. right. cbn [identifier]. now rewrite E7. }
  destruct (isScriptHashIn this) as [[|]|e] eqn:E8; cbn [bind];
    [| |discriminate].
  { intros H. injection H as <-. right. exact E8. }
  destruct (isDataOut this) eqn:E9.
  { intros H. injection H as <-. right. cbn [identifier]. now rewrite E9. }
  intros H. injection H as <-. now left.
Qed.

Lemma blen_app (a b : bytes) : blen (a ++ b) = blen a + blen b.
Proof. unfold blen. rewrite length_app. lia. Qed.

Lemma payload_push_not (b : bytes) (op : Z) :
  pushable b -> 78 < op ->
  num_eqb (item_opcodenum (payload_push b)) op = false.
Proof.
  intros Hb Hop. cbn [payload_push push item_opcodenum opcodenum num_eqb].
  apply Z.eqb_neq. pose proof (payload_push_opcode b Hb). lia.
Qed.

Lemma payload_push_not_0 (b : bytes) :
  pushable b -> num_eqb (item_opcodenum (payload_push b)) 0 = false.
Proof.
  intros Hb. cbn [payload_push push item_opcodenum opcodenum num_eqb].
  apply Z.eqb_neq. pose proof (payload_push_opcode b Hb). lia.
Qed.

Lemma payload_push_le_16 (b : bytes) :
  pushable b ->
  num_leb (item_opcodenum (payload_push b)) Opcode.OP_16 = true.
Proof.
  intros Hb. cbn [payload_push push item_opcodenum opcodenum num_leb].
  apply Z.leb_le. pose proof (payload_push_opcode b Hb).
  unfold Opcode.OP_16. lia.
Qed.

(** X8. [buildPublicKeyOut], for a key whose buffer is not empty and shorter
    than 2^32 bytes, gives a push of the key's bytes and OP_CHECKSIG; the
    result is classified as a public-key output exactly when
    [PublicKey.isValid] accepts the pushed bytes, and as unknown when it
    accepts neither these bytes nor an undefined value; it is not push-only
    and parses back from its bytes. *)
Theorem X8_buildPublicKeyOut (pubkey : PublicKey) :
  pushable (PublicKey_toBuffer pubkey) ->
  exists s,
    buildPublicKeyOut pubkey = Ok s /\
    s = [payload_push (PublicKey_toBuffer pubkey);
         bare (Num Opcode.OP_CHECKSIG)] /\
    (classify s = Ok PUBKEY_OUT <->
     PublicKey_isValid (Some (PublicKey_toBuffer pubkey)) = true) /\
    (PublicKey_isValid (Some (PublicKey_toBuffer pubkey)) = false ->
     PublicKey_isValid None = false -> classify s = Ok UNKNOWN) /\
    isPushOnly s = false /\
    fromBuffer (toBuffer s) = Ok s.
Proof.
  intros Hk. set (kb := PublicKey_toBuffer pubkey) in *.
  assert (Ht : isPublicKeyOut [payload_push kb; bare (Num Opcode.OP_CHECKSIG)]
               = PublicKey_isValid (Some kb)).
  { unfold isPublicKeyOut. cbn. now rewrite andb_true_r. }
  eexists. split.
  { unfold buildPublicKeyOut, add. fold kb.
    rewrite (add_payload_ok _ false [] Hk). reflexivity. }
  split; [reflexivity|]. cbn [_insertAtPosition app].
  split; [|split; [|split]].
  - split.
    + intros H. apply classify_tag in H. destruct H as [H|H]; [discriminate|].
      cbn [identifier] in H. injection H as H. now rewrite Ht in H.
    + intros H. rewrite classify_unfold, Ht, H. reflexivity.
  - intros Hv Hn. rewrite classify_unfold, Ht, Hv.
    unfold isPublicKeyIn, isPublicKeyHashOut, isPublicKeyHashIn, isMultisigOut,
      isMultisigIn, isScriptHashOut, isScriptHashIn, isScriptHashIn_with,
      isDataOut, opcodenum_at, buf_at.
    cbn [List.length Nat.eqb Nat.ltb Nat.leb andb nth_error Nat.sub orb bare
         item_buf buf bind].
    rewrite Hn, (payload_push_not_0 kb Hk).
    rewrite (payload_push_not kb Opcode.OP_RETURN Hk)
      by (unfold Opcode.OP_RETURN; lia).
    rewrite !andb_false_r. reflexivity.
  - unfold isPushOnly. cbn [forallb]. rewrite (payload_push_le_16 kb Hk).
    reflexivity.
  - apply fromBuffer_toBuffer_exact.
    constructor; [now apply payload_push_exact|].
    constructor; [|constructor].
    left. eexists. split; [reflexivity|].
    unfold bare_shape, Opcode.OP_CHECKSIG. lia.
Qed.

(** X9. [buildPublicKeyHashIn] gives two pushes: the signature followed by
    one byte for the signature type ([SIGHASH_ALL] when the type is absent
    or 0), then the key's bytes.  The result is push-only and parses back
    from its bytes; it is classified as a public-key-hash input exactly when
    the signature has 70 to 72 bytes and [PublicKey.isValid] accepts the
    key's bytes. *)
Theorem X9_buildPublicKeyHashIn (publicKey : PublicKey) (signature : bytes)
    (sigtype : jsnum) :
  blen signature + 1 < 2 ^ 32 ->
  pushable (PublicKey_toBuffer publicKey) ->
  exists s,
    buildPublicKeyHashIn publicKey signature sigtype = Ok s /\
    s = [payload_push
           (signature ++ [byte_of_Z (sigtype_or_default sigtype)]);
         payload_push (PublicKey_toBuffer publicKey)] /\
    (classify s = Ok PUBKEYHASH_IN <->
     70 <= blen signature <= 72 /\
     PublicKey_isValid (Some (PublicKey_toBuffer publicKey)) = true) /\
    isPushOnly s = true /\
    fromBuffer (toBuffer s) = Ok s.
Proof.
  intros Hsig Hk. set (kb := PublicKey_toBuffer publicKey) in *.
  set (first := signature ++ [byte_of_Z (sigtype_or_default sigtype)]).
  assert (Hlen : blen first = blen signature + 1)
    by (unfold first; now rewrite blen_app).
  assert (Hf : pushable first).
  { assert (0 <= blen signature) by (unfold blen; lia).
    unfold pushable. rewrite Hlen. lia. }
  assert (Ht : isPublicKeyHashIn [payload_push first; payload_push kb]
               = (71 <=? blen first) && (blen first <=? 73) &&
                 PublicKey_isValid (Some kb)).
  { unfold isPublicKeyHashIn. reflexivity. }
  eexists. split.
  { unfold buildPublicKeyHashIn, add, integerAsSingleByteBuffer.
    fold kb. fold first.
    rewrite (add_payload_ok _ false [] Hf). cbn [bind].
    rewrite (add_payload_ok _ false _ Hk). reflexivity. }
  split; [reflexivity|]. cbn [_insertAtPosition app].
  split; [|split].
  - split.
    + intros H. apply classify_tag in H. destruct H as [H|H]; [discriminate|].
      cbn [identifier] in H. injection H as H. rewrite Ht in H.
      apply andb_true_iff in H. destruct H as [H Hv].
      apply andb_true_iff in H. destruct H as [H1 H2].
      apply Z.leb_le in H1, H2. split; [lia|exact Hv].
    + intros [Hr Hv]. rewrite classify_unfold, Ht, Hv.
      replace (71 <=? blen first) with true by (symmetry; apply Z.leb_le; lia).
      replace (blen first <=? 73) with true by (symmetry; apply Z.leb_le; lia).
      unfold isPublicKeyOut, isPublicKeyIn, isPublicKeyHashOut, opcodenum_at.
      cbn [List.length Nat.eqb andb nth_error].
      rewrite (payload_push_not kb Opcode.OP_CHECKSIG Hk)
        by (unfold Opcode.OP_CHECKSIG; lia).
      rewrite !andb_false_r. reflexivity.
  - unfold isPushOnly. cbn [forallb].
    now rewrite (payload_push_le_16 first Hf), (payload_push_le_16 kb Hk).
  - apply fromBuffer_toBuffer_exact.
    constructor; [now apply payload_push_exact|].
    constructor; [now apply payload_push_exact|constructor].
Qed.


Lemma add_each_result (sigs : list bytes) :
  Forall pushable sigs ->
  forall s, add_each (List.map VBuffer sigs) s
            = Ok (s ++ List.map payload_push sigs).
Proof.
  intros Hl. induction Hl as [|b t Hb Ht IH]; intros s;
    cbn [add_each List.map].
  - now rewrite app_nil_r.
  - unfold add. rewrite (add_payload_ok _ false s Hb). cbn [bind].
    rewrite IH. unfold _insertAtPosition. now rewrite <- app_assoc.
Qed.

Lemma last_chunk (x c : item) (l : Script) :
  nth_error (x :: l ++ [c]) (List.length (x :: l ++ [c]) - 1) = Some c.
Proof.
  cbn [List.length]. rewrite length_app. cbn [List.length].
  replace (S (List.length l + 1) - 1)%nat with (S (List.length l)) by lia.
  cbn [nth_error]. rewrite nth_error_app2 by lia.
  now rewrite Nat.sub_diag.
Qed.



Lemma isScriptHashIn_last (x : item) (l : Script) (b : bytes) :
  isScriptHashIn (x :: l ++ [payload_push b])
  = (redeemScript <- fromBuffer b ;; isStandard redeemScript).
Proof.
  unfold isScriptHashIn, isScriptHashIn_with.
  rewrite last_chunk. cbn [List.length Nat.eqb payload_push push item_buf buf].
  destruct (fromBuffer b); reflexivity.
Qed.






Lemma buildPublicKeyHashOut_result (h : bytes) :
  pushable h ->
  buildPublicKeyHashOut h
  = Ok [bare (Num Opcode.OP_DUP); bare (Num Opcode.OP_HASH160);
        payload_push h; bare (Num Opcode.OP_EQUALVERIFY);
        bare (Num Opcode.OP_CHECKSIG)].
Proof.
  intros Hh. unfold buildPublicKeyHashOut, add.
  change (_addByType (VNumber Opcode.OP_DUP) false [])
    with (Ok [bare (Num Opcode.OP_DUP)]).
  cbn [bind].
  change (_addByType (VNumber Opcode.OP_HASH160) false
            [bare (Num Opcode.OP_DUP)])
    with (Ok [bare (Num Opcode.OP_DUP); bare (Num Opcode.OP_HASH160)]).
  cbn [bind]. rewrite (add_payload_ok _ false _ Hh). reflexivity.
Qed.

(** X11. [fromAddress] asks [isPayToScriptHash] first.  For a script-hash
    address it gives a script-hash output whose payload is the digest of the
    address's own serialization ([toBuffer()]), since the address is passed
    to [buildScriptHashOut] in the place of a script; for a public-key-hash
    address it gives a public-key-hash output from which [getPublicKeyHash]
    reads the address's [hashBuffer] back; for an address of neither kind it
    throws UnrecognizedAddress.  [new Script(address)] is the same call. *)
Theorem X11_fromAddress (hash : bytes -> bytes) (address : Address) :
  (isPayToScriptHash address = true ->
   blen (hash (Address_toBuffer address)) = 20 ->
   exists s,
     fromAddress hash address = Returned s /\
     classify s = Ok SCRIPTHASH_OUT /\
     buf_at s 1 = Some (hash (Address_toBuffer address))) /\
  (isPayToScriptHash address = false ->
   isPayToPublicKeyHash address = true ->
   pushable (hashBuffer address) ->
   exists s,
     fromAddress hash address = Returned s /\
     classify s = Ok PUBKEYHASH_OUT /\
     getPublicKeyHash s = Ok (Some (hashBuffer address), s)) /\
  (isPayToScriptHash address = false ->
   isPayToPublicKeyHash address = false ->
   fromAddress hash address = ThrownUnrecognizedAddress) /\
  Script_new hash (FromAddress address) = fromAddress hash address.
Proof.
  split; [|split; [|split]].
  - intros Hp Hlen. unfold fromAddress. rewrite Hp.
    rewrite (buildScriptHashOut_from_result hash _ Hlen).
    eexists. split; [reflexivity|].
    split; [now apply classify_scripthash_out|reflexivity].
  - intros Hp Hk Hh. unfold fromAddress. rewrite Hp, Hk.
    rewrite (buildPublicKeyHashOut_result _ Hh).
    eexists. split; [reflexivity|].
    assert (Ht : isPublicKeyHashOut
                   [bare (Num Opcode.OP_DUP); bare (Num Opcode.OP_HASH160);
                    payload_push (hashBuffer address);
                    bare (Num Opcode.OP_EQUALVERIFY);
                    bare (Num Opcode.OP_CHECKSIG)] = true) by reflexivity.
    split; [now apply isPublicKeyHashOut_classify|].
    unfold getPublicKeyHash. rewrite Ht. reflexivity.
  - intros Hp Hk. unfold fromAddress. now rewrite Hp, Hk.
  - reflexivity.
Qed.


(** ** Errors of [toString], [classify] and [add] *)

Lemma fromBuffer_parsed (b : bytes) (s : Script) :
  fromBuffer b = Ok s -> Forall parsed_chunk s.
Proof.
  unfold fromBuffer. intros H. apply fromBuffer_loop_shape in H.
  destruct H as (news & -> & H & _). exact H.
Qed.

Lemma chunk_toString_cases (c : item) :
  (forall op, is_pushdata op = true -> named registry op = true) ->
  (item_buf c = None /\ item_opcodenum c = Undefined /\
   chunk_toString c = Throw TypeError) \/
  (~ (item_buf c = None /\ item_opcodenum c = Undefined) /\
   exists t, chunk_toString c = Ok t).
Proof.
  intros Hpd. unfold chunk_toString, Opcode.toString, Opcode.ofNumber.
  cbn [Opcode.num].
  destruct (item_buf c) as [b|] eqn:Eb.
  - right. split; [intros [H _]; discriminate|].
    destruct (is_pushdata (item_opcodenum c)) eqn:Ep.
    + specialize (Hpd _ Ep). unfold named in Hpd.
      destruct (Opcode.reverseMap registry (item_opcodenum c));
        [|discriminate].
      cbn [bind]. eexists. reflexivity.
    + cbn [bind]. eexists. reflexivity.
  - destruct (item_opcodenum c) as [z| |] eqn:Eo.
    + right. split; [intros [_ H]; discriminate|].
      destruct (Opcode.reverseMap registry (Num z)); cbn [bind];
        eexists; reflexivity.
    + right. split; [intros [_ H]; discriminate|].
      cbn [Opcode.reverseMap number_toString16 bind]. eexists. reflexivity.
    + left. repeat split. 
Qed.

Lemma toString_loop_ok (this : Script) :
  (forall op, is_pushdata op = true -> named registry op = true) ->
  (forall c, In c this -> item_buf c = None ->
             item_opcodenum c <> Undefined) ->
  forall str, exists str', toString_loop this str = Ok str'.
Proof.
  intros Hpd. induction this as [|c s IH]; intros Hall str;
    cbn [toString_loop].
  - eexists. reflexivity.
  - destruct (chunk_toString_cases c Hpd) as [(Hb & Ho & _)|(_ & t & ->)].
    + exfalso. exact (Hall c (or_introl eq_refl) Hb Ho).
    + cbn [bind]. apply IH. intros c' Hc'. apply Hall. now right.
Qed.

Lemma toString_loop_throws (this : Script) :
  (forall op, is_pushdata op = true -> named registry op = true) ->
  (exists c, In c this /\ item_buf c = None /\
             item_opcodenum c = Undefined) ->
  forall str, toString_loop this str = Throw TypeError.
Proof.
  intros Hpd. induction this as [|c s IH]; intros (c' & Hin & Hb & Ho) str.
  - destruct Hin.
  - cbn [toString_loop].
    destruct (chunk_toString_cases c Hpd) as [(_ & _ & ->)|(Hn & t & ->)];
      [reflexivity|].
    cbn [bind]. apply IH. exists c'. destruct Hin as [->|Hin].
    + exfalso. apply Hn. now split.
    + now repeat split.
Qed.

(** X12. With names registered for OP_PUSHDATA1, OP_PUSHDATA2 and
    OP_PUSHDATA4, [toString] throws exactly when the script holds an element
    with neither a payload nor an opcode number, and the error is then a
    TypeError.  So it returns on every script the parser makes, and it throws
    on a script that a Script object was added to. *)
Theorem X12_toString_throws (this : Script) :
  (forall op, is_pushdata op = true -> named registry op = true) ->
  ((forall c, In c this -> item_buf c = None ->
              item_opcodenum c <> Undefined) ->
   exists str, toString this = Ok str) /\
  ((exists c, In c this /\ item_buf c = None /\
              item_opcodenum c = Undefined) ->
   toString this = Throw TypeError) /\
  (forall b, fromBuffer b = Ok this -> exists str, toString this = Ok str) /\
  (forall script s', add (VScript script) this = Ok s' ->
                     toString s' = Throw TypeError).
Proof.
  intros Hpd.
  assert (Hok : forall s, (forall c, In c s -> item_buf c = None ->
                                     item_opcodenum c <> Undefined) ->
                          exists str, toString s = Ok str).
  { intros s Hall. unfold toString.
    destruct (toString_loop_ok s Hpd Hall EmptyString) as [str' ->].
    cbn [bind]. eexists. reflexivity. }
  split; [apply Hok|]. split; [|split].
  - intros Hbad. unfold toString.
    now rewrite (toString_loop_throws this Hpd Hbad).
  - intros b Hb. apply Hok. intros c Hc Hbuf.
    pose proof (fromBuffer_parsed b this Hb) as Hp.
    rewrite Forall_forall in Hp.
    destruct (Hp c Hc) as [(op & -> & _)|(op & l & p & -> & _)];
      discriminate.
  - intros script s' Hadd. injection Hadd as <-.
    unfold toString. rewrite (toString_loop_throws _ Hpd); [reflexivity|].
    exists (ScriptObj script). split; [|now split].
    apply in_or_app. right. now left.
Qed.


Lemma buildDataOut_result (d : bytes) :
  pushable d ->
  buildDataOut (VBuffer d) = Ok [bare (Num Opcode.OP_RETURN); payload_push d].
Proof.
  intros Hd. unfold buildDataOut.
  change (add (VNumber Opcode.OP_RETURN) [])
    with (Ok [bare (Num Opcode.OP_RETURN)]).
  cbn [bind]. unfold add. now rewrite (add_payload_ok _ false _ Hd).
Qed.

(** X13. [buildDataOut] of a non-empty payload gives OP_RETURN and a push of
    the payload, for a string as for the bytes [new Buffer] makes of it.
    [classify] tests SCRIPTHASH_IN before DATA_OUT and so parses the payload
    as a script: it throws when the payload does not parse, it answers
    SCRIPTHASH_IN when the payload is a standard script, and only otherwise
    DATA_OUT (for a payload of at most 40 bytes). *)
Theorem X13_classify_data_out (d : bytes) :
  pushable d ->
  exists s,
    buildDataOut (VBuffer d) = Ok s /\
    (forall str, Buffer_from_string str = d ->
                 buildDataOut (VString str) = Ok s) /\
    s = [bare (Num Opcode.OP_RETURN); payload_push d] /\
    isDataOut s = (blen d <=? 40) /\
    classify s
    = (redeemScript <- fromBuffer d ;;
       standard <- isStandard redeemScript ;;
       Ok (if standard then SCRIPTHASH_IN
           else if blen d <=? 40 then DATA_OUT else UNKNOWN)).
Proof.
  intros Hd. eexists. split; [now apply buildDataOut_result|].
  split.
  { intros str <-. unfold buildDataOut at 1.
    exact (buildDataOut_result _ Hd). }
  split; [reflexivity|].
  assert (Hdata : isDataOut [bare (Num Opcode.OP_RETURN); payload_push d]
                  = (blen d <=? 40)).
  { unfold isDataOut. cbn. now rewrite andb_true_r. }
  split; [exact Hdata|].
  rewrite classify_unfold, Hdata.
  change [bare (Num Opcode.OP_RETURN); payload_push d]
    with (bare (Num Opcode.OP_RETURN) :: [] ++ [payload_push d]).
  rewrite isScriptHashIn_last.
  destruct (fromBuffer d) as [r|e]; cbn [bind]; [|reflexivity].
  destruct (isStandard r) as [[|]|e]; cbn [bind]; try reflexivity.
  now destruct (blen d <=? 40).
Qed.

(** X14. [classify] throws only through its SCRIPTHASH_IN test: the error
    is Truncated, none of the seven tests before it holds, the last chunk
    has a payload, and this payload either does not parse or parses to a
    script on which [classify] throws. *)
Theorem X14_classify_throws (this : Script) (e : error) :
  classify this = Throw e ->
  e = Truncated /\
  isScriptHashIn this = Throw e /\
  first_match [PUBKEY_OUT; PUBKEY_IN; PUBKEYHASH_OUT; PUBKEYHASH_IN;
               MULTISIG_OUT; MULTISIG_IN; SCRIPTHASH_OUT] this = Ok UNKNOWN /\
  exists c b,
    nth_error this (List.length this - 1) = Some c /\
    item_buf c = Some b /\
    (fromBuffer b = Throw e \/
     exists r, fromBuffer b = Ok r /\ classify r = Throw e).
Proof.
  intros H.
  assert (He : e = Truncated).
  { destruct (classify_total this) as [[t Ht]|Ht]; congruence. }
  split; [exact He|].
  rewrite classify_unfold in H.
  cbn [first_match identifier bind].
  destruct (isPublicKeyOut this); [discriminate|].
  destruct (isPublicKeyIn this); [discriminate|].
  destruct (isPublicKeyHashOut this); [discriminate|].
  destruct (isPublicKeyHashIn this); [discriminate|].
  destruct (isMultisigOut this); [discriminate|].
  destruct (isMultisigIn this); [discriminate|].
  destruct (isScriptHashOut this); [discriminate|].
  destruct (isScriptHashIn this) as [b|e'] eqn:Hin; cbn [bind] in H.
  { destruct b; [discriminate|]. destruct (isDataOut this); discriminate. }
  injection H as ->. split; [reflexivity|]. split; [reflexivity|].
  unfold isScriptHashIn, isScriptHashIn_with in Hin.
  destruct (List.length this =? 0)%nat; [discriminate|].
  destruct (nth_error this (List.length this - 1)) as [c|]; [|discriminate].
  destruct (item_buf c) as [b|] eqn:Eb; [|discriminate].
  exists c, b. split; [reflexivity|]. split; [exact Eb|].
  destruct (fromBuffer b) as [r|e']; cbn [bind] in Hin.
  - right. exists r. split; [reflexivity|].
    destruct (classify r); [discriminate|]. cbn [bind] in Hin. congruence.
  - left. congruence.
Qed.



(** * Properties of lib/transaction/input/input.js *)

Lemma fromBuffer_toBuffer (b : bytes) (s : Script) :
  fromBuffer b = Ok s -> toBuffer s = b.
Proof.
  unfold fromBuffer. intros H.
  apply fromBuffer_loop_sound in H. destruct H as (news & -> & Hb & _).
  exact Hb.
Qed.

Lemma chunks_at_app_l (h : heap) (s : Script) (r : ref) :
  (r < List.length h)%nat -> chunks_at (h ++ [s]) r = chunks_at h r.
Proof. intros Hr. unfold chunks_at. now apply app_nth1. Qed.

Lemma chunks_at_new (h : heap) (s : Script) :
  chunks_at (h ++ [s]) (List.length h) = s.
Proof.
  unfold chunks_at. rewrite app_nth2 by lia. now rewrite Nat.sub_diag.
Qed.

(** X16. The [script] getter of an Input after [setScript].  Given a Script
    object, [setScript] keeps the object and its serialization, and the
    getter returns that same object without parsing.  Given a Buffer, it
    keeps the bytes and clears the cached object; the first read of the
    getter parses the bytes into a new object (throwing what the parser
    throws), whose serialization is the bytes kept, and leaves the objects
    there were untouched; later reads return this object again.  Any other
    argument throws a TypeError. *)
Theorem X16_input_script_cache (h : heap) (this : Input) :
  (forall r i1,
     setScript (ArgScript r) h this = Ok i1 ->
     Input_script h i1 = Ok (r, h, i1) /\
     _scriptBuffer i1 = Some (toBuffer (chunks_at h r))) /\
  (forall b i1 r h' i2,
     setScript (ArgBuffer b) h this = Ok i1 ->
     Input_script h i1 = Ok (r, h', i2) ->
     r = List.length h /\
     fromBuffer b = Ok (chunks_at h' r) /\
     toBuffer (chunks_at h' r) = b /\
     _scriptBuffer i2 = Some b /\
     (forall r0, (r0 < List.length h)%nat ->
                 chunks_at h' r0 = chunks_at h r0) /\
     Input_script h' i2 = Ok (r, h', i2)) /\
  (forall b i1 e,
     setScript (ArgBuffer b) h this = Ok i1 ->
     fromBuffer b = Throw e -> Input_script h i1 = Throw e) /\
  setScript ArgOther h this = Throw TypeError.
Proof.
  split; [|split; [|split]].
  - intros r i1 H. injection H as <-. split; reflexivity.
  - intros b i1 r h' i2 H Hg. injection H as <-.
    unfold Input_script in Hg. cbn [_script _scriptBuffer] in Hg.
    destruct (fromBuffer b) as [s|e] eqn:Hb; cbn [bind] in Hg;
      [|discriminate].
    injection Hg as <- <- <-.
    rewrite chunks_at_new.
    split; [reflexivity|]. split; [reflexivity|].
    split; [now apply fromBuffer_toBuffer|]. split; [reflexivity|].
    split; [intros r0 Hr0; now apply chunks_at_app_l|reflexivity].
  - intros b i1 e H Hb. injection H as <-.
    unfold Input_script. cbn [_script _scriptBuffer]. now rewrite Hb.
  - reflexivity.
Qed.

Lemma chunks_at_update (h : heap) (r : ref) (s : Script) :
  (r < List.length h)%nat ->
  chunks_at (firstn r h ++ s :: skipn (S r) h) r = s.
Proof.
  intros Hr. unfold chunks_at.
  rewrite app_nth2 by (rewrite length_firstn; lia).
  rewrite length_firstn.
  replace (r - Nat.min r (List.length h))%nat with 0%nat by lia.
  reflexivity.
Qed.

Lemma app_neq_self {A} (l x : list A) : x <> [] -> l <> l ++ x.
Proof.
  intros Hx E. apply Hx.
  rewrite <- (app_nil_r l) in E at 1. apply app_inv_head in E. now symmetry.
Qed.

(** X17. [setScript] with a Script object stores the bytes the object has
    at that moment, and the object itself.  When a payload is then added to
    that object, the getter [script] returns the object with the new chunk,
    while [_scriptBuffer], which is what [toBufferWriter] writes, still holds
    the earlier bytes: the two no longer agree. *)
Theorem X17_setScript_snapshot (h h2 : heap) (this i1 : Input) (r : ref)
    (b : bytes) :
  (r < List.length h)%nat ->
  pushable b ->
  setScript (ArgScript r) h this = Ok i1 ->
  add_at r (VBuffer b) h = Ok h2 ->
  Input_script h2 i1 = Ok (r, h2, i1) /\
  chunks_at h2 r = chunks_at h r ++ [payload_push b] /\
  _scriptBuffer i1 = Some (toBuffer (chunks_at h r)) /\
  _scriptBuffer i1 <> Some (toBuffer (chunks_at h2 r)) /\
  (forall other prev, prevTxId this = TxidBuffer prev ->
     toBufferWriter other i1
     = Ok (writeReverse prev ++
           BufferWriter.writeUInt32LE (outputIndex this) ++
           writeVarintNum (blen (toBuffer (chunks_at h r))) ++
           toBuffer (chunks_at h r) ++
           BufferWriter.writeUInt32LE (sequenceNumber this))).
Proof.
  intros Hr Hb Hset Hadd. injection Hset as <-.
  unfold add_at, add in Hadd. rewrite (add_payload_ok _ false _ Hb) in Hadd.
  cbn [bind] in Hadd. injection Hadd as <-.
  rewrite (chunks_at_update _ _ _ Hr). unfold _insertAtPosition.
  split; [reflexivity|]. split; [reflexivity|]. split; [reflexivity|].
  split.
  - cbn [_scriptBuffer]. intros E. injection E as E.
    rewrite toBuffer_app in E. revert E. apply app_neq_self.
    unfold toBuffer. cbn [flat_map]. rewrite app_nil_r.
    pose proof (chunk_toBuffer_nonempty (payload_push b)) as Hn.
    destruct (chunk_toBuffer (payload_push b)); [simpl in Hn; lia|discriminate].
  - intros other prev Ht. unfold toBufferWriter.
    cbn [prevTxId _scriptBuffer outputIndex sequenceNumber]. now rewrite Ht.
Qed.


Lemma readUInt16LE_write (z : Z) (rest : bytes) :
  0 <= z < 2 ^ 16 ->
  BufferReader.readUInt16LE (BufferWriter.writeUInt16LE (Num z) ++ rest)
  = Ok (z, rest).
Proof.
  intros Hz. change (2 ^ 16) with 65536 in Hz.
  unfold BufferWriter.writeUInt16LE, BufferReader.readUInt16LE.
  cbn [BufferWriter.int_of app]. rewrite !byte_to_of_Z.
  replace (z mod 256 + 256 * ((z / 256) mod 256)) with z
    by (Z.div_mod_to_equations; lia).
  reflexivity.
Qed.

Lemma readUInt32LE_write (z : Z) (rest : bytes) :
  0 <= z < 2 ^ 32 ->
  BufferReader.readUInt32LE (BufferWriter.writeUInt32LE (Num z) ++ rest)
  = Ok (z, rest).
Proof.
  intros Hz. change (2 ^ 32) with 4294967296 in Hz.
  unfold BufferWriter.writeUInt32LE, BufferReader.readUInt32LE.
  cbn [BufferWriter.int_of app]. rewrite !byte_to_of_Z.
  replace (z mod 256 + 256 * ((z / 256) mod 256)
           + 65536 * ((z / 65536) mod 256)
           + 16777216 * ((z / 16777216) mod 256)) with z
    by (Z.div_mod_to_equations; lia).
  reflexivity.
Qed.

Lemma readVarintNum_write (n : Z) (rest : bytes) :
  0 <= n < 2 ^ 64 ->
  readVarintNum (writeVarintNum n ++ rest) = Ok (n, rest).
Proof.
  intros Hn. change (2 ^ 64) with 18446744073709551616 in Hn.
  unfold writeVarintNum, readVarintNum.
  destruct (n <? 253) eqn:E1.
  { apply Z.ltb_lt in E1. unfold BufferWriter.writeUInt8.
    cbn [BufferWriter.int_of app BufferReader.readUInt8 bind].
    rewrite byte_to_of_Z, Z.mod_small by lia.
    replace (n =? 253) with false by (symmetry; apply Z.eqb_neq; lia).
    replace (n =? 254) with false by (symmetry; apply Z.eqb_neq; lia).
    replace (n =? 255) with false by (symmetry; apply Z.eqb_neq; lia).
    reflexivity. }
  apply Z.ltb_ge in E1.
  destruct (n <? 2 ^ 16) eqn:E2.
  { apply Z.ltb_lt in E2.
    change ((xfd :: BufferWriter.writeUInt16LE (Num n)) ++ rest)
      with (xfd :: (BufferWriter.writeUInt16LE (Num n) ++ rest)).
    cbn [BufferReader.readUInt8 bind].
    change (byte_to_Z xfd =? 253) with true. cbv iota.
    apply readUInt16LE_write. lia. }
  apply Z.ltb_ge in E2.
  destruct (n <? 2 ^ 32) eqn:E3.
  { apply Z.ltb_lt in E3.
    change ((xfe :: BufferWriter.writeUInt32LE (Num n)) ++ rest)
      with (xfe :: (BufferWriter.writeUInt32LE (Num n) ++ rest)).
    cbn [BufferReader.readUInt8 bind].
    change (byte_to_Z xfe =? 253) with false.
    change (byte_to_Z xfe =? 254) with true. cbv iota.
    apply readUInt32LE_write. lia. }
  apply Z.ltb_ge in E3.
  change (2 ^ 32) with 4294967296 in *.
  rewrite <- app_comm_cons, <- app_assoc.
  cbn [BufferReader.readUInt8 bind].
  change (byte_to_Z xff =? 253) with false.
  change (byte_to_Z xff =? 254) with false.
  change (byte_to_Z xff =? 255) with true. cbv iota.
  rewrite readUInt32LE_write
    by (change (2 ^ 32) with 4294967296; Z.div_mod_to_equations; lia).
  cbn [bind].
  rewrite readUInt32LE_write
    by (change (2 ^ 32) with 4294967296; Z.div_mod_to_equations; lia).
  cbn [bind]. f_equal. f_equal. Z.div_mod_to_equations; lia.
Qed.

Lemma blen_rev (b : bytes) : blen (rev b) = blen b.
Proof. unfold blen. now rewrite length_rev. Qed.

Lemma readReverse_write (b rest : bytes) :
  readReverse (blen b) (writeReverse b ++ rest) = Ok (b, rest).
Proof.
  unfold readReverse, writeReverse. rewrite <- (blen_rev b), read_exact.
  cbn [bind]. now rewrite rev_involutive.
Qed.

Lemma writeVarintNum_length (n : Z) :
  blen (writeVarintNum n)
  = if n <? 253 then 1 else if n <? 2 ^ 16 then 3
    else if n <? 2 ^ 32 then 5 else 9.
Proof.
  unfold writeVarintNum.
  destruct (n <? 253); [reflexivity|].
  destruct (n <? 2 ^ 16); [reflexivity|].
  destruct (n <? 2 ^ 32); reflexivity.
Qed.

(** X18. Reading back what [toBufferWriter] wrote.  For an Input with a
    32-byte [prevTxId], an [outputIndex] and a [sequenceNumber] below 2^32
    and a script of fewer than 2^64 bytes, [toBufferWriter] writes the
    reversed [prevTxId], the index, the script's length as a varint of 1, 3,
    5 or 9 bytes, the script's bytes and the sequence number, and
    [fromBufferReader] reads the same fields back, an empty script
    included, stops where the writer stopped, and leaves [_script] unset. *)
Theorem X18_input_wire_roundtrip (other : txid -> result bytes)
    (this : Input) (prev script : bytes) (index sequence : Z) (rest : bytes) :
  prevTxId this = TxidBuffer prev -> blen prev = 32 ->
  outputIndex this = Num index -> 0 <= index < 2 ^ 32 ->
  sequenceNumber this = Num sequence -> 0 <= sequence < 2 ^ 32 ->
  _scriptBuffer this = Some script -> blen script < 2 ^ 64 ->
  exists w,
    toBufferWriter other this = Ok w /\
    blen w = 32 + 4 + blen (writeVarintNum (blen script)) + blen script + 4 /\
    (blen (writeVarintNum (blen script)) = 1 \/
     blen (writeVarintNum (blen script)) = 3 \/
     blen (writeVarintNum (blen script)) = 5 \/
     blen (writeVarintNum (blen script)) = 9) /\
    fromBufferReader (w ++ rest)
    = Ok (mkInput (TxidBuffer prev) (Num index) (Num sequence) None
                  (Some script),
          rest).
Proof.
  intros Ht Hlen Hi Hri Hs Hrs Hb Hlb.
  assert (H0 : 0 <= blen script) by (unfold blen; lia).
  eexists. split.
  { unfold toBufferWriter. rewrite Ht, Hb, Hi, Hs. reflexivity. }
  split; [|split].
  - rewrite !blen_app. unfold writeReverse. rewrite blen_rev, Hlen.
    change (blen (BufferWriter.writeUInt32LE (Num index))) with 4.
    change (blen (BufferWriter.writeUInt32LE (Num sequence))) with 4. lia.
  - rewrite writeVarintNum_length.
    destruct (blen script <? 253); [now left|].
    destruct (blen script <? 2 ^ 16); [now right; left|].
    destruct (blen script <? 2 ^ 32); [now right; right; left|].
    now right; right; right.
  - unfold fromBufferReader. rewrite <- !app_assoc.
    rewrite <- Hlen, readReverse_write. cbn [bind].
    rewrite readUInt32LE_write by assumption. cbn [bind].
    rewrite readVarintNum_write by lia. cbn [bind].
    destruct (blen script =? 0) eqn:E0.
    + apply Z.eqb_eq in E0.
      assert (script = []) as ->
        by (destruct script; [reflexivity|unfold blen in E0; simpl in E0; lia]).
      cbn [bind app]. rewrite readUInt32LE_write by assumption. reflexivity.
    + rewrite read_exact. cbn [bind].
      rewrite readUInt32LE_write by assumption. reflexivity.
Qed.


Lemma fromBufferReader_shape (br rest : bytes) (i1 : Input) :
  fromBufferReader br = Ok (i1, rest) ->
  exists prev index sequence script,
    i1 = mkInput (TxidBuffer prev) (Num index) (Num sequence) None
                 (Some script).
Proof.
  unfold fromBufferReader. intros H.
  destruct (readReverse 32 br) as [[prev br1]|]; cbn [bind] in H;
    [|discriminate].
  destruct (BufferReader.readUInt32LE br1) as [[index br2]|]; cbn [bind] in H;
    [|discriminate].
  destruct (readVarintNum br2) as [[size br3]|]; cbn [bind] in H;
    [|discriminate].
  destruct (if size =? 0 then Ok ([], br3)
            else BufferReader.read strict_read size br3) as [[script br4]|];
    cbn [bind] in H; [|discriminate].
  destruct (BufferReader.readUInt32LE br4) as [[sequence br5]|];
    cbn [bind] in H; [|discriminate].
  injection H as <- _. now exists prev, index, sequence, script.
Qed.

Lemma toString_parsed (b : bytes) (s : Script) :
  (forall op, is_pushdata op = true -> named registry op = true) ->
  fromBuffer b = Ok s -> exists str, toString s = Ok str.
Proof.
  intros Hpd Hb. unfold toString.
  destruct (toString_loop_ok s Hpd) with (str := EmptyString) as [str' ->].
  - intros c Hc Hbuf.
    pose proof (fromBuffer_parsed b s Hb) as Hp. rewrite Forall_forall in Hp.
    destruct (Hp c Hc) as [(op & -> & _)|(op & l & p & -> & _)]; discriminate.
  - cbn [bind]. eexists. reflexivity.
Qed.

(** X19. [toObject] reads the property [_script] and not the getter
    [script]: on an Input that [fromBufferReader] read, or whose script was
    set from a Buffer, it throws a TypeError.  Once the getter has been read,
    and with names registered for the three OP_PUSHDATA opcodes, [toObject]
    returns, with the hexadecimal digits of [prevTxId] and the text of the
    script parsed from the bytes. *)
Theorem X19_toObject_needs_script (h : heap) :
  (forall op, is_pushdata op = true -> named registry op = true) ->
  (forall this b i1,
     setScript (ArgBuffer b) h this = Ok i1 ->
     toObject h i1 = Throw TypeError) /\
  (forall br rest i1,
     fromBufferReader br = Ok (i1, rest) ->
     toObject h i1 = Throw TypeError /\
     forall r h' i2,
       Input_script h i1 = Ok (r, h', i2) ->
       exists prev script str,
         prevTxId i1 = TxidBuffer prev /\
         _scriptBuffer i1 = Some script /\
         fromBuffer script = Ok (chunks_at h' r) /\
         toString (chunks_at h' r) = Ok str /\
         toObject h' i2
         = Ok (mkInputObject (hex_of_bytes prev) (outputIndex i1)
                 (sequenceNumber i1) str)).
Proof.
  intros Hpd. split.
  - intros this b i1 H. injection H as <-. unfold toObject.
    cbn [prevTxId _script]. now destruct (prevTxId this).
  - intros br rest i1 H.
    destruct (fromBufferReader_shape _ _ _ H)
      as (prev & index & sequence & script & ->).
    split; [reflexivity|].
    intros r h' i2 Hg. unfold Input_script in Hg.
    cbn [_script _scriptBuffer prevTxId outputIndex sequenceNumber] in Hg.
    destruct (fromBuffer script) as [s|e] eqn:Hs; cbn [bind] in Hg;
      [|discriminate].
    injection Hg as <- <- <-.
    destruct (toString_parsed script s Hpd Hs) as [str Hstr].
    exists prev, script, str. rewrite chunks_at_new.
    split; [reflexivity|]. split; [reflexivity|]. split; [exact Hs|].
    split; [exact Hstr|].
    unfold toObject. cbn [prevTxId _script outputIndex sequenceNumber bind].
    rewrite chunks_at_new, Hstr. reflexivity.
Qed.


Lemma text_roundtrip (s : Script) :
  registry_wf registry = true ->
  built s -> s <> [] -> forallb bare_named s = true ->
  exists str, toString s = Ok str /\ fromString str = Ok s.
Proof.
  intros Hwf Hbuilt Hne Hbare.
  pose proof (built_api s Hbuilt) as Hapi.
  pose proof (tokens_no_space Hwf s Hapi Hbare) as Hns.
  assert (Htok : exists t ts, flat_map chunk_tokens s = t :: ts /\
                   (name_ok t = true \/ ts <> [])).
  { destruct s as [|c s]; [congruence|].
    inversion Hapi as [|? ? Hc Hs]; subst.
    simpl in Hbare. apply andb_prop in Hbare. destruct Hbare as [Hbc _].
    destruct (chunk_tokens_spec Hwf c Hc Hbc) as (_ & _ & t & ts & E & Hfirst).
    cbn [flat_map]. rewrite E. exists t, (ts ++ flat_map chunk_tokens s).
    split; [reflexivity|]. destruct Hfirst as [H|H]; [now left|right].
    destruct ts; [congruence|discriminate]. }
  destruct Htok as (t & ts & Etok & Hfirst).
  exists (t ++ spaced ts)%string. split.
  - unfold toString. rewrite (toString_loop_tokens Hwf s _ Hapi Hbare), Etok.
    reflexivity.
  - unfold fromString.
    assert (Hhex : isHexa (t ++ spaced ts) = false).
    { destruct Hfirst as [H|H]; [now apply isHexa_name|].
      destruct ts as [|t' ts]; [congruence|]. apply isHexa_space. }
    rewrite Hhex. rewrite Etok in Hns. inversion Hns as [|? ? Ht Hts]; subst.
    rewrite (split_space_spaced ts t Ht Hts), <- Etok.
    apply (fromString_loop_tokens Hwf s [] Hapi Hbare).
Qed.

Lemma fromString_empty :
  registry_wf registry = true -> fromString EmptyString = Throw InvalidScript.
Proof.
  intros Hwf. destruct (wf_parts Hwf) as (Hn & _).
  unfold fromString. cbn [isHexa split_space fromString_loop].
  unfold Opcode.ofString, Opcode.toNumber. cbn [Opcode.num].
  rewrite (map_not_name registry EmptyString Hn eq_refl). reflexivity.
Qed.

(** X20. [fromJSON] of the object [toObject] returns, for an Input whose
    [prevTxId] is a non-empty Buffer and whose script object is set, and a
    well-formed registry.  With an empty script the text is the empty string
    and [fromJSON] throws: [new Script('')] is [Script.fromString('')].  With
    a non-empty script that [fromString] reads back from its text (built
    through the API, every bare opcode named), [fromJSON] returns an Input
    with the same [prevTxId] and [outputIndex], a new Script object with the
    same chunks and its serialization, and the same [sequenceNumber] unless
    that is 0 or not a number, which comes back undefined. *)
Theorem X20_fromJSON_of_toObject (h : heap) (this : Input) (r : ref)
    (prev : bytes) :
  registry_wf registry = true ->
  prevTxId this = TxidBuffer prev -> prev <> [] ->
  _script this = Some r ->
  (chunks_at h r = [] ->
   exists obj,
     toObject h this = Ok obj /\
     fromJSON (json_of obj) h = Throw InvalidScript) /\
  (built (chunks_at h r) -> chunks_at h r <> [] ->
   forallb bare_named (chunks_at h r) = true ->
   exists obj,
     toObject h this = Ok obj /\
     fromJSON (json_of obj) h
     = Ok (mkInput (TxidBuffer prev) (outputIndex this)
             (match sequenceNumber this with
              | Num z => if z =? 0 then Undefined else Num z
              | _ => Undefined
              end)
             (Some (List.length h))
             (Some (toBuffer (chunks_at h r))),
           h ++ [chunks_at h r])).
Proof.
  intros Hwf Hprev Hne Hscript.
  assert (Hhex : isHexa (hex_of_bytes prev) = true).
  { destruct prev as [|x prev]; [congruence|].
    change (isHexa (hex_of_bytes (x :: prev)))
      with (all_hex (hex_of_bytes (x :: prev))).
    apply all_hex_of_bytes. }
  assert (Hor : string_or (Some (hex_of_bytes prev)) None
                = Some (hex_of_bytes prev)).
  { destruct prev as [|x prev]; [congruence|reflexivity]. }
  split.
  - intros Hs.
    exists (mkInputObject (hex_of_bytes prev) (outputIndex this)
              (sequenceNumber this) EmptyString).
    split.
    { unfold toObject. rewrite Hprev, Hscript, Hs. reflexivity. }
    unfold fromJSON, json_of. cbn [json_script obj_script].
    now rewrite (fromString_empty Hwf).
  - intros Hb Hn Hbare.
    destruct (text_roundtrip _ Hwf Hb Hn Hbare) as (str & Hto & Hfrom).
    exists (mkInputObject (hex_of_bytes prev) (outputIndex this)
              (sequenceNumber this) str).
    split.
    { unfold toObject. rewrite Hprev, Hscript, Hto. reflexivity. }
    unfold fromJSON, json_of.
    cbn [json_script json_prevTxId json_txidbuf json_outputIndex
         json_txoutnum json_sequenceNumber json_seqnum obj_script
         obj_prevTxId obj_outputIndex obj_sequenceNumber].
    rewrite Hfrom, Hor. cbn [bind]. unfold _fromObject.
    cbn [params_prevTxId params_outputIndex params_sequenceNumber
         params_script params_scriptBuffer].
    rewrite Hhex, Buffer_from_hex_of_bytes. cbn [bind setScript].
    cbn [prevTxId outputIndex sequenceNumber Input_new].
    rewrite chunks_at_new. do 3 f_equal.
    + now destruct (outputIndex this).
    + unfold number_or. destruct (sequenceNumber this) as [z| |];
        [destruct (z =? 0)|..]; reflexivity.
Qed.


(** * More of lib/script.js: lengths in the text form *)

Lemma fromBuffer_exact_or_parsed (x : bytes) (s : Script) :
  fromBuffer x = Ok s ->
  Forall parsed_chunk s /\ (strict_read = true -> Forall exact_chunk s).
Proof.
  unfold fromBuffer. intros H. apply fromBuffer_loop_shape in H.
  destruct H as (news & -> & Hp & He & _). now split.
Qed.

(** X21. [fromString] takes the length of a direct push from the text and
    does not compare it with the payload that follows: for a registry whose
    names begin with the letter O, the text of a number n in 1..75 and of any
    payload gives one chunk of opcode n, declared length n and that payload.
    When the payload is longer than n, or has another length than n and the
    reader fails on short reads, the script does not parse back from its own
    serialization. *)
Theorem X21_fromString_unchecked_length (n : N) (b : bytes) :
  forallb name_ok (List.map fst registry) = true ->
  (0 < n < 76)%N ->
  fromString (decimal n ++ String space ("0x" ++ hex_of_bytes b))
  = Ok [push (Num (Z.of_N n)) (Num (Z.of_N n)) b] /\
  (Z.of_N n < blen b \/ (strict_read = true /\ blen b <> Z.of_N n) ->
   fromBuffer (toBuffer [push (Num (Z.of_N n)) (Num (Z.of_N n)) b])
   <> Ok [push (Num (Z.of_N n)) (Num (Z.of_N n)) b]).
Proof.
  intros Hnames Hn. split.
  - unfold fromString. rewrite isHexa_space.
    assert (Hsplit : split_space
                       (decimal n ++ String space ("0x" ++ hex_of_bytes b))
                     = [decimal n; ("0x" ++ hex_of_bytes b)%string]).
    { pose proof (split_space_spaced [("0x" ++ hex_of_bytes b)%string]
                    (decimal n) (no_space_uint _)) as H.
      cbn [spaced] in H. rewrite append_nil_r in H. apply H.
      constructor; [|constructor].
      change (no_space ("0x" ++ hex_of_bytes b))
        with (no_space (hex_of_bytes b)).
      apply no_space_hex_of_bytes. }
    rewrite Hsplit. cbn [fromString_loop].
    unfold Opcode.toNumber, Opcode.ofString. cbn [Opcode.num].
    rewrite (map_not_name registry (decimal n) Hnames (name_ok_uint _)).
    rewrite parseInt_decimal.
    replace (num_gtb (Num (Z.of_N n)) 0 &&
             num_ltb (Num (Z.of_N n)) Opcode.OP_PUSHDATA1) with true
      by (symmetry; unfold num_gtb, num_ltb, Opcode.OP_PUSHDATA1;
          apply andb_true_intro; split; apply Z.ltb_lt; lia).
    change (slice2 ("0x" ++ hex_of_bytes b)) with (hex_of_bytes b).
    rewrite Buffer_from_hex_of_bytes. reflexivity.
  - intros Hlen Hparse.
    apply fromBuffer_exact_or_parsed in Hparse. destruct Hparse as [Hp He].
    destruct Hlen as [Hlong|[Hstrict Hneq]].
    + inversion Hp as [|c l Hc _]; subst.
      destruct Hc as [(op & E & _)|(op & l & p & E & _ & Hle)];
        [discriminate|].
      injection E as <- <- <-. lia.
    + specialize (He Hstrict). inversion He as [|c l Hc _]; subst.
      destruct Hc as [(op & E & _)|(op & p & E & _)]; [discriminate|].
      injection E as Eb El _. subst p. congruence.
Qed.


(** * The text form of parsed scripts *)

Section TextOfParsed.

Hypothesis registry_is_wf : registry_wf registry = true.

Lemma parsed_text_chunk (c : item) : parsed_chunk c -> text_chunk c.
Proof.
  intros [(op & -> & _)|(op & l & b & -> & Hs & Hl)].
  - left. now exists (Num op).
  - right. exists op, l, b. split; [reflexivity|].
    assert (H0 : 0 <= blen b) by (unfold blen; lia).
    split; [lia|].
    unfold push_shape, is_pushdata, num_eqb, Opcode.OP_PUSHDATA1 in *.
    destruct Hs as [[H1 H2]|[[-> _]|[[-> _]|[-> _]]]];
      [left; lia|right; reflexivity..].
Qed.

Lemma api_text_chunk (c : item) : api_chunk c -> text_chunk c.
Proof.
  intros [[op ->]|(b & Hb & ->)].
  - left. now exists op.
  - right. exists (push_opcode (blen b)), (blen b), b.
    split; [reflexivity|]. split; [lia|].
    destruct (push_opcode_cases (blen b)) as [(Hlt & Hop & _)|(_ & Hpd)];
      [lia| |now right].
    left. rewrite Hop. unfold Opcode.OP_PUSHDATA1. lia.
Qed.

Lemma text_chunk_tokens (c : item) :
  text_chunk c -> bare_named c = true ->
  chunk_toString c = Ok (spaced (chunk_tokens c)) /\
  Forall (fun t => no_space t = true) (chunk_tokens c) /\
  (exists t ts, chunk_tokens c = t :: ts /\ (name_ok t = true \/ ts <> [])) /\
  forall rest acc,
    fromString_loop (chunk_tokens c ++ rest) acc
    = fromString_loop rest (acc ++ [c]).
Proof.
  destruct (wf_parts registry_is_wf) as (Hnames & _).
  intros [[op ->]|(op & l & b & -> & Hl & Hop)] Hbare.
  - unfold bare_named in Hbare. simpl in Hbare.
    apply andb_prop in Hbare. destruct Hbare as [Hn Hp].
    apply negb_true_iff in Hp.
    destruct (named_spec registry_is_wf op Hn)
      as (z & name & -> & Hr & Hm & Hok).
    unfold chunk_toString, chunk_tokens, name_of, Opcode.toString.
    cbn [bare item_buf item_opcodenum buf opcodenum Opcode.ofNumber
         Opcode.num].
    rewrite Hr. cbn [bind spaced]. rewrite append_nil_r.
    split; [reflexivity|]. split; [|split].
    + constructor; [|constructor]. unfold name_ok in Hok.
      destruct name; [discriminate|]. now apply andb_prop in Hok.
    + exists name, []. auto.
    + intros rest acc. cbn [app fromString_loop].
      unfold Opcode.toNumber, Opcode.ofString. cbn [Opcode.num].
      rewrite Hm, Hp. reflexivity.
  - clear Hbare.
    assert (HL : number_toString (Num l) = decimal (Z.to_N l))
      by (now apply number_toString_nonneg).
    assert (Hparse : parseInt (decimal (Z.to_N l)) = Num l)
      by (rewrite parseInt_decimal, Z2N.id by lia; reflexivity).
    assert (Hdec : Opcode.map registry (decimal (Z.to_N l)) = Undefined)
      by (apply map_not_name; [exact Hnames|apply name_ok_uint]).
    unfold chunk_toString, chunk_tokens.
    cbn [push item_buf item_opcodenum item_len buf opcodenum len]. rewrite HL.
    destruct Hop as [[Hop ->]|Hpd].
    + assert (Hpd : is_pushdata (Num op) = false).
      { unfold is_pushdata, num_eqb, Opcode.OP_PUSHDATA1, Opcode.OP_PUSHDATA2,
          Opcode.OP_PUSHDATA4 in *.
        rewrite !orb_false_iff, !Z.eqb_neq. lia. }
      rewrite Hpd. cbn [bind app spaced]. rewrite append_nil_r.
      split; [reflexivity|]. split; [|split].
      * constructor; [apply no_space_uint|].
        constructor; [|constructor].
        change (no_space ("0x" ++ hex_of_bytes b))
          with (no_space (hex_of_bytes b)).
        apply no_space_hex_of_bytes.
      * eexists _, _. split; [reflexivity|]. right. discriminate.
      * intros rest acc. cbn [app fromString_loop].
        unfold Opcode.toNumber, Opcode.ofString. cbn [Opcode.num].
        rewrite Hdec, Hparse.
        replace (num_gtb (Num op) 0 && num_ltb (Num op) Opcode.OP_PUSHDATA1)
          with true
          by (symmetry; unfold num_gtb, num_ltb; apply andb_true_intro;
              split; apply Z.ltb_lt; lia).
        change (slice2 ("0x" ++ hex_of_bytes b)) with (hex_of_bytes b).
        rewrite Buffer_from_hex_of_bytes. reflexivity.
    + rewrite Hpd.
      destruct (named_spec registry_is_wf _
                  (pushdata_named registry_is_wf _ Hpd))
        as (z & name & Hz & Hr & Hm & Hok).
      unfold name_of, Opcode.toString, Opcode.ofNumber. cbn [Opcode.num].
      rewrite Hr. cbn [bind app spaced]. rewrite append_nil_r.
      split; [reflexivity|]. split; [|split].
      * constructor;
          [|constructor; [apply no_space_uint|constructor; [|constructor]]].
        -- unfold name_ok in Hok. destruct name; [discriminate|].
           now apply andb_prop in Hok.
        -- change (no_space ("0x" ++ hex_of_bytes b))
             with (no_space (hex_of_bytes b)).
           apply no_space_hex_of_bytes.
      * eexists _, _. split; [reflexivity|]. now left.
      * intros rest acc. cbn [app fromString_loop].
        unfold Opcode.toNumber, Opcode.ofString. cbn [Opcode.num].
        rewrite Hm, <- Hz, Hpd.
        change (slice02 ("0x" ++ hex_of_bytes b)) with "0x"%string.
        change (slice2 ("0x" ++ hex_of_bytes b)) with (hex_of_bytes b).
        rewrite Buffer_from_hex_of_bytes, Hparse. reflexivity.
Qed.

Lemma text_roundtrip_chunks (s : Script) :
  Forall text_chunk s -> s <> [] -> forallb bare_named s = true ->
  exists str, toString s = Ok str /\ fromString str = Ok s.
Proof.
  intros Hall Hne Hbare.
  assert (Hto : forall s str,
            Forall text_chunk s -> forallb bare_named s = true ->
            toString_loop s str
            = Ok (str ++ spaced (flat_map chunk_tokens s))%string).
  { clear Hall Hne Hbare s. intros s.
    induction s as [|c s IH]; intros str Hall Hb.
    - simpl. now rewrite append_nil_r.
    - inversion Hall as [|? ? Hc Hs]; subst.
      simpl in Hb. apply andb_prop in Hb. destruct Hb as [Hbc Hbs].
      cbn [toString_loop flat_map].
      destruct (text_chunk_tokens c Hc Hbc) as (-> & _). cbn [bind].
      rewrite (IH _ Hs Hbs), spaced_app, append_assoc. reflexivity. }
  assert (Hfrom : forall s acc,
            Forall text_chunk s -> forallb bare_named s = true ->
            fromString_loop (flat_map chunk_tokens s) acc = Ok (acc ++ s)).
  { clear Hall Hne Hbare s. intros s.
    induction s as [|c s IH]; intros acc Hall Hb.
    - simpl. now rewrite app_nil_r.
    - inversion Hall as [|? ? Hc Hs]; subst.
      simpl in Hb. apply andb_prop in Hb. destruct Hb as [Hbc Hbs].
      cbn [flat_map].
      destruct (text_chunk_tokens c Hc Hbc) as (_ & _ & _ & ->).
      rewrite (IH _ Hs Hbs), <- app_assoc. reflexivity. }
  assert (Hns : forall s,
            Forall text_chunk s -> forallb bare_named s = true ->
            Forall (fun t => no_space t = true) (flat_map chunk_tokens s)).
  { clear Hall Hne Hbare s. intros s.
    induction s as [|c s IH]; intros Hall Hb; [constructor|].
    inversion Hall as [|? ? Hc Hs]; subst.
    simpl in Hb. apply andb_prop in Hb. destruct Hb as [Hbc Hbs].
    cbn [flat_map]. apply Forall_app. split; [|now apply IH].
    now destruct (text_chunk_tokens c Hc Hbc) as (_ & H & _). }
  assert (Htok : exists t ts, flat_map chunk_tokens s = t :: ts /\
                   (name_ok t = true \/ ts <> [])).
  { destruct s as [|c s]; [congruence|].
    inversion Hall as [|? ? Hc Hs]; subst.
    simpl in Hbare. apply andb_prop in Hbare. destruct Hbare as [Hbc _].
    destruct (text_chunk_tokens c Hc Hbc)
      as (_ & _ & (t & ts & E & Hfirst) & _).
    cbn [flat_map]. rewrite E. exists t, (ts ++ flat_map chunk_tokens s).
    split; [reflexivity|]. destruct Hfirst as [H|H]; [now left|right].
    destruct ts; [congruence|discriminate]. }
  destruct Htok as (t & ts & Etok & Hfirst).
  exists (t ++ spaced ts)%string. split.
  - unfold toString. rewrite (Hto s _ Hall Hbare), Etok. reflexivity.
  - unfold fromString.
    assert (Hhex : isHexa (t ++ spaced ts) = false).
    { destruct Hfirst as [H|H]; [now apply isHexa_name|].
      destruct ts as [|t' ts]; [congruence|]. apply isHexa_space. }
    rewrite Hhex. specialize (Hns s Hall Hbare). rewrite Etok in Hns.
    inversion Hns as [|? ? Ht Hts]; subst.
    rewrite (split_space_spaced ts t Ht Hts), <- Etok.
    apply (Hfrom s [] Hall Hbare).
Qed.

End TextOfParsed.

(** X23. The text of a script made by the parser is read back as that
    script.  With a registry whose names are distinct, begin with the letter
    O, have no space and include the three OP_PUSHDATA opcodes: for every
    non-empty script [fromBuffer] returns in which each bare opcode has a
    name, [toString] returns a text and [fromString] of this text returns
    the script, pushes that are not minimal and a last payload shorter than
    declared included; so the text gives the same bytes again. *)
Theorem X23_text_roundtrip_parsed (b : bytes) (s : Script) :
  registry_wf registry = true ->
  fromBuffer b = Ok s -> s <> [] ->
  (forall c, In c s -> item_buf c = None ->
             named registry (item_opcodenum c) = true) ->
  exists str,
    toString s = Ok str /\
    fromString str = Ok s /\
    (s' <- fromString str ;; Ok (toBuffer s')) = Ok b.
Proof.
  intros Hwf Hb Hne Hnamed.
  pose proof (fromBuffer_parsed b s Hb) as Hp.
  assert (Hall : Forall text_chunk s).
  { eapply Forall_impl; [|exact Hp]. intros c. now apply parsed_text_chunk. }
  assert (Hbare : forallb bare_named s = true).
  { apply forallb_forall. intros c Hc. unfold bare_named.
    destruct (item_buf c) eqn:Eb; [reflexivity|].
    rewrite (Hnamed c Hc Eb). cbn [andb]. apply negb_true_iff.
    rewrite Forall_forall in Hp.
    destruct (Hp c Hc) as [(op & -> & Hs)|(op & l & p & -> & _)];
      [|discriminate].
    unfold bare_shape in Hs.
    unfold is_pushdata, num_eqb, Opcode.OP_PUSHDATA1, Opcode.OP_PUSHDATA2,
      Opcode.OP_PUSHDATA4. cbn [bare item_opcodenum opcodenum].
    rewrite !orb_false_iff, !Z.eqb_neq. lia. }
  destruct (text_roundtrip_chunks Hwf s Hall Hne Hbare) as (str & Hto & Hfrom).
  exists str. split; [exact Hto|]. split; [exact Hfrom|].
  rewrite Hfrom. cbn [bind]. f_equal. now apply fromBuffer_toBuffer.
Qed.


(** * What [fromBufferReader] accepts *)

Lemma readUInt16LE_inv (br rest : bytes) (z : Z) :
  BufferReader.readUInt16LE br = Ok (z, rest) ->
  blen br = 2 + blen rest /\ 0 <= z < 2 ^ 16.
Proof.
  unfold BufferReader.readUInt16LE, blen.
  destruct br as [|b0 [|b1 br]]; try discriminate.
  intros H. injection H as <- <-.
  pose proof (byte_to_Z_range b0). pose proof (byte_to_Z_range b1).
  change (2 ^ 16) with 65536. cbn [List.length]. lia.
Qed.

Lemma readUInt32LE_inv (br rest : bytes) (z : Z) :
  BufferReader.readUInt32LE br = Ok (z, rest) ->
  blen br = 4 + blen rest /\ 0 <= z < 2 ^ 32.
Proof.
  unfold BufferReader.readUInt32LE, blen.
  destruct br as [|b0 [|b1 [|b2 [|b3 br]]]]; try discriminate.
  intros H. injection H as <- <-.
  pose proof (byte_to_Z_range b0). pose proof (byte_to_Z_range b1).
  pose proof (byte_to_Z_range b2). pose proof (byte_to_Z_range b3).
  change (2 ^ 32) with 4294967296. cbn [List.length]. lia.
Qed.

Lemma readVarintNum_inv (br rest : bytes) (n : Z) :
  readVarintNum br = Ok (n, rest) ->
  exists k, blen br = k + blen rest /\
            blen (writeVarintNum n) <= k <= 9 /\ 0 <= n < 2 ^ 64.
Proof.
  unfold readVarintNum. destruct br as [|b0 br]; [discriminate|].
  cbn [BufferReader.readUInt8 bind].
  assert (Hcons : blen (b0 :: br) = 1 + blen br)
    by (unfold blen; cbn [List.length]; lia).
  pose proof (byte_to_Z_range b0) as R0.
  rewrite writeVarintNum_length, Hcons.
  change (2 ^ 64) with 18446744073709551616.
  change (2 ^ 32) with 4294967296. change (2 ^ 16) with 65536.
  destruct (byte_to_Z b0 =? 253) eqn:E1.
  { intros H. apply readUInt16LE_inv in H. destruct H as [Hl Hz].
    change (2 ^ 16) with 65536 in Hz.
    exists 3. split; [lia|]. split; [|lia].
    destruct (n <? 253); [lia|].
    replace (n <? 65536) with true by (symmetry; apply Z.ltb_lt; lia). lia. }
  destruct (byte_to_Z b0 =? 254) eqn:E2.
  { intros H. apply readUInt32LE_inv in H. destruct H as [Hl Hz].
    change (2 ^ 32) with 4294967296 in Hz.
    exists 5. split; [lia|]. split; [|lia].
    destruct (n <? 253); [lia|]. destruct (n <? 65536); [lia|].
    replace (n <? 4294967296) with true by (symmetry; apply Z.ltb_lt; lia).
    lia. }
  destruct (byte_to_Z b0 =? 255) eqn:E3.
  { destruct (BufferReader.readUInt32LE br) as [[lo br1]|] eqn:H1;
      cbn [bind]; [|discriminate].
    destruct (BufferReader.readUInt32LE br1) as [[hi br2]|] eqn:H2;
      cbn [bind]; [|discriminate].
    intros H. injection H as <- <-.
    apply readUInt32LE_inv in H1, H2.
    destruct H1 as [Hl1 Hz1]. destruct H2 as [Hl2 Hz2].
    change (2 ^ 32) with 4294967296 in Hz1, Hz2.
    exists 9. split; [lia|]. split; [|lia].
    destruct (lo + 4294967296 * hi <? 253); [lia|].
    destruct (lo + 4294967296 * hi <? 65536); [lia|].
    destruct (lo + 4294967296 * hi <? 4294967296); lia. }
  intros H. injection H as <- <-.
  apply Z.eqb_neq in E1, E2, E3.
  exists 1. split; [lia|]. split; [|lia].
  replace (byte_to_Z b0 <? 253) with true by (symmetry; apply Z.ltb_lt; lia).
  lia.
Qed.

Lemma read_then_more (strict : bool) (l : Z) (br b rest : bytes) :
  0 <= l -> BufferReader.read strict l br = Ok (b, rest) -> rest <> [] ->
  blen b = l /\ br = b ++ rest.
Proof.
  intros Hl H Hrest. pose proof (read_split _ _ _ _ _ H) as Hs.
  apply read_spec in H; [|exact Hl].
  destruct H as [_ [H|[_ H]]]; [|congruence]. now split.
Qed.


(** X24. What [fromBufferReader] returns, whether or not [read] fails on a
    short buffer.  When it returns, it has read 32 bytes of transaction id,
    an index and a sequence number below 2^32 and a script of exactly the
    announced length: at least 41 bytes apart from the script, at most 49
    (the varint has 1 to 9 bytes and need not be the shortest).  And
    [toBufferWriter] of the Input read writes bytes, no more than were read,
    from which [fromBufferReader] reads the same Input. *)
Theorem X24_fromBufferReader_sound (br rest : bytes) (i1 : Input) :
  fromBufferReader br = Ok (i1, rest) ->
  exists prev script index sequence,
    i1 = mkInput (TxidBuffer prev) (Num index) (Num sequence) None
                 (Some script) /\
    blen prev = 32 /\ 0 <= index < 2 ^ 32 /\ 0 <= sequence < 2 ^ 32 /\
    blen script < 2 ^ 64 /\
    41 + blen script + blen rest <= blen br <= 49 + blen script + blen rest /\
    forall other, exists w,
      toBufferWriter other i1 = Ok w /\
      blen w + blen rest <= blen br /\
      fromBufferReader (w ++ rest) = Ok (i1, rest).
Proof.
  unfold fromBufferReader at 1, readReverse. intros H.
  destruct (BufferReader.read strict_read 32 br) as [[b br1]|] eqn:H1;
    cbn [bind] in H; [|discriminate].
  destruct (BufferReader.readUInt32LE br1) as [[index br2]|] eqn:H2;
    cbn [bind] in H; [|discriminate].
  destruct (readVarintNum br2) as [[size br3]|] eqn:H3; cbn [bind] in H;
    [|discriminate].
  destruct (if size =? 0 then Ok ([], br3)
            else BufferReader.read strict_read size br3)
    as [[script br4]|] eqn:H4; cbn [bind] in H; [|discriminate].
  destruct (BufferReader.readUInt32LE br4) as [[sequence br5]|] eqn:H5;
    cbn [bind] in H; [|discriminate].
  injection H as <- <-.
  apply readUInt32LE_inv in H2 as G2. destruct G2 as [L2 R2].
  apply readVarintNum_inv in H3. destruct H3 as (k & L3 & Hk & R3).
  apply readUInt32LE_inv in H5 as G5. destruct G5 as [L5 R5].
  assert (N1 : br1 <> []) by (intros ->; discriminate).
  assert (N4 : br4 <> []) by (intros ->; discriminate).
  assert (P32 : 0 <= 32) by lia.
  destruct (read_then_more _ _ _ _ _ P32 H1 N1) as [Lb ->].
  assert (Hscript : blen script = size /\ br3 = script ++ br4).
  { destruct (size =? 0) eqn:E0.
    - apply Z.eqb_eq in E0. injection H4 as <- <-. now split.
    - apply (read_then_more _ _ _ _ _ (proj1 R3) H4 N4). }
  destruct Hscript as [Ls ->].
  assert (P0 : 1 <= blen (writeVarintNum size)).
  { rewrite writeVarintNum_length. destruct (size <? 253); [lia|].
    destruct (size <? 2 ^ 16); [lia|]. destruct (size <? 2 ^ 32); lia. }
  exists (rev b), script, index, sequence.
  split; [reflexivity|]. split; [now rewrite blen_rev|].
  split; [exact R2|]. split; [exact R5|].
  split; [rewrite Ls; exact (proj2 R3)|].
  rewrite !blen_app in *. split; [lia|].
  intros other.
  exists (writeReverse (rev b) ++
          BufferWriter.writeUInt32LE (Num index) ++
          writeVarintNum (blen script) ++
          script ++ BufferWriter.writeUInt32LE (Num sequence)).
  split; [reflexivity|].
  unfold writeReverse. rewrite rev_involutive. split.
  - rewrite !blen_app.
    change (blen (BufferWriter.writeUInt32LE (Num index))) with 4.
    change (blen (BufferWriter.writeUInt32LE (Num sequence))) with 4.
    rewrite Ls. lia.
  - unfold fromBufferReader. rewrite <- !app_assoc.
    pose proof (readReverse_write (rev b)) as Hrev.
    unfold writeReverse in Hrev. rewrite rev_involutive, blen_rev, Lb in Hrev.
    rewrite Hrev. cbn [bind].
    rewrite readUInt32LE_write by assumption. cbn [bind].
    rewrite readVarintNum_write by lia. cbn [bind].
    destruct (blen script =? 0) eqn:E0.
    + apply Z.eqb_eq in E0.
      assert (script = []) as ->
        by (destruct script; [reflexivity|unfold blen in E0; simpl in E0; lia]).
      cbn [bind app]. rewrite readUInt32LE_write by assumption. reflexivity.
    + rewrite read_exact. cbn [bind].
      rewrite readUInt32LE_write by assumption. reflexivity.
Qed.


(** * The shape [isMultisigOut] accepts *)

Lemma two_last {A} (l : list A) :
  (2 <= List.length l)%nat -> exists l' a b, l = l' ++ [a; b].
Proof.
  intros Hl.
  destruct (exists_last (l := l)) as (l1 & b & ->).
  { intros ->. simpl in Hl. lia. }
  rewrite length_app in Hl. cbn [List.length] in Hl.
  destruct (exists_last (l := l1)) as (l2 & a & ->).
  { intros ->. simpl in Hl. lia. }
  exists l2, a, b. now rewrite <- app_assoc.
Qed.

(** X25. [isMultisigOut] holds exactly of the scripts made of a chunk with
    a small-integer opcode, one or more chunks with a payload, a chunk with a
    small-integer opcode and a chunk with opcode OP_CHECKMULTISIG.  Nothing
    relates the two small integers to each other or to the number of
    payloads, and a payload can have any length. *)
Theorem X25_isMultisigOut_shape (this : Script) :
  isMultisigOut this = true <->
  exists first mid count last,
    this = first :: mid ++ [count; last] /\
    mid <> [] /\
    Opcode.isSmallIntOp (item_opcodenum first) = true /\
    Forall (fun c => exists b, item_buf c = Some b) mid /\
    Opcode.isSmallIntOp (item_opcodenum count) = true /\
    item_opcodenum last = Num Opcode.OP_CHECKMULTISIG.
Proof.
  assert (Hall : forall mid,
            forallb (fun c => truthy (item_buf c)) mid = true <->
            Forall (fun c => exists b, item_buf c = Some b) mid).
  { intros mid. rewrite forallb_forall, Forall_forall.
    split; intros H c Hc; specialize (H c Hc).
    - destruct (item_buf c) as [b|]; [now exists b|discriminate].
    - destruct H as [b ->]. reflexivity. }
  assert (Hlast : forall c,
            num_eqb (item_opcodenum c) Opcode.OP_CHECKMULTISIG = true <->
            item_opcodenum c = Num Opcode.OP_CHECKMULTISIG).
  { intros c. destruct (item_opcodenum c) as [z| |]; cbn [num_eqb];
      [|split; discriminate..].
    rewrite Z.eqb_eq. split; [now intros ->|now intros [= ->]]. }
  split.
  - intros H.
    assert (Hlen : (3 < List.length this)%nat).
    { unfold isMultisigOut in H.
      destruct (3 <? List.length this)%nat eqn:E; [|discriminate].
      now apply Nat.ltb_lt in E. }
    destruct this as [|first rest]; [simpl in Hlen; lia|].
    destruct (two_last rest) as (mid & count & last & ->).
    { simpl in Hlen. lia. }
    assert (Hmid : mid <> []).
    { intros ->. simpl in Hlen. lia. }
    rewrite (isMultisigOut_framed _ _ _ _ Hmid) in H.
    apply andb_prop in H. destruct H as [H H4].
    apply andb_prop in H. destruct H as [H H3].
    apply andb_prop in H. destruct H as [H1 H2].
    exists first, mid, count, last.
    split; [reflexivity|]. split; [exact Hmid|]. split; [exact H1|].
    split; [now apply Hall|]. split; [exact H3|now apply Hlast].
  - intros (first & mid & count & last & -> & Hmid & H1 & H2 & H3 & H4).
    rewrite (isMultisigOut_framed _ _ _ _ Hmid), H1, H3.
    apply Hall in H2. apply Hlast in H4. now rewrite H2, H4.
Qed.


(** * Output and input of a pay-to-script-hash *)

(** X26. The script-hash output and the input that spends it agree on the
    redeem script: for a hash function with 20-byte digests, the payload of
    the output [toScriptHashOut] makes of a redeem script is the digest of
    the last payload of the input [buildP2SHMultisigIn] makes with that
    redeem script (cached, or built from the same keys and threshold), and
    that last payload is the redeem script's serialization. *)
Theorem X26_p2sh_output_commits_to_input (hash : bytes -> bytes)
    (pubkeys : list PublicKey) (threshold : Z) (signatures : list bytes)
    (opts : multisig_opts) (redeem : Script) :
  match opts_cachedMultisig opts with
  | Some cached => Ok cached
  | None => buildMultisigOut pubkeys threshold (opts_noSorting opts)
  end = Ok redeem ->
  Forall pushable signatures ->
  pushable (toBuffer redeem) ->
  blen (hash (toBuffer redeem)) = 20 ->
  exists output input payload,
    toScriptHashOut hash redeem = Ok output /\
    buildP2SHMultisigIn pubkeys threshold (List.map VBuffer signatures) opts
    = Ok input /\
    buf_at input (List.length input - 1) = Some payload /\
    payload = toBuffer redeem /\
    buf_at output 1 = Some (hash payload) /\
    isScriptHashOut output = true.
Proof.
  intros Hr Hs Hb Hh.
  exists [bare (Num Opcode.OP_HASH160);
          push (Num 20) (Num 20) (hash (toBuffer redeem));
          bare (Num Opcode.OP_EQUAL)],
         (p2sh_in_chunks (signatures ++ [toBuffer redeem])),
         (toBuffer redeem).
  split; [exact (buildScriptHashOut_from_result hash _ Hh)|].
  split.
  { unfold buildP2SHMultisigIn.
    change (add (VNumber Opcode.OP_0) []) with (Ok [bare (Num Opcode.OP_0)]).
    cbn [bind]. rewrite (add_each_result _ Hs). cbn [bind].
    rewrite Hr. cbn [bind]. unfold add.
    rewrite (add_payload_ok _ false _ Hb). unfold _insertAtPosition.
    unfold p2sh_in_chunks. rewrite List.map_app. reflexivity. }
  split.
  { unfold buf_at, p2sh_in_chunks. rewrite List.map_app. cbn [List.map].
    now rewrite last_chunk. }
  split; [reflexivity|]. split; [reflexivity|].
  unfold isScriptHashOut. cbn. now rewrite Hh.
Qed.


(** * Parsing a concatenation *)

Lemma fromBuffer_loop_acc (fuel : nat) :
  forall br acc,
    fromBuffer_loop fuel br acc
    = (s <- fromBuffer_loop fuel br [] ;; Ok (acc ++ s)).
Proof.
  induction fuel as [|fuel IH]; intros br acc; cbn [fromBuffer_loop].
  - destruct (BufferReader.eof br); cbn [bind]; [|reflexivity].
    now rewrite app_nil_r.
  - destruct (BufferReader.eof br); cbn [bind]; [now rewrite app_nil_r|].
    destruct (fromBuffer_step br) as [[c br']|e]; cbn [bind]; [|reflexivity].
    rewrite (IH br' (acc ++ [c])), (IH br' ([] ++ [c])).
    destruct (fromBuffer_loop fuel br' []) as [s|e]; cbn [bind];
      [|reflexivity].
    now rewrite <- app_assoc.
Qed.

Lemma fromBuffer_loop_enough (fuel : nat) :
  forall fuel' br acc,
    (List.length br <= fuel)%nat -> (List.length br <= fuel')%nat ->
    fromBuffer_loop fuel' br acc = fromBuffer_loop fuel br acc.
Proof.
  induction fuel as [|fuel IH]; intros fuel' br acc H H'.
  - destruct br; [|simpl in H; lia]. now destruct fuel'.
  - destruct br as [|b0 br]; [now destruct fuel'|].
    destruct fuel' as [|fuel']; [simpl in H'; lia|].
    cbn [fromBuffer_loop BufferReader.eof].
    destruct (fromBuffer_step (b0 :: br)) as [[c rest]|e] eqn:Hs;
      cbn [bind]; [|reflexivity].
    apply fromBuffer_step_sound in Hs. destruct Hs as [Hc _].
    pose proof (chunk_toBuffer_nonempty c).
    assert (List.length (b0 :: br)
            = (List.length (chunk_toBuffer c) + List.length rest)%nat)
      by (rewrite <- Hc, length_app; reflexivity).
    cbn [List.length] in *. apply IH; lia.
Qed.

Lemma toBuffer_length (s : Script) :
  (List.length s <= List.length (toBuffer s))%nat.
Proof.
  induction s as [|c s IH]; [simpl; lia|].
  change (toBuffer (c :: s)) with (chunk_toBuffer c ++ toBuffer s).
  rewrite length_app. pose proof (chunk_toBuffer_nonempty c).
  cbn [List.length]. lia.
Qed.

Lemma fromBuffer_loop_prefix (s : Script) :
  forall fuel acc rest,
    Forall exact_chunk s ->
    (List.length (toBuffer s ++ rest) <= fuel)%nat ->
    fromBuffer_loop fuel (toBuffer s ++ rest) acc
    = fromBuffer_loop (fuel - List.length s) rest (acc ++ s).
Proof.
  induction s as [|c s IH]; intros fuel acc rest Hall Hfuel.
  - cbn [toBuffer flat_map app List.length]. now rewrite Nat.sub_0_r, app_nil_r.
  - inversion Hall as [|? ? Hc Hs]; subst.
    change (toBuffer (c :: s)) with (chunk_toBuffer c ++ toBuffer s) in *.
    pose proof (chunk_toBuffer_nonempty c) as Hne.
    rewrite <- app_assoc in *. rewrite length_app in Hfuel.
    destruct fuel as [|fuel]; [lia|].
    destruct (chunk_toBuffer c ++ toBuffer s ++ rest) as [|x l] eqn:E.
    { apply (f_equal (@List.length byte)) in E. rewrite length_app in E.
      simpl in E. lia. }
    cbn [fromBuffer_loop BufferReader.eof]. rewrite <- E.
    rewrite (fromBuffer_step_exact c _ Hc). cbn [bind].
    rewrite IH by (auto; lia). cbn [List.length Nat.sub].
    now rewrite <- app_assoc.
Qed.

(** X27. Parsing a concatenation.  When every chunk of a script has exactly
    its declared payload, the bytes of the script followed by any other
    bytes parse as the script followed by what the other bytes parse as,
    and fail as the other bytes fail.  With a reader that fails on short
    reads this holds for every byte sequence that parses: what [fromBuffer]
    returns for [b1 ++ b2] is what it returns for [b1] followed by what it
    returns for [b2]. *)
Theorem X27_fromBuffer_concat (s1 : Script) (b2 : bytes) :
  (Forall exact_chunk s1 ->
   fromBuffer (toBuffer s1 ++ b2)
   = (s2 <- fromBuffer b2 ;; Ok (s1 ++ s2))) /\
  (strict_read = true ->
   forall b1, fromBuffer b1 = Ok s1 ->
     fromBuffer (b1 ++ b2) = (s2 <- fromBuffer b2 ;; Ok (s1 ++ s2))).
Proof.
  assert (H : Forall exact_chunk s1 ->
              fromBuffer (toBuffer s1 ++ b2)
              = (s2 <- fromBuffer b2 ;; Ok (s1 ++ s2))).
  { intros Hall. unfold fromBuffer.
    rewrite (fromBuffer_loop_prefix s1 _ [] b2 Hall) by lia.
    rewrite fromBuffer_loop_acc. cbn [app].
    rewrite (fromBuffer_loop_enough (List.length b2)); [reflexivity|lia|].
    rewrite length_app. pose proof (toBuffer_length s1). lia. }
  split; [exact H|].
  intros Hstrict b1 Hb1.
  destruct (fromBuffer_exact_or_parsed b1 s1 Hb1) as [_ He].
  rewrite <- (fromBuffer_toBuffer b1 s1 Hb1). apply H. now apply He.
Qed.


(** * The inputs [isPublicKeyIn] and [isMultisigIn] accept *)

(** X28. The two recognizers of signature-only inputs accept payloads of
    exactly 71 bytes and no other length: [isPublicKeyIn] holds exactly of a
    single chunk with a payload of 71 bytes, and [isMultisigIn] exactly of a
    chunk with opcode 0 followed by one or more chunks that each have a
    payload of 71 bytes. *)
Theorem X28_signature_inputs_71_bytes (this : Script) :
  (isPublicKeyIn this = true <->
   exists c b, this = [c] /\ item_buf c = Some b /\ blen b = 71) /\
  (isMultisigIn this = true <->
   exists first rest,
     this = first :: rest /\ rest <> [] /\
     item_opcodenum first = Num 0 /\
     Forall (fun c => exists b, item_buf c = Some b /\ blen b = 71) rest).
Proof.
  split.
  - unfold isPublicKeyIn, buf_at. split.
    + intros H. destruct this as [|c [|c' this]]; try discriminate.
      cbn [List.length Nat.eqb nth_error andb] in H.
      destruct (item_buf c) as [b|] eqn:Eb; [|discriminate].
      cbn [truthy buf_length andb] in H. apply Z.eqb_eq in H.
      now exists c, b.
    + intros (c & b & -> & Eb & Hl). cbn [List.length Nat.eqb nth_error andb].
      rewrite Eb. cbn [truthy buf_length andb]. now apply Z.eqb_eq.
  - assert (Hall : forall rest,
              forallb (fun obj => truthy (item_buf obj) &&
                                  truthy (item_buf obj) &&
                                  (buf_length (item_buf obj) =? 71)) rest
              = true <->
              Forall (fun c => exists b, item_buf c = Some b /\ blen b = 71)
                     rest).
    { intros rest. rewrite forallb_forall, Forall_forall.
      split; intros H c Hc; specialize (H c Hc).
      - destruct (item_buf c) as [b|]; [|discriminate].
        cbn [truthy buf_length andb] in H. apply Z.eqb_eq in H. now exists b.
      - destruct H as (b & -> & Hl). cbn [truthy buf_length andb].
        now apply Z.eqb_eq. }
    unfold isMultisigIn, opcodenum_at, slice. split.
    + intros H. destruct this as [|first rest]; [discriminate|].
      cbn [List.length nth_error skipn] in H.
      replace (S (List.length rest) - 1)%nat with (List.length rest) in H
        by lia.
      rewrite firstn_all in H.
      apply andb_prop in H. destruct H as [H H3].
      apply andb_prop in H. destruct H as [H1 H2].
      exists first, rest. split; [reflexivity|]. split.
      { intros ->. discriminate. }
      split; [|now apply Hall].
      destruct (item_opcodenum first) as [z| |]; try discriminate.
      cbn [num_eqb] in H2. apply Z.eqb_eq in H2. now subst z.
    + intros (first & rest & -> & Hne & H0 & Hr).
      cbn [List.length nth_error skipn].
      replace (S (List.length rest) - 1)%nat with (List.length rest) by lia.
      rewrite firstn_all, H0. apply Hall in Hr. rewrite Hr.
      destruct rest; [congruence|reflexivity].
Qed.


End Bitcore.

Arguments Returned {A} a.
Arguments Thrown {A} e.
Arguments ThrownUnrecognizedAddress {A}.


(** * Properties of Random.prototype.getPseudoRandomBuffer *)

Lemma Buffer_set_length (b : bytes) (i : nat) (v : Z) :
  List.length (Buffer_set b i v) = List.length b.
Proof.
  unfold Buffer_set. destruct (i <? List.length b)%nat eqn:E; [|reflexivity].
  apply Nat.ltb_lt in E.
  rewrite length_app, length_firstn. cbn [List.length]. rewrite length_skipn.
  lia.
Qed.

Lemma Buffer_set_nth (b : bytes) (i m : nat) (v : Z) :
  (m < List.length b)%nat ->
  nth m (Buffer_set b i v) x00
  = if (m =? i)%nat then byte_of_Z v else nth m b x00.
Proof.
  intros Hm. unfold Buffer_set.
  destruct (i <? List.length b)%nat eqn:E.
  - apply Nat.ltb_lt in E.
    destruct (Nat.lt_trichotomy m i) as [H|[H|H]].
    + replace (m =? i)%nat with false by (symmetry; apply Nat.eqb_neq; lia).
      rewrite app_nth1 by (rewrite length_firstn; lia).
      rewrite <- (firstn_skipn i b) at 2.
      rewrite app_nth1 by (rewrite length_firstn; lia). reflexivity.
    + subst m. rewrite Nat.eqb_refl.
      rewrite app_nth2 by (rewrite length_firstn; lia).
      rewrite length_firstn.
      replace (i - Nat.min i (List.length b))%nat with 0%nat by lia.
      reflexivity.
    + replace (m =? i)%nat with false by (symmetry; apply Nat.eqb_neq; lia).
      rewrite app_nth2 by (rewrite length_firstn; lia).
      rewrite length_firstn.
      replace (m - Nat.min i (List.length b))%nat with (S (m - S i)) by lia.
      cbn [nth]. rewrite <- (firstn_skipn (S i) b) at 2.
      rewrite app_nth2 by (rewrite length_firstn; lia).
      rewrite length_firstn. f_equal. lia.
  - apply Nat.ltb_ge in E.
    replace (m =? i)%nat with false by (symmetry; apply Nat.eqb_neq; lia).
    reflexivity.
Qed.

Lemma byte_of_Z_land (r : Z) : byte_of_Z (Z.land r 255) = byte_of_Z r.
Proof.
  unfold byte_of_Z. change 255 with (Z.ones 8).
  rewrite Z.land_ones by lia. change (2 ^ 8) with 256.
  now rewrite Z.mod_mod by lia.
Qed.


Lemma index_in_group (i : nat) : (i - i / 4 * 4 = i mod 4)%nat.
Proof. pose proof (Nat.div_mod_eq i 4). lia. Qed.

Lemma group_start (i : nat) :
  (i mod 4 = 0 -> (i + 3) / 4 = i / 4 /\ (S i + 3) / 4 = S (i / 4))%nat.
Proof.
  intros H.
  pose proof (Nat.div_mod_eq i 4).
  pose proof (Nat.div_mod_eq (i + 3) 4).
  pose proof (Nat.mod_upper_bound (i + 3) 4 ltac:(discriminate)).
  pose proof (Nat.div_mod_eq (S i + 3) 4).
  pose proof (Nat.mod_upper_bound (S i + 3) 4 ltac:(discriminate)).
  lia.
Qed.

Lemma group_inside (i : nat) :
  (i mod 4 <> 0 ->
   0 < i /\ (S i + 3) / 4 = (i + 3) / 4 /\ (i - 1) / 4 = i / 4 /\
   S ((i - 1) mod 4) = i mod 4)%nat.
Proof.
  intros H.
  pose proof (Nat.div_mod_eq i 4).
  pose proof (Nat.mod_upper_bound i 4 ltac:(discriminate)).
  pose proof (Nat.div_mod_eq (i + 3) 4).
  pose proof (Nat.mod_upper_bound (i + 3) 4 ltac:(discriminate)).
  pose proof (Nat.div_mod_eq (S i + 3) 4).
  pose proof (Nat.mod_upper_bound (S i + 3) 4 ltac:(discriminate)).
  pose proof (Nat.div_mod_eq (i - 1) 4).
  pose proof (Nat.mod_upper_bound (i - 1) 4 ltac:(discriminate)).
  lia.
Qed.

(** The loop invariant: before the turn at index [i] the bytes below [i] are
    set, [Math.random] was called once per group of four begun, and [r] is
    the last draw shifted for the byte before [i]. *)
Lemma getPseudoRandomBuffer_step_inv (random : nat -> Z) (size i : nat)
    (st : prng) :
  List.length (prng_b st) = size ->
  (forall m, (m < i)%nat -> (m < size)%nat ->
             nth m (prng_b st) x00 = draw_byte random m) ->
  prng_calls st = ((i + 3) / 4)%nat ->
  ((0 < i)%nat ->
   prng_r st = Z.shiftr (random ((i - 1) / 4)%nat)
                 (8 * Z.of_nat ((i - 1) mod 4))) ->
  List.length (prng_b (getPseudoRandomBuffer_step random i st)) = size /\
  (forall m, (m < S i)%nat -> (m < size)%nat ->
     nth m (prng_b (getPseudoRandomBuffer_step random i st)) x00
     = draw_byte random m) /\
  prng_calls (getPseudoRandomBuffer_step random i st) = ((S i + 3) / 4)%nat /\
  prng_r (getPseudoRandomBuffer_step random i st)
  = Z.shiftr (random (i / 4)%nat) (8 * Z.of_nat (i mod 4)).
Proof.
  intros Hlen Hbytes Hcalls Hr. unfold getPseudoRandomBuffer_step.
  rewrite index_in_group.
  assert (Hnth : forall v,
            byte_of_Z v = draw_byte random i ->
            forall m, (m < S i)%nat -> (m < size)%nat ->
              nth m (Buffer_set (prng_b st) i (Z.land v 255)) x00
              = draw_byte random m).
  { intros v Hv m Hm Hs. rewrite Buffer_set_nth by lia.
    destruct (m =? i)%nat eqn:E.
    - apply Nat.eqb_eq in E. subst m. now rewrite byte_of_Z_land.
    - apply Nat.eqb_neq in E. apply Hbytes; lia. }
  destruct (i mod 4 =? 0)%nat eqn:Ek.
  - apply Nat.eqb_eq in Ek. destruct (group_start i Ek) as [H1 H2].
    cbn [prng_b prng_calls prng_r]. rewrite Buffer_set_length.
    rewrite Hcalls, H1, H2, Ek. change (8 * Z.of_nat 0) with 0.
    rewrite Z.shiftr_0_r.
    split; [exact Hlen|]. split; [|split; reflexivity].
    apply Hnth. unfold draw_byte. rewrite Ek.
    change (8 * Z.of_nat 0) with 0. now rewrite Z.shiftr_0_r.
  - apply Nat.eqb_neq in Ek.
    destruct (group_inside i Ek) as (Hpos & H1 & H2 & H3).
    cbn [prng_b prng_calls prng_r]. rewrite Buffer_set_length.
    assert (Hshift : Z.shiftr (prng_r st) 8
                     = Z.shiftr (random (i / 4)%nat)
                         (8 * Z.of_nat (i mod 4))).
    { rewrite (Hr Hpos), H2, Z.shiftr_shiftr by lia. f_equal. lia. }
    rewrite Hshift, Hcalls, H1.
    split; [exact Hlen|]. split; [|split; reflexivity].
    apply Hnth. reflexivity.
Qed.

Lemma getPseudoRandomBuffer_loop_inv (random : nat -> Z) (size : nat) :
  forall turns i st,
    List.length (prng_b st) = size ->
    (forall m, (m < i)%nat -> (m < size)%nat ->
               nth m (prng_b st) x00 = draw_byte random m) ->
    prng_calls st = ((i + 3) / 4)%nat ->
    ((0 < i)%nat ->
     prng_r st = Z.shiftr (random ((i - 1) / 4)%nat)
                   (8 * Z.of_nat ((i - 1) mod 4))) ->
    List.length (prng_b (getPseudoRandomBuffer_loop random turns i st))
    = size /\
    (forall m, (m < i + turns)%nat -> (m < size)%nat ->
       nth m (prng_b (getPseudoRandomBuffer_loop random turns i st)) x00
       = draw_byte random m) /\
    prng_calls (getPseudoRandomBuffer_loop random turns i st)
    = ((i + turns + 3) / 4)%nat.
Proof.
  induction turns as [|turns IH]; intros i st Hlen Hbytes Hcalls Hr.
  - cbn [getPseudoRandomBuffer_loop]. rewrite Nat.add_0_r.
    split; [exact Hlen|]. split; [exact Hbytes|exact Hcalls].
  - cbn [getPseudoRandomBuffer_loop].
    destruct (getPseudoRandomBuffer_step_inv random size i st
                Hlen Hbytes Hcalls Hr) as (H1 & H2 & H3 & H4).
    replace (i + S turns)%nat with (S i + turns)%nat by lia.
    apply IH; try assumption.
    intros _. replace (S i - 1)%nat with i by lia. exact H4.
Qed.

(** X22. [getPseudoRandomBuffer(size)] returns [size] bytes, whatever the
    new Buffer held and whatever [r] was: the byte at index i is the low byte
    of draw number i / 4 of [Math.random] shifted right by 8 * (i mod 4)
    bits, so each group of four bytes is one draw, low byte first.  The loop
    runs to [i = size] included: it calls [Math.random] size / 4 + 1 times,
    one draw more than the bytes use when [size] is a multiple of four, and
    its last store, at index [size], is outside the buffer. *)
Theorem X22_getPseudoRandomBuffer (random : nat -> Z) (r0 : Z)
    (fresh : bytes) (size : nat) :
  List.length fresh = size ->
  List.length (prng_b (getPseudoRandomBuffer random r0 fresh size)) = size /\
  (forall i, (i < size)%nat ->
     nth i (prng_b (getPseudoRandomBuffer random r0 fresh size)) x00
     = draw_byte random i) /\
  prng_calls (getPseudoRandomBuffer random r0 fresh size)
  = (size / 4 + 1)%nat /\
  (forall other r1,
     List.length other = size ->
     prng_b (getPseudoRandomBuffer random r1 other size)
     = prng_b (getPseudoRandomBuffer random r0 fresh size)).
Proof.
  intros Hlen.
  assert (Hinv : forall r1 other, List.length other = size ->
            List.length (prng_b (getPseudoRandomBuffer random r1 other size))
            = size /\
            (forall i, (i < size)%nat ->
               nth i (prng_b (getPseudoRandomBuffer random r1 other size)) x00
               = draw_byte random i) /\
            prng_calls (getPseudoRandomBuffer random r1 other size)
            = (size / 4 + 1)%nat).
  { intros r1 other Ho. unfold getPseudoRandomBuffer.
    destruct (getPseudoRandomBuffer_loop_inv random size (S size) 0
                (mkPrng r1 0 other)) as (H1 & H2 & H3).
    - exact Ho.
    - intros m Hm. lia.
    - reflexivity.
    - intros H. lia.
    - split; [exact H1|]. split.
      + intros i Hi. apply H2; lia.
      + rewrite H3. cbn [Nat.add].
        pose proof (Nat.div_mod_eq size 4).
        pose proof (Nat.mod_upper_bound size 4 ltac:(discriminate)).
        pose proof (Nat.div_mod_eq (S (size + 3)) 4).
        pose proof (Nat.mod_upper_bound (S (size + 3)) 4 ltac:(discriminate)).
        replace (S size + 3)%nat with (S (size + 3)) by lia. lia. }
  destruct (Hinv r0 fresh Hlen) as (H1 & H2 & H3).
  split; [exact H1|]. split; [exact H2|]. split; [exact H3|].
  intros other r1 Ho. destruct (Hinv r1 other Ho) as (G1 & G2 & _).
  apply (nth_ext _ _ x00 x00); [congruence|].
  intros n Hn. rewrite G2, H2 by lia. reflexivity.
Qed.


(** * The properties on concrete inputs *)

(** A non-minimal push (OP_PUSHDATA1 carrying one byte, then OP_PUSHDATA2
    carrying two) followed by OP_DUP. *)
Lemma C1_roundtrip_witness :
  fromBuffer true [x4c; x01; xaa; x4d; x02; x00; xbb; xcc; x76]
  = Ok [push (Num 76) (Num 1) [xaa]; push (Num 77) (Num 2) [xbb; xcc];
        bare (Num 118)] /\
  toBuffer [push (Num 76) (Num 1) [xaa]; push (Num 77) (Num 2) [xbb; xcc];
            bare (Num 118)]
  = [x4c; x01; xaa; x4d; x02; x00; xbb; xcc; x76].
Proof.
  split; [reflexivity|].
  apply (C1_fromBuffer_toBuffer_roundtrip true
           [x4c; x01; xaa; x4d; x02; x00; xbb; xcc; x76]).
  reflexivity.
Defined.

(** C4, the claim as stated fails: OP_0 followed by a push of a 71-byte
    multisig output script matches MULTISIG_IN and SCRIPTHASH_IN.  In the
    order of the spec SCRIPTHASH_IN comes first; [classify] returns
    MULTISIG_IN, whatever [PublicKey.isValid] is. *)
Lemma C4_counterexample_multisig_in_before_scripthash_in :
  exists s : Script,
    forall strict isValid,
      fromBuffer strict (x00 :: x47 :: redeem_multisig) = Ok s /\
      identifier strict isValid MULTISIG_IN s = Ok true /\
      identifier strict isValid SCRIPTHASH_IN s = Ok true /\
      first_match strict isValid spec_order s = Ok SCRIPTHASH_IN /\
      classify strict isValid s = Ok MULTISIG_IN /\
      classify strict isValid s <> first_match strict isValid spec_order s.
Proof.
  exists multisig_in_script. intros strict isValid.
  assert (H1 : first_match strict isValid spec_order multisig_in_script
               = Ok SCRIPTHASH_IN) by reflexivity.
  assert (H2 : classify strict isValid multisig_in_script = Ok MULTISIG_IN)
    by reflexivity.
  repeat split; try reflexivity. rewrite H1, H2. discriminate.
Qed.

Lemma C4_witness :
  (forall b, length_isValid b = true -> buf_length b = 33 \/ buf_length b = 65) /\
  identifier true length_isValid PUBKEYHASH_IN pubkeyhash_in_script = Ok true /\
  identifier true length_isValid SCRIPTHASH_IN pubkeyhash_in_script = Ok true /\
  classify true length_isValid pubkeyhash_in_script = Ok PUBKEYHASH_IN.
Proof.
  assert (Hv : forall b, length_isValid b = true ->
                         buf_length b = 33 \/ buf_length b = 65).
  { intros [l|]; simpl; [|discriminate]. unfold blen.
    intros H. apply orb_prop in H. destruct H as [H|H];
      apply Nat.eqb_eq in H; rewrite H; [left|right]; reflexivity. }
  split; [exact Hv|]. split; [reflexivity|]. split; [reflexivity|].
  apply (proj2 (proj2 (C4_classify_first_match_in_code_order
                         true length_isValid pubkeyhash_in_script)));
    [exact Hv|reflexivity|reflexivity].
Defined.

Lemma C5_witness :
  0 < blen [x01; x02; x03] < 76 /\
  add spec_registry (VBuffer [x01; x02; x03]) [bare (Num 118)]
  = Ok [bare (Num 118); push (Num 3) (Num 3) [x01; x02; x03]].
Proof.
  assert (H : 0 < blen [x01; x02; x03] < 76) by (vm_compute; split; reflexivity).
  split; [exact H|].
  exact (proj1 (proj1 (proj2 (C5_add_payload_push_opcode spec_registry
                                [x01; x02; x03] [bare (Num 118)])) H)).
Defined.


(** Scenario E1: on the output script of 20 zero bytes [getPublicKeyHash]
    returns these 20 bytes. *)
Example getPublicKeyHash_of_E1 :
  fromBuffer true e1_bytes = Ok e1_script /\
  classify true length_isValid e1_script = Ok PUBKEYHASH_OUT /\
  getPublicKeyHash e1_script = Ok (Some (repeat x00 20), e1_script).
Proof.
  assert (H : classify true length_isValid e1_script = Ok PUBKEYHASH_OUT)
    by reflexivity.
  split; [reflexivity|]. split; [exact H|].
  destruct (proj1 (proj2 (proj2 (getPublicKeyHash_third_payload true
                                   length_isValid spec_registry e1_script)))
              H)
    as (c0 & c1 & c2 & c3 & c4 & payload & E & Hb & Hg).
  injection E as <- <- <- <- <-. simpl in Hb. injection Hb as <-. exact Hg.
Qed.

Lemma C7_witness :
  Permutation [[x03; x01]; [x02; xff]; [x02; x10]]
              [[x02; x10]; [x03; x01]; [x02; xff]] /\
  buildMultisigOut spec_registry bytes (fun k => k)
    [[x03; x01]; [x02; xff]; [x02; x10]] 2 false
  = buildMultisigOut spec_registry bytes (fun k => k)
      [[x02; x10]; [x03; x01]; [x02; xff]] 2 false /\
  buildMultisigOut spec_registry bytes (fun k => k)
    [[x02; x10]; [x03; x01]; [x02; xff]] 2 false
  = Ok [bare (Num 82); push (Num 2) (Num 2) [x02; x10];
        push (Num 2) (Num 2) [x02; xff]; push (Num 2) (Num 2) [x03; x01];
        bare (Num 83); bare (Num 174)].
Proof.
  assert (P : Permutation [[x03; x01]; [x02; xff]; [x02; x10]]
                          [[x02; x10]; [x03; x01]; [x02; xff]]).
  { eapply perm_trans; [apply perm_skip, perm_swap|apply perm_swap]. }
  split; [exact P|]. split; [|reflexivity].
  exact (proj1 (C7_buildMultisigOut_permutation spec_registry bytes
                  (fun k => k) _ _ 2 P)).
Defined.

(** C8, the claim as stated fails: the script made by [add(0xba)] is one
    bare opcode without a canonical name; [toString] renders it as [0xba],
    and [fromString] of that text throws instead of giving the script back. *)
Lemma C8_counterexample_unnamed_opcode :
  exists s : Script,
    registry_wf spec_registry = true /\
    add spec_registry (VNumber 186) [] = Ok s /\
    built spec_registry s /\
    toString spec_registry s = Ok "0xba"%string /\
    forall strict,
      fromString strict spec_registry "0xba" = Throw InvalidScript /\
      ~ (exists str s', toString spec_registry s = Ok str /\
                        fromString strict spec_registry str = Ok s' /\
                        chunkwise_equal s' s).
Proof.
  exists [bare (Num 186)].
  split; [reflexivity|]. split; [reflexivity|]. split.
  { apply (built_add spec_registry (VNumber 186) false [] _
             (built_empty spec_registry) I). reflexivity. }
  split; [reflexivity|]. intros strict. split; [reflexivity|].
  intros (str & s' & Hs & Hf & _).
  assert (E : toString spec_registry [bare (Num 186)] = Ok "0xba"%string)
    by reflexivity.
  rewrite E in Hs. injection Hs as <-.
  assert (F : fromString strict spec_registry "0xba" = Throw InvalidScript)
    by reflexivity.
  rewrite F in Hf. discriminate.
Qed.

Lemma e1_script_built : built spec_registry e1_script.
Proof.
  assert (B1 : built spec_registry [bare (Num 118)]).
  { apply (built_add spec_registry (VNumber 118) false [] _
             (built_empty spec_registry) I). reflexivity. }
  assert (B2 : built spec_registry [bare (Num 118); bare (Num 169)]).
  { apply (built_add spec_registry (VString "OP_HASH160") false _ _ B1 I).
    reflexivity. }
  assert (B3 : built spec_registry
                 [bare (Num 118); bare (Num 169);
                  push (Num 20) (Num 20) (repeat x00 20)]).
  { apply (built_add spec_registry (VBuffer (repeat x00 20)) false _ _ B2 I).
    reflexivity. }
  assert (B4 : built spec_registry
                 [bare (Num 118); bare (Num 169);
                  push (Num 20) (Num 20) (repeat x00 20); bare (Num 136)]).
  { apply (built_add spec_registry (VOpcode (Opcode.mk (Num 136))) false _ _
             B3 I). reflexivity. }
  apply (built_add spec_registry (VNumber 172) false _ _ B4 I). reflexivity.
Qed.

Lemma C8_witness :
  registry_wf spec_registry = true /\
  built spec_registry e1_script /\
  e1_script <> [] /\
  forallb (bare_named spec_registry) e1_script = true /\
  toString spec_registry e1_script
  = Ok "OP_DUP OP_HASH160 20 0x0000000000000000000000000000000000000000 OP_EQUALVERIFY OP_CHECKSIG"%string /\
  fromString true spec_registry
    "OP_DUP OP_HASH160 20 0x0000000000000000000000000000000000000000 OP_EQUALVERIFY OP_CHECKSIG"
  = Ok e1_script.
Proof.
  assert (Hne : e1_script <> []) by discriminate.
  assert (Hb : forallb (bare_named spec_registry) e1_script = true)
    by reflexivity.
  assert (Hwf : registry_wf spec_registry = true) by reflexivity.
  split; [exact Hwf|]. split; [exact e1_script_built|].
  split; [exact Hne|]. split; [exact Hb|]. split; [reflexivity|].
  destruct (C8_text_roundtrip_named_opcodes true spec_registry e1_script
              Hwf e1_script_built Hne Hb) as (str & s' & Hs & Hf & -> & _).
  assert (E : toString spec_registry e1_script
              = Ok "OP_DUP OP_HASH160 20 0x0000000000000000000000000000000000000000 OP_EQUALVERIFY OP_CHECKSIG"%string)
    by reflexivity.
  rewrite E in Hs. injection Hs as <-. exact Hf.
Defined.

(** ** The scenarios of section 8 of the spec *)

Example scenario_E2 (strict : bool) :
  bind (fromBuffer strict ([xa9; x14] ++ repeat x00 20 ++ [x87]))
       (classify strict length_isValid) = Ok SCRIPTHASH_OUT.
Proof. reflexivity. Qed.

(** E3.  Before DATA_OUT, [classify] tries SCRIPTHASH_IN, which parses the
    payload "Hello" as a script: its first byte 0x48 announces 72 bytes and 4
    are left.  A reader whose [read] fails there makes [classify] fail; one
    that gives the 4 bytes makes it return DATA_OUT. *)
Example scenario_E3 (strict : bool) :
  fromBuffer strict [x6a; x05; x48; x65; x6c; x6c; x6f]
  = Ok [bare (Num 106); push (Num 5) (Num 5) [x48; x65; x6c; x6c; x6f]] /\
  classify false length_isValid
    [bare (Num 106); push (Num 5) (Num 5) [x48; x65; x6c; x6c; x6f]]
  = Ok DATA_OUT /\
  classify true length_isValid
    [bare (Num 106); push (Num 5) (Num 5) [x48; x65; x6c; x6c; x6f]]
  = Throw Truncated /\
  toString spec_registry
    [bare (Num 106); push (Num 5) (Num 5) [x48; x65; x6c; x6c; x6f]]
  = Ok "OP_RETURN 5 0x48656c6c6f"%string.
Proof. repeat split; reflexivity. Qed.

Example scenario_E6 (strict : bool) : fromBuffer strict [x4c] = Throw Truncated.
Proof. reflexivity. Qed.

(** ** What [fromString] does not read back

    The other scripts built through [add] that the amended C8 leaves out:
    the empty script, a bare push-length opcode and a bare OP_PUSHDATA1. *)

Example text_of_empty_script (strict : bool) :
  toString spec_registry [] = Ok EmptyString /\
  fromString strict spec_registry EmptyString = Throw InvalidScript.
Proof. split; reflexivity. Qed.

Example text_of_bare_push_length (strict : bool) :
  add spec_registry (VNumber 5) [] = Ok [bare (Num 5)] /\
  toString spec_registry [bare (Num 5)] = Ok "0x5"%string /\
  fromString strict spec_registry "0x5" = Throw TypeError.
Proof. repeat split; reflexivity. Qed.

Example text_of_bare_pushdata (strict : bool) :
  add spec_registry (VNumber 76) [] = Ok [bare (Num 76)] /\
  toString spec_registry [bare (Num 76)] = Ok "OP_PUSHDATA1"%string /\
  fromString strict spec_registry "OP_PUSHDATA1" = Throw TypeError.
Proof. repeat split; reflexivity. Qed.

(** ** The further properties on concrete inputs *)

(** X1 on a push of five bytes cut short after two, read without failing. *)
Lemma X1_witness :
  fromBuffer false [x76; x05; xaa; xbb]
  = Ok [bare (Num 118); push (Num 5) (Num 5) [xaa; xbb]] /\
  Forall parsed_chunk [bare (Num 118); push (Num 5) (Num 5) [xaa; xbb]].
Proof.
  split; [reflexivity|].
  exact (proj1 (X1_parser_chunk_invariants false [x76; x05; xaa; xbb] _
                  eq_refl)).
Defined.

Lemma X2_witness :
  fromBuffer true [x4c; x01; xaa; x76]
  = Ok [push (Num 76) (Num 1) [xaa]; bare (Num 118)] /\
  fromBuffer true (toBuffer [push (Num 76) (Num 1) [xaa]; bare (Num 118)])
  = Ok [push (Num 76) (Num 1) [xaa]; bare (Num 118)].
Proof.
  split; [reflexivity|].
  apply (X2_parse_of_serialized true spec_registry).
  right. exists [x4c; x01; xaa; x76]. reflexivity.
Defined.

Lemma X3_witness :
  fromString true spec_registry (hex_of_bytes [x76; xa9])
  = fromBuffer true [x76; xa9].
Proof. apply X3_fromString_of_hex. discriminate. Defined.

Lemma X4_witness :
  removeCodeseparators
    [bare (Num 171); push (Num 1) (Num 1) [xab]; bare (Num 118)]
  = [push (Num 1) (Num 1) [xab]; bare (Num 118)] /\
  In (push (Num 1) (Num 1) [xab])
     (removeCodeseparators
        [bare (Num 171); push (Num 1) (Num 1) [xab]; bare (Num 118)]).
Proof.
  split; [reflexivity|].
  refine (proj1 (proj2 (proj2 (proj2
            (X4_removeCodeseparators true
               [bare (Num 171); push (Num 1) (Num 1) [xab]; bare (Num 118)]))))
            _ _ _ _).
  - apply Forall_cons;
      [|apply Forall_cons; [|apply Forall_cons; [|apply Forall_nil]]].
    + left. exists 171. split; [reflexivity|]. unfold bare_shape. lia.
    + right. exists 1, 1, [xab]. split; [reflexivity|].
      split; [left; lia|]. unfold blen. simpl. lia.
    + left. exists 118. split; [reflexivity|]. unfold bare_shape. lia.
  - right. left. reflexivity.
  - discriminate.
Defined.

Lemma X5_witness :
  isPushOnly [push (Num 1) (Num 1) [xaa]; push (Num 2) (Num 2) [xbb; xcc]]
  = isPushOnly [push (Num 1) (Num 1) [xaa]].
Proof.
  apply (proj1 (X5_isPushOnly_add spec_registry
                  [push (Num 1) (Num 1) [xaa]] false) [xbb; xcc]).
  reflexivity.
Defined.

Lemma X6_witness :
  exists s,
    buildScriptHashOut spec_registry (fun _ => repeat x00 20) e1_script = Ok s /\
    classify true length_isValid s = Ok SCRIPTHASH_OUT.
Proof.
  destruct (X6_buildScriptHashOut true length_isValid spec_registry
              (fun _ => repeat x00 20) e1_script eq_refl)
    as (s & H1 & _ & _ & H2 & _).
  exists s. split; assumption.
Defined.


Lemma X8_witness :
  exists s,
    buildPublicKeyOut spec_registry bytes (fun k => k) key33 = Ok s /\
    classify true length_isValid s = Ok PUBKEY_OUT.
Proof.
  assert (Hk : pushable key33) by (unfold pushable, blen; simpl; lia).
  destruct (X8_buildPublicKeyOut true length_isValid spec_registry bytes
              (fun k => k) key33 Hk) as (s & H1 & _ & H2 & _).
  exists s. split; [exact H1|]. apply H2. reflexivity.
Defined.

Lemma X9_witness :
  exists s,
    buildPublicKeyHashIn spec_registry bytes (fun k => k) key33
      (repeat x30 71) Undefined = Ok s /\
    s = [payload_push (repeat x30 71 ++ [x01]); payload_push key33] /\
    classify true length_isValid s = Ok PUBKEYHASH_IN.
Proof.
  assert (Hs : blen (repeat x30 71) + 1 < 2 ^ 32) by (unfold blen; simpl; lia).
  assert (Hk : pushable key33) by (unfold pushable, blen; simpl; lia).
  destruct (X9_buildPublicKeyHashIn true length_isValid spec_registry bytes
              (fun k => k) key33 (repeat x30 71) Undefined Hs Hk)
    as (s & H1 & H2 & H3 & _).
  exists s. split; [exact H1|]. split; [exact H2|]. apply H3.
  split; [unfold blen; simpl; lia|reflexivity].
Defined.



Lemma X11_witness :
  exists s,
    fromAddress spec_registry (fun _ => repeat xff 20)
      (mkAddress (repeat x00 20) false true (x00 :: repeat x00 20))
    = Returned s /\
    getPublicKeyHash s = Ok (Some (repeat x00 20), s).
Proof.
  destruct (proj1 (proj2 (X11_fromAddress true length_isValid spec_registry
                            (fun _ => repeat xff 20)
                            (mkAddress (repeat x00 20) false true
                               (x00 :: repeat x00 20))))
              eq_refl eq_refl)
    as (s & H1 & _ & H2).
  - unfold pushable, blen; simpl; lia.
  - exists s. split; assumption.
Defined.

(** X12 on a script holding a Script object. *)
Lemma X12_witness :
  toString spec_registry [bare (Num 118); ScriptObj []] = Throw TypeError.
Proof.
  refine (proj1 (proj2 (X12_toString_throws true spec_registry
                          [bare (Num 118); ScriptObj []] _)) _).
  - intros [z| |]; try discriminate. unfold is_pushdata, num_eqb. intros H.
    apply orb_prop in H. destruct H as [H|H];
      [apply orb_prop in H; destruct H as [H|H]|];
      apply Z.eqb_eq in H; subst z; reflexivity.
  - exists (ScriptObj []). split; [right; left; reflexivity|].
    split; reflexivity.
Defined.

(** X13 on the one-byte payload 0x4c, which is no script: OP_PUSHDATA1
    without its length byte. *)
Lemma X13_witness :
  buildDataOut spec_registry (fun _ => []) (VBuffer [x4c])
  = Ok [bare (Num 106); push (Num 1) (Num 1) [x4c]] /\
  classify false length_isValid
    [bare (Num 106); push (Num 1) (Num 1) [x4c]] = Throw Truncated.
Proof.
  split; [reflexivity|].
  assert (Hd : pushable [x4c]) by (unfold pushable, blen; simpl; lia).
  destruct (X13_classify_data_out false length_isValid spec_registry
              (fun _ => []) [x4c] Hd) as (s & _ & _ & -> & _ & H).
  exact H.
Defined.


Lemma X14_witness :
  classify false length_isValid
    [bare (Num 106); push (Num 1) (Num 1) [x4c]] = Throw Truncated /\
  isScriptHashIn false length_isValid
    [bare (Num 106); push (Num 1) (Num 1) [x4c]] = Throw Truncated.
Proof.
  split; [reflexivity|].
  exact (proj1 (proj2 (X14_classify_throws false length_isValid
                         [bare (Num 106); push (Num 1) (Num 1) [x4c]]
                         Truncated eq_refl))).
Defined.

(** ** The properties of lib/transaction/input/input.js on concrete inputs *)

Lemma X16_witness :
  Input_script true [] (mkInput TxidUndefined Undefined Undefined None
                          (Some [x76]))
  = Ok (0%nat, [[bare (Num 118)]],
        mkInput TxidUndefined Undefined Undefined (Some 0%nat) (Some [x76])) /\
  toBuffer [bare (Num 118)] = [x76].
Proof.
  split; [reflexivity|].
  exact (proj1 (proj2 (proj2
           (proj1 (proj2 (X16_input_script_cache true [] Input_new))
              [x76] _ 0%nat [[bare (Num 118)]] _ eq_refl eq_refl)))).
Defined.

(** X17 on the script OP_DUP, set on an Input and then given a payload. *)
Lemma X17_witness :
  add_at spec_registry 0%nat (VBuffer [xaa]) [[bare (Num 118)]]
  = Ok [[bare (Num 118); push (Num 1) (Num 1) [xaa]]] /\
  _scriptBuffer (mkInput TxidUndefined Undefined Undefined (Some 0%nat)
                   (Some [x76]))
  <> Some (toBuffer (chunks_at [[bare (Num 118); push (Num 1) (Num 1) [xaa]]]
                       0%nat)).
Proof.
  split; [reflexivity|].
  refine (proj1 (proj2 (proj2 (proj2
            (X17_setScript_snapshot true spec_registry [[bare (Num 118)]]
               [[bare (Num 118); push (Num 1) (Num 1) [xaa]]]
               Input_new _ 0%nat [xaa] _ _ eq_refl eq_refl))))).
  - simpl. lia.
  - unfold pushable, blen. simpl. lia.
Defined.

Lemma X18_witness :
  toBufferWriter (fun _ => Throw TypeError)
    (mkInput (TxidBuffer (repeat x11 32)) (Num 1) (Num 4294967295) None
       (Some [x76]))
  = Ok wire_input /\
  fromBufferReader true wire_input
  = Ok (mkInput (TxidBuffer (repeat x11 32)) (Num 1) (Num 4294967295) None
          (Some [x76]), []).
Proof.
  split; [reflexivity|].
  assert (H1 : 0 <= 1 < 2 ^ 32) by lia.
  assert (H2 : 0 <= 4294967295 < 2 ^ 32) by lia.
  assert (H3 : blen [x76] < 2 ^ 64) by (unfold blen; simpl; lia).
  destruct (X18_input_wire_roundtrip true (fun _ => Throw TypeError)
              (mkInput (TxidBuffer (repeat x11 32)) (Num 1) (Num 4294967295)
                 None (Some [x76]))
              (repeat x11 32) [x76] 1 4294967295 []
              eq_refl eq_refl eq_refl H1 eq_refl H2 eq_refl H3)
    as (w & Hw & _ & _ & Hr).
  injection Hw as <-. rewrite app_nil_r in Hr. exact Hr.
Defined.

Lemma spec_registry_pushdata (op : jsnum) :
  is_pushdata op = true -> named spec_registry op = true.
Proof.
  destruct op as [z| |]; try discriminate. unfold is_pushdata, num_eqb.
  intros H. apply orb_prop in H. destruct H as [H|H];
    [apply orb_prop in H; destruct H as [H|H]|];
    apply Z.eqb_eq in H; subst z; reflexivity.
Qed.

Lemma X19_witness :
  exists i1,
    fromBufferReader true wire_input = Ok (i1, []) /\
    toObject spec_registry [] i1 = Throw TypeError.
Proof.
  eexists. split; [reflexivity|].
  exact (proj1 (proj2 (X19_toObject_needs_script true spec_registry []
                         spec_registry_pushdata)
                  wire_input [] _ eq_refl)).
Defined.

(** X20 on an Input with an empty script. *)
Lemma X20_witness :
  exists obj,
    toObject spec_registry [[]]
      (mkInput (TxidBuffer (repeat x11 32)) (Num 1) (Num 0) (Some 0%nat)
         (Some []))
    = Ok obj /\
    fromJSON true spec_registry (json_of obj) [[]] = Throw InvalidScript.
Proof.
  refine (proj1 (X20_fromJSON_of_toObject true spec_registry [[]]
                   (mkInput (TxidBuffer (repeat x11 32)) (Num 1) (Num 0)
                      (Some 0%nat) (Some []))
                   0%nat (repeat x11 32) eq_refl eq_refl _ eq_refl) eq_refl).
  discriminate.
Defined.

(** X21 on the text of a push of declared length 2 with three bytes. *)
Lemma X21_witness :
  fromString true spec_registry "2 0xaabbcc"
  = Ok [push (Num 2) (Num 2) [xaa; xbb; xcc]] /\
  fromBuffer true (toBuffer [push (Num 2) (Num 2) [xaa; xbb; xcc]])
  <> Ok [push (Num 2) (Num 2) [xaa; xbb; xcc]].
Proof.
  assert (Hn : (0 < 2 < 76)%N) by lia.
  destruct (X21_fromString_unchecked_length true spec_registry 2
              [xaa; xbb; xcc] eq_refl Hn) as [H1 H2].
  split; [exact H1|]. apply H2. left. unfold blen. simpl. lia.
Defined.

(** X23 on a push that is not minimal: OP_PUSHDATA1 for one byte, then
    OP_DUP. *)
Lemma X23_witness :
  exists str,
    toString spec_registry [push (Num 76) (Num 1) [xaa]; bare (Num 118)]
    = Ok str /\
    fromString true spec_registry str
    = Ok [push (Num 76) (Num 1) [xaa]; bare (Num 118)].
Proof.
  destruct (X23_text_roundtrip_parsed true spec_registry
              [x4c; x01; xaa; x76]
              [push (Num 76) (Num 1) [xaa]; bare (Num 118)]
              eq_refl eq_refl) as (str & H1 & H2 & _).
  - discriminate.
  - intros c [<-|[<-|[]]] Hb; [discriminate|reflexivity].
  - exists str. split; assumption.
Defined.

Lemma X24_witness :
  exists w,
    toBufferWriter (fun _ => Throw TypeError)
      (mkInput (TxidBuffer (repeat x11 32)) (Num 1) (Num 4294967295) None
         (Some [x76])) = Ok w /\
    blen w + blen (@nil byte) <= blen wire_input.
Proof.
  destruct (X24_fromBufferReader_sound true wire_input []
              (mkInput (TxidBuffer (repeat x11 32)) (Num 1) (Num 4294967295)
                 None (Some [x76])) eq_refl)
    as (prev & script & index & sequence & _ & _ & _ & _ & _ & _ & H).
  destruct (H (fun _ => Throw TypeError)) as (w & H1 & H2 & _).
  exists w. split; assumption.
Defined.

(** X26 on one key, one signature of two bytes and a digest of zeros. *)
Lemma X26_witness :
  exists output input,
    toScriptHashOut spec_registry (fun _ => repeat x00 20)
      [bare (Num 81); push (Num 2) (Num 2) [x02; x10]; bare (Num 81);
       bare (Num 174)] = Ok output /\
    buildP2SHMultisigIn spec_registry bytes (fun k => k) [[x02; x10]] 1
      [VBuffer [x30; x01]] (mkOpts false None) = Ok input /\
    buf_at input (List.length input - 1)
    = Some [x51; x02; x02; x10; x51; xae] /\
    buf_at output 1 = Some (repeat x00 20).
Proof.
  assert (Hs : Forall pushable [[x30; x01]]).
  { apply Forall_cons; [|apply Forall_nil]. unfold pushable, blen; simpl; lia. }
  assert (Hb : pushable [x51; x02; x02; x10; x51; xae])
    by (unfold pushable, blen; simpl; lia).
  destruct (X26_p2sh_output_commits_to_input spec_registry bytes (fun k => k)
              (fun _ => repeat x00 20) [[x02; x10]] 1 [[x30; x01]]
              (mkOpts false None)
              [bare (Num 81); push (Num 2) (Num 2) [x02; x10]; bare (Num 81);
               bare (Num 174)] eq_refl Hs Hb eq_refl)
    as (output & input & payload & H1 & H2 & H3 & H4 & H5 & _).
  exists output, input. subst payload.
  split; [exact H1|]. split; [exact H2|]. split; [exact H3|exact H5].
Defined.

(** X27 on OP_DUP followed by bytes that do not parse. *)
Lemma X27_witness :
  fromBuffer true (toBuffer [bare (Num 118)] ++ [x4c]) = Throw Truncated.
Proof.
  refine (eq_trans (proj1 (X27_fromBuffer_concat true [bare (Num 118)] [x4c])
                      _) eq_refl).
  apply Forall_cons; [|apply Forall_nil].
  left. exists 118. split; [reflexivity|]. unfold bare_shape. lia.
Defined.

(** ** Random.prototype.getPseudoRandomBuffer on a concrete input *)

(** X22 on four bytes and draws that are all 0x04030201: two draws, the
    bytes of the first. *)
Lemma X22_witness :
  prng_b (getPseudoRandomBuffer (fun _ => 67305985) 0 [xff; xff; xff; xff] 4)
  = [x01; x02; x03; x04] /\
  prng_calls
    (getPseudoRandomBuffer (fun _ => 67305985) 0 [xff; xff; xff; xff] 4)
  = 2%nat.
Proof.
  split; [reflexivity|].
  exact (proj1 (proj2 (proj2
           (X22_getPseudoRandomBuffer (fun _ => 67305985) 0
              [xff; xff; xff; xff] 4 eq_refl)))).
Defined.
